(** * HBGS-log: the play synchronisation and reconciliation engine of [app.py]

    A shallow embedding of the functions [fetch_plays_for_user],
    [update_plays], [fetch_game_info], [cron_update] and [admin_full_scan]
    of [src/app.py], and the properties of the specification that concern
    them; then of the admin endpoints and of the statistics query, with
    properties read off the code.

    Conventions of the embedding.
    - Python [str] values are byte strings ([string]); Python's [<] on [str]
      and SQLite's [>=] on TEXT are both the lexicographic order on code
      points, which is [String.ltb] here. [str.upper] and [int] follow the
      Unicode tables of the interpreter, which are not reproduced: they are
      the two functions of a class [Py.Text], known on ASCII text only, and
      every property holds for every such pair.
    - Python [int] is [Z].
    - [datetime] is the proleptic Gregorian calendar; subtracting
      [timedelta(days=n)] steps back one day [n] times and raises
      [OverflowError] before 0001-01-01.
    - The three SQL tables are a record [DB]: [plays] and [games] are finite
      maps keyed by the primary key [id], [bgg_users] is the list of rows in
      table order. [db.commit()] is not modelled: a run that raises has no
      resulting store.
    - The remote service, the clock and [time.sleep] are an abstract world
      [W] with a transition function per effect (class [Remote]); an HTTP
      response is its status code and the element tree parsed from its body.
    - A [State] pairs the store and the world with a log of the statements
      that changed a row and of the calls of [fetch_game_info], in program
      order; the log is book-keeping of the model, the program has none.
    - The two [while True] loops take a fuel argument, one unit per HTTP
      request; [OutOfFuel] stands for a loop that has not finished yet.
    - Exceptions are the [Raise] results of the [outcome] monad. Two
      failures stay outside the model: [requests.get] always answers (no
      connection error, no timeout), and in the engine SQLite stores every
      integer, where [db.execute] raises [OverflowError] on one outside 64
      bits; the id that [delete_user] takes from the URL is checked. *)

From Stdlib Require Import ZArith Ascii Lia.
From stdpp Require Import gmap strings list sorting.

Local Open Scope Z_scope.

(** ** Python values and exceptions *)

Inductive exn : Type :=
| TypeError
| ValueError
| AttributeError
| OverflowError
| ParseError.

Inductive outcome (A : Type) : Type :=
| Ok (a : A)
| Raise (e : exn)
| OutOfFuel.

Arguments Ok {A} a.
Arguments Raise {A} e.
Arguments OutOfFuel {A}.

#[global] Instance outcome_ret : MRet outcome := fun _ a => Ok a.

#[global] Instance outcome_bind : MBind outcome := fun _ _ k m =>
  match m with
  | Ok a => k a
  | Raise e => Raise e
  | OutOfFuel => OutOfFuel
  end.

Module Py.

(** [a < b] on two [str]. *)
Definition str_lt (a b : string) : bool := String.ltb a b.

(** [a >= b] on two [str] (also SQLite's [>=] on TEXT, BINARY collation). *)
Definition str_ge (a b : string) : bool := negb (String.ltb a b).

(** [a < b] where [a] comes from [attrib.get] and may be [None]:
    comparing [None] with a [str] raises [TypeError]. *)
Definition opt_lt (a : option string) (b : string) : outcome bool :=
  match a with
  | Some s => Ok (str_lt s b)
  | None => Raise TypeError
  end.

(** What [str.upper()] does to plain ASCII text: the letters [a-z] become
    [A-Z], the other bytes are kept. *)
Definition is_lower (c : ascii) : bool :=
  let n := N_of_ascii c in ((97 <=? n) && (n <=? 122))%N.

Definition upper_ascii (c : ascii) : ascii :=
  if is_lower c then ascii_of_N (N_of_ascii c - 32) else c.

Fixpoint upper_letters (s : string) : string :=
  match s with
  | EmptyString => EmptyString
  | String c s' => String (upper_ascii c) (upper_letters s')
  end.

(** The text has bytes below 128 only. *)
Fixpoint is_ascii (s : string) : bool :=
  match s with
  | EmptyString => true
  | String c s' => (N_of_ascii c <? 128)%N && is_ascii s'
  end.

(** The text has one of the letters [a-z]. *)
Fixpoint has_lower (s : string) : bool :=
  match s with
  | EmptyString => false
  | String c s' => is_lower c || has_lower s'
  end.

(** What [int(s)] reads from a decimal literal with an optional sign. *)
Definition digit_val (c : ascii) : option Z :=
  let n := N_of_ascii c in
  if ((48 <=? n) && (n <=? 57))%N then Some (Z.of_N (n - 48)) else None.

Fixpoint parse_digits (s : string) (acc : Z) : option Z :=
  match s with
  | EmptyString => Some acc
  | String c s' =>
      match digit_val c with
      | Some d => parse_digits s' (10 * acc + d)
      | None => None
      end
  end.

Definition parse_nat (s : string) : option Z :=
  match s with
  | EmptyString => None
  | _ => parse_digits s 0
  end.

Definition parse_int (s : string) : option Z :=
  match s with
  | String "-"%char s' => Z.opp <$> parse_nat s'
  | String "+"%char s' => parse_nat s'
  | _ => parse_nat s
  end.

(** An optional sign and then one to 4300 ASCII digits: the literals on
    which [int] is the plain decimal reading. *)
Definition unsigned (s : string) : string :=
  match s with
  | String "-"%char s' => s'
  | String "+"%char s' => s'
  | _ => s
  end.

Fixpoint all_digits (s : string) : bool :=
  match s with
  | EmptyString => true
  | String c s' => bool_decide (is_Some (digit_val c)) && all_digits s'
  end.

Definition decimal (s : string) : bool :=
  let d := unsigned s in
  negb (String.eqb d "") && all_digits d && (String.length d <=? 4300)%nat.

(** [str.upper()] and [int(s)] follow the Unicode tables of the interpreter:
    [upper] maps the letters of every script, [int] strips white space and
    reads underscores and the decimal digits of every script. The tables are
    not reproduced: the two are any functions that do on ASCII text what
    Python's do, and [upper] gives no text with a letter of [a-z], as no
    upper-case mapping of Unicode has one. [int_literal s] is [None] where
    [int(s)] raises [ValueError]. *)
Class Text : Type := {
  upper : string -> string;
  int_literal : string -> option Z;
  upper_of_ascii s : is_ascii s = true -> upper s = upper_letters s;
  upper_no_lower s : has_lower (upper s) = false;
  int_of_decimal s : decimal s = true -> int_literal s = parse_int s
}.

(** [x.upper()] where [x] may be [None]: [None] has no method [upper]. *)
Definition opt_upper `{!Text} (x : option string) : outcome string :=
  match x with
  | Some s => Ok (upper s)
  | None => Raise AttributeError
  end.

(** [int(x)] where [x] comes from [attrib.get]: [int(None)] raises
    [TypeError], a string that is no integer literal [ValueError]. *)
Definition int `{!Text} (x : option string) : outcome Z :=
  match x with
  | None => Raise TypeError
  | Some s =>
      match int_literal s with
      | Some z => Ok z
      | None => Raise ValueError
      end
  end.

(** [%0wd]: the [w] low decimal digits of [n], most significant first. *)
Definition digit (n : Z) : ascii := ascii_of_N (48 + Z.to_N (n mod 10)).

Fixpoint zfill (w : nat) (n : Z) (acc : string) : string :=
  match w with
  | O => acc
  | S w' => zfill w' (n / 10) (String (digit n) acc)
  end.

End Py.

(** ** [datetime]: the proleptic Gregorian calendar of Python's library *)

Record datetime : Type := mkDatetime {
  year : Z; month : Z; day : Z;
  hour : Z; minute : Z; second : Z; microsecond : Z
}.

Module Datetime.

Definition is_leap (y : Z) : bool :=
  (y mod 4 =? 0) && (negb (y mod 100 =? 0) || (y mod 400 =? 0)).

Definition days_in_month (y m : Z) : Z :=
  if m =? 2 then (if is_leap y then 29 else 28)
  else if (m =? 4) || (m =? 6) || (m =? 9) || (m =? 11) then 30
  else 31.

Definition valid (d : datetime) : Prop :=
  1 <= year d <= 9999 /\ 1 <= month d <= 12 /\
  1 <= day d <= days_in_month (year d) (month d) /\
  0 <= hour d < 24 /\ 0 <= minute d < 60 /\ 0 <= second d < 60 /\
  0 <= microsecond d < 1000000.

Definition valid_date (d : datetime) : Prop :=
  1 <= year d <= 9999 /\ 1 <= month d <= 12 /\
  1 <= day d <= days_in_month (year d) (month d).

(** The order of calendar dates. *)
Definition date_lt (d1 d2 : datetime) : Prop :=
  year d1 < year d2 \/
  (year d1 = year d2 /\
   (month d1 < month d2 \/ (month d1 = month d2 /\ day d1 < day d2))).

Definition with_date (d : datetime) (y m dd : Z) : datetime :=
  mkDatetime y m dd (hour d) (minute d) (second d) (microsecond d).

(** One day earlier, same time of day; [None] before 0001-01-01, where
    Python raises [OverflowError]. *)
Definition prev_day (d : datetime) : option datetime :=
  if 1 <? day d then Some (with_date d (year d) (month d) (day d - 1))
  else if 1 <? month d then
    Some (with_date d (year d) (month d - 1) (days_in_month (year d) (month d - 1)))
  else if 1 <? year d then Some (with_date d (year d - 1) 12 31)
  else None.

(** [d - timedelta(days=n)] *)
Fixpoint minus_days (n : nat) (d : datetime) : option datetime :=
  match n with
  | O => Some d
  | S n' =>
      match prev_day d with
      | Some d' => minus_days n' d'
      | None => None
      end
  end.

Definition sub_days (d : datetime) (n : nat) : outcome datetime :=
  match minus_days n d with
  | Some d' => Ok d'
  | None => Raise OverflowError
  end.

(** [d.date().isoformat()]: [YYYY-MM-DD] *)
Definition date_string (d : datetime) : string :=
  Py.zfill 4 (year d)
    (String "-" (Py.zfill 2 (month d) (String "-" (Py.zfill 2 (day d) "")))).

(** [HH:MM:SS] *)
Definition time_string (d : datetime) (tail : string) : string :=
  Py.zfill 2 (hour d)
    (String ":" (Py.zfill 2 (minute d) (String ":" (Py.zfill 2 (second d) tail)))).

(** [d.isoformat(timespec="seconds")] *)
Definition isoformat_seconds (d : datetime) : string :=
  date_string d +:+ String "T" (time_string d "").

(** [d.isoformat()]: the microseconds are printed only when not zero. *)
Definition isoformat (d : datetime) : string :=
  date_string d +:+
    String "T" (time_string d
      (if microsecond d =? 0 then ""
       else String "." (Py.zfill 6 (microsecond d) ""))).

(** [date] is the ISO date of the day [n] days before [now]. *)
Definition days_ago (n : nat) (now : datetime) (date : string) : Prop :=
  exists d, minus_days n now = Some d /\ date = date_string d.

End Datetime.

(** ** [xml.etree.ElementTree] elements *)

#[warnings="-register-all"]
Inductive Element : Type :=
| Elem (tag : string) (attrib : list (string * string))
       (text : option string) (children : list Element).

Module ET.

Definition tag (e : Element) : string := let 'Elem t _ _ _ := e in t.
Definition attrib (e : Element) : list (string * string) := let 'Elem _ a _ _ := e in a.
Definition text (e : Element) : option string := let 'Elem _ _ t _ := e in t.
Definition children (e : Element) : list Element := let 'Elem _ _ _ c := e in c.

(** [e.attrib.get(k)] *)
Fixpoint assoc (k : string) (l : list (string * string)) : option string :=
  match l with
  | [] => None
  | (k', v) :: l' => if String.eqb k k' then Some v else assoc k l'
  end.

Definition get (e : Element) (k : string) : option string := assoc k (attrib e).

(** [e.findall(t)]: the direct children with tag [t], in document order. *)
Definition findall (e : Element) (t : string) : list Element :=
  List.filter (fun c => String.eqb (tag c) t) (children e).

(** [e.find(t)]: the first direct child with tag [t], or [None]. *)
Definition find (e : Element) (t : string) : option Element :=
  head (findall e t).

End ET.

(** ** The remote service, the clock and the configuration *)

Inductive Url : Type :=
| PlaysUrl (username : string) (page : Z)
    (* https://boardgamegeek.com/xmlapi2/plays?username={username}&page={page} *)
| ThingUrl (game_id : Z).
    (* https://boardgamegeek.com/xmlapi2/thing?id={game_id} *)

Record Request : Type := mkRequest {
  url : Url;
  authorization : string
}.

(** An HTTP response: its status code and [ET.fromstring(r.text)], which is
    [None] when the body is no well-formed XML document. *)
Record Response : Type := mkResponse {
  status_code : Z;
  xml : option Element
}.

Class Remote (W : Type) : Type := {
  requests_get : Request -> W -> Response * W;
  time_sleep : Z -> W -> W;
  datetime_today : W -> datetime
}.

(** The environment variables read at start-up; each may be unset. *)
Record Config : Type := mkConfig {
  BGG_TOKEN : option string;
  GAME_LOCATION : option string;
  START_YEAR : option string
}.

(** An f-string prints an unset variable as [None]. *)
Definition fmt (x : option string) : string := default "None" x.

Definition START_DATE (cfg : Config) : string := fmt (START_YEAR cfg) +:+ "-01-01".

Definition RESCAN_DAYS : nat := 14.

Definition headers (cfg : Config) : string := "Bearer " +:+ fmt (BGG_TOKEN cfg).

(** ** The database *)

Record UserRow : Type := mkUser {
  u_id : Z;
  u_username : string;
  u_is_active : bool;
  u_last_full_scan : option string
}.

Record GameRow : Type := mkGame {
  g_name : option string;
  g_image_url : option string
}.

Record PlayRow : Type := mkPlay {
  r_game_id : Z;
  r_play_date : string;
  r_user_id : Z
}.

#[global] Instance PlayRow_eq_dec : EqDecision PlayRow.
Proof. solve_decision. Defined.

Record DB : Type := mkDB {
  bgg_users : list UserRow;
  games : gmap Z GameRow;
  plays : gmap Z PlayRow
}.

(** A fetched play, the dict built by [fetch_plays_for_user]. *)
Record PlayRecord : Type := mkRecord {
  p_id : Z;
  p_game_id : Z;
  p_play_date : string;
  p_user_id : Z;
  p_location : string
}.

(** What a run does to the store and which metadata look-ups it makes, in
    program order. An [EvUpdatePlay] is an UPDATE that changed a row. *)
Inductive Event : Type :=
| EvInsertPlay (id game_id : Z)
| EvDeletePlay (id : Z)
| EvUpdatePlay (id : Z)
| EvResolve (game_id : Z)
| EvInsertGame (game_id : Z)
| EvClearPlays (user_id : Z).

#[global] Instance Event_eq_dec : EqDecision Event.
Proof. solve_decision. Defined.

Record State (W : Type) : Type := mkState {
  db : DB;
  world : W;
  log : list Event
}.

Arguments mkState {W} db world log.
Arguments db {W} s.
Arguments world {W} s.
Arguments log {W} s.

Definition set_plays (d : DB) (t : gmap Z PlayRow) : DB :=
  mkDB (bgg_users d) (games d) t.

Definition set_games (d : DB) (t : gmap Z GameRow) : DB :=
  mkDB (bgg_users d) t (plays d).

Definition set_users (d : DB) (l : list UserRow) : DB :=
  mkDB l (games d) (plays d).

Definition row_of (p : PlayRecord) : PlayRow :=
  mkPlay (p_game_id p) (p_play_date p) (p_user_id p).

(** ** The engine *)

Section Engine.

Context {W : Type} `{!Remote W} {unicode : Py.Text} (cfg : Config).

(** *** [fetch_game_info] (lines 382-423) *)

Definition no_info : GameRow := mkGame None None.

Fixpoint fetch_game_info (fuel : nat) (game_id : Z) (w : W) : outcome (GameRow * W) :=
  match fuel with
  | O => OutOfFuel
  | S fuel' =>
      let '(r, w1) := requests_get (mkRequest (ThingUrl game_id) (headers cfg)) w in
      if status_code r =? 202 then
        fetch_game_info fuel' game_id (time_sleep 2 w1)
      else if negb (status_code r =? 200) then
        mret (no_info, w1)
      else
        match xml r with
        | None => Raise ParseError
        | Some root =>
            match ET.find root "item" with
            | None => mret (no_info, w1)
            | Some item =>
                let name :=
                  match ET.find item "name" with
                  | Some name_elem => ET.get name_elem "value"
                  | None => None
                  end in
                let image_url :=
                  match ET.find item "image" with
                  | Some image_elem => ET.text image_elem
                  | None => None
                  end in
                mret (mkGame name image_url, w1)
            end
        end
  end.

(** The service gives its final answer to a game look-up, one that
    [fetch_game_info] can read, within [fuel] requests. *)
Fixpoint answers_within (fuel : nat) (game_id : Z) (w : W) : bool :=
  match fuel with
  | O => false
  | S fuel' =>
      let '(r, w1) := requests_get (mkRequest (ThingUrl game_id) (headers cfg)) w in
      if status_code r =? 202 then answers_within fuel' game_id (time_sleep 2 w1)
      else negb (status_code r =? 200) || bool_decide (is_Some (xml r))
  end.

(** *** The cutoff of a scan (lines 232-235 and 361-364) *)

Definition rescan_cutoff (w : W) : outcome string :=
  d ← Datetime.sub_days (datetime_today w) RESCAN_DAYS;
  mret (Datetime.isoformat d).

Definition cutoff_date (full_scan : bool) (w : W) : outcome string :=
  if full_scan then mret (START_DATE cfg) else rescan_cutoff w.

(** *** [update_plays] (lines 302-379) *)

(** [p["location"] == GAME_LOCATION] *)
Definition location_is_target (p : PlayRecord) : bool :=
  bool_decide (Some (p_location p) = GAME_LOCATION cfg).

(** [game_id != ? OR play_date != ? OR user_id != ?] of the UPDATE *)
Definition row_differs (row : PlayRow) (p : PlayRecord) : bool :=
  negb (r_game_id row =? p_game_id p)
  || negb (String.eqb (r_play_date row) (p_play_date p))
  || negb (r_user_id row =? p_user_id p).

Definition sql_delete_play (id : Z) (s : State W) : State W :=
  mkState (set_plays (db s) (delete id (plays (db s)))) (world s)
          (log s ++ [EvDeletePlay id]).

Definition sql_insert_play (p : PlayRecord) (s : State W) : State W :=
  mkState (set_plays (db s) (<[p_id p := row_of p]> (plays (db s)))) (world s)
          (log s ++ [EvInsertPlay (p_id p) (p_game_id p)]).

Definition sql_update_play (p : PlayRecord) (s : State W) : State W :=
  match plays (db s) !! p_id p with
  | Some row =>
      if row_differs row p then
        mkState (set_plays (db s) (<[p_id p := row_of p]> (plays (db s)))) (world s)
                (log s ++ [EvUpdatePlay (p_id p)])
      else s
  | None => s
  end.

Definition sql_insert_game (game_id : Z) (info : GameRow) (w : W) (s : State W) : State W :=
  mkState (set_games (db s) (<[game_id := info]> (games (db s)))) w
          (log s ++ [EvInsertGame game_id]).

Definition log_resolve (game_id : Z) (s : State W) : State W :=
  mkState (db s) (world s) (log s ++ [EvResolve game_id]).

(** The body of the [for p in plays] loop. *)
Definition update_plays_step (fuel : nat) (p : PlayRecord) (s : State W)
  : outcome (State W) :=
  let exists_ := bool_decide (is_Some (plays (db s) !! p_id p)) in
  if exists_ && negb (location_is_target p) then
    mret (sql_delete_play (p_id p) s)
  else if negb exists_ && location_is_target p then
    let s1 := sql_insert_play p s in
    match games (db s1) !! p_game_id p with
    | None =>
        let s2 := log_resolve (p_game_id p) s1 in
        '(info, w') ← fetch_game_info fuel (p_game_id p) (world s2);
        mret (sql_insert_game (p_game_id p) info w' s2)
    | Some _ => mret s1
    end
  else
    mret (sql_update_play p s).

Fixpoint update_plays_loop (fuel : nat) (batch : list PlayRecord) (s : State W)
  : outcome (State W) :=
  match batch with
  | [] => mret s
  | p :: rest =>
      s' ← update_plays_step fuel p s;
      update_plays_loop fuel rest s'
  end.

(** [{p["id"] for p in plays}] *)
Definition bgg_ids (batch : list PlayRecord) : gset Z := list_to_set (p_id <$> batch).

(** [SELECT id FROM plays WHERE user_id=? AND play_date >= ?] *)
Definition in_window (user_id : Z) (cutoff : string) (kv : Z * PlayRow) : bool :=
  (r_user_id kv.2 =? user_id) && Py.str_ge (r_play_date kv.2) cutoff.

Definition db_ids (user_id : Z) (cutoff : string) (t : gmap Z PlayRow) : gset Z :=
  dom (filter (fun kv => in_window user_id cutoff kv = true) t).

(** [deleted_ids = db_ids - bgg_ids] *)
Definition deleted_ids (user_id : Z) (cutoff : string) (batch : list PlayRecord)
  (t : gmap Z PlayRow) : gset Z :=
  db_ids user_id cutoff t ∖ bgg_ids batch.

(** [for play_id in deleted_ids: DELETE FROM plays WHERE id=?] *)
Definition delete_all (ids : list Z) (s : State W) : State W :=
  foldl (fun s' play_id => sql_delete_play play_id s') s ids.

(** The block under [if plays:] that detects deleted plays. *)
Definition detect_deleted (batch : list PlayRecord) (full_scan : bool) (s : State W)
  : outcome (State W) :=
  match batch with
  | [] => mret s
  | p0 :: _ =>
      let user_id := p_user_id p0 in
      cutoff ← cutoff_date full_scan (world s);
      let deleted := deleted_ids user_id cutoff batch (plays (db s)) in
      mret (delete_all (elements deleted) s)
  end.

Definition update_plays (fuel : nat) (batch : list PlayRecord) (full_scan : bool)
  (s : State W) : outcome (State W) :=
  s1 ← update_plays_loop fuel batch s;
  detect_deleted batch full_scan s1.

(** *** [fetch_plays_for_user] (lines 230-299) *)

(** How the [for p in play_elems] loop ends: with [return new_plays], or
    by running off the end of the page. *)
Inductive PageResult : Type :=
| PageReturn (new_plays : list PlayRecord)
| PageDone (new_plays : list PlayRecord).

Fixpoint scan_page (user_id : Z) (cutoff : string) (play_elems : list Element)
  (new_plays : list PlayRecord) : outcome PageResult :=
  match play_elems with
  | [] => mret (PageDone new_plays)
  | p :: rest =>
      play_id ← Py.int (ET.get p "id");
      match ET.get p "date" with
      | None => Raise TypeError
      | Some play_date =>
          if Py.str_lt play_date cutoff then mret (PageReturn new_plays)
          else
            location ← Py.opt_upper (ET.get p "location");
            match ET.find p "item" with
            | None => scan_page user_id cutoff rest new_plays
            | Some item =>
                game_id ← Py.int (ET.get item "objectid");
                scan_page user_id cutoff rest
                  (new_plays ++ [mkRecord play_id game_id play_date user_id location])
            end
      end
  end.

Fixpoint fetch_loop (fuel : nat) (username : string) (user_id : Z) (cutoff : string)
  (page : Z) (new_plays : list PlayRecord) (w : W) : outcome (list PlayRecord * W) :=
  match fuel with
  | O => OutOfFuel
  | S fuel' =>
      let '(r, w1) := requests_get (mkRequest (PlaysUrl username page) (headers cfg)) w in
      if status_code r =? 202 then
        fetch_loop fuel' username user_id cutoff page new_plays (time_sleep 2 w1)
      else if negb (status_code r =? 200) then
        mret (new_plays, w1)
      else
        match xml r with
        | None => Raise ParseError
        | Some root =>
            match ET.findall root "play" with
            | [] => mret (new_plays, w1)
            | (p0 :: _) as play_elems =>
                old ← Py.opt_lt (ET.get p0 "date") (START_DATE cfg);
                if (old : bool) then mret (new_plays, w1)
                else
                  res ← scan_page user_id cutoff play_elems new_plays;
                  match res with
                  | PageReturn acc => mret (acc, w1)
                  | PageDone acc =>
                      fetch_loop fuel' username user_id cutoff (page + 1) acc w1
                  end
            end
        end
  end.

Definition fetch_plays_for_user (fuel : nat) (username : string) (user_id : Z)
  (full_scan : bool) (w : W) : outcome (list PlayRecord * W) :=
  cutoff ← cutoff_date full_scan w;
  fetch_loop fuel username user_id cutoff 1 [] w.

(** *** [cron_update] (lines 426-451) and [admin_full_scan] (lines 156-190) *)

(** [UPDATE bgg_users SET last_full_scan=? WHERE id=?] *)
Definition set_last_full_scan (today : string) (user_id : Z) (users : list UserRow)
  : list UserRow :=
  (fun u => if u_id u =? user_id
            then mkUser (u_id u) (u_username u) (u_is_active u) (Some today)
            else u) <$> users.

Definition stamp (user_id : Z) (s : State W) : State W :=
  let today := Datetime.isoformat_seconds (datetime_today (world s)) in
  mkState (set_users (db s) (set_last_full_scan today user_id (bgg_users (db s))))
          (world s) (log s).

(** [True if row["last_full_scan"] is None else False] *)
Definition next_mode (row : UserRow) : bool :=
  match u_last_full_scan row with
  | None => true
  | Some _ => false
  end.

(** The body of the [for row in users] loop. *)
Definition cron_user (fuel : nat) (row : UserRow) (s : State W) : outcome (State W) :=
  let username := u_username row in
  let user_id := u_id row in
  let full_scan := next_mode row in
  '(batch, w1) ← fetch_plays_for_user fuel username user_id full_scan (world s);
  s2 ← update_plays fuel batch full_scan (mkState (db s) w1 (log s));
  match u_last_full_scan row with
  | None => mret (stamp user_id s2)
  | Some _ => mret s2
  end.

Fixpoint cron_loop (fuel : nat) (users : list UserRow) (s : State W) : outcome (State W) :=
  match users with
  | [] => mret s
  | row :: rest =>
      s' ← cron_user fuel row s;
      cron_loop fuel rest s'
  end.

(** [SELECT username, id, last_full_scan FROM bgg_users WHERE is_active=1] *)
Definition active_users (d : DB) : list UserRow :=
  List.filter u_is_active (bgg_users d).

Definition cron_update (fuel : nat) (s : State W) : outcome (State W) :=
  cron_loop fuel (active_users (db s)) s.

(** [DELETE FROM plays WHERE user_id=?] *)
Definition sql_clear_plays (user_id : Z) (s : State W) : State W :=
  mkState (set_plays (db s)
             (filter (fun kv : Z * PlayRow => r_user_id kv.2 ≠ user_id) (plays (db s))))
          (world s) (log s ++ [EvClearPlays user_id]).

Definition admin_full_scan (fuel : nat) (username : string) (s : State W)
  : outcome (State W) :=
  match List.find (fun u => String.eqb (u_username u) username && u_is_active u)
                  (bgg_users (db s)) with
  | None => mret s
  | Some user =>
      let user_id := u_id user in
      '(batch, w1) ← fetch_plays_for_user fuel username user_id true (world s);
      let s1 := sql_clear_plays user_id (mkState (db s) w1 (log s)) in
      s2 ← update_plays fuel batch true s1;
      mret (stamp user_id s2)
  end.

End Engine.

(** ** A scripted remote service, for running the engine on concrete inputs *)

Module Sim.

(** The clock reading and the replies the service will give, in order;
    once the script is used up every request is answered 404. *)
Record script : Type := mkScript {
  now : datetime;
  replies : list Response
}.

#[global] Instance remote : Remote script := {
  requests_get _ w :=
    match replies w with
    | r :: rest => (r, mkScript (now w) rest)
    | [] => (mkResponse 404 None, w)
    end;
  time_sleep _ w := w;
  datetime_today w := now w
}.

(** The scripts below hold ASCII text only, and their numbers are plain
    decimal literals: there [str.upper] and [int] are the ASCII functions. *)
#[global, refine] Instance text : Py.Text | 100 := {|
  Py.upper := Py.upper_letters;
  Py.int_literal := Py.parse_int
|}.
Proof.
- reflexivity.
- induction s as [|c s IH]; [reflexivity|].
  cbn [Py.upper_letters Py.has_lower]. rewrite IH, orb_false_r.
  destruct c as [[] [] [] [] [] [] [] []]; reflexivity.
- reflexivity.
Defined.

Definition play_elem (id date location : string) (game : option string) : Element :=
  Elem "play" [("id", id); ("date", date); ("location", location)] None
    (match game with
     | Some g => [Elem "item" [("objectid", g)] None []]
     | None => []
     end).

(** A play element without a [location] attribute. *)
Definition play_elem_noloc (id date : string) (game : option string) : Element :=
  Elem "play" [("id", id); ("date", date)] None
    (match game with
     | Some g => [Elem "item" [("objectid", g)] None []]
     | None => []
     end).

Definition page (elems : list Element) : Response :=
  mkResponse 200 (Some (Elem "plays" [] None elems)).

Definition thing (name image : string) : Response :=
  mkResponse 200
    (Some (Elem "items" [] None
       [Elem "item" []  None
          [Elem "name" [("value", name)] None []; Elem "image" [] (Some image) []]])).

Definition cfg : Config := mkConfig (Some "token") (Some "CLUB") (Some "2020").

Definition clock : datetime := mkDatetime 2026 11 3 12 0 0 0.

Definition empty_db : DB := mkDB [] ∅ ∅.

(** A target location configured in lower case. *)
Definition cfg_lower : Config := mkConfig (Some "token") (Some "club") (Some "2020").

Definition silent : script := mkScript clock [].

Definition ann : UserRow := mkUser 1 "ann" true None.

Definition rec11 : PlayRecord := mkRecord 11 5 "2026-11-01" 1 "CLUB".
Definition rec12 : PlayRecord := mkRecord 12 5 "2026-10-30" 1 "CLUB".

Definition catan : GameRow := mkGame (Some "Catan") (Some "catan.png").

(** User 1 has a play of 6 days ago and one of 30 days ago. *)
Definition two_plays : gmap Z PlayRow :=
  {[7 := mkPlay 5 "2026-10-28" 1; 3 := mkPlay 5 "2026-10-04" 1]}.

Definition s_two : State script :=
  mkState (mkDB [] {[5 := catan]} two_plays) silent [].

(** Two records for play 1: at the target location, then elsewhere. *)
Definition moved_batch : list PlayRecord :=
  [mkRecord 1 5 "2026-11-01" 1 "CLUB"; mkRecord 1 5 "2026-11-01" 1 "HOME"].

Definition s_moved : State script :=
  mkState (mkDB [] ∅ {[1 := mkPlay 5 "2026-11-01" 1]}) silent [].

Definition page11 : Response := page [play_elem "11" "2026-11-01" "Club" (Some "5")].

(** A never scanned user with a stored play, and a service that fails. *)
Definition s_unscanned : State script :=
  mkState (mkDB [ann] ∅ {[3 := mkPlay 5 "2026-10-04" 1]})
          (mkScript clock [mkResponse 500 None]) [].

(** The same user, and a service that serves one play and its game. *)
Definition s_served : State script :=
  mkState (mkDB [ann] ∅ {[3 := mkPlay 5 "2026-10-04" 1]})
          (mkScript clock [page11; page []; thing "Catan" "catan.png"]) [].

(** A page whose second play has no location and is older than the window. *)
Definition w_old_noloc : script :=
  mkScript clock
    [page [play_elem "11" "2026-11-01" "Club" (Some "5");
           play_elem_noloc "9" "2026-10-01" (Some "5")]].

(** A page whose second play has no location, no item, and is recent. *)
Definition w_noloc : script :=
  mkScript clock
    [page [play_elem "11" "2026-11-01" "Club" (Some "5");
           play_elem_noloc "9" "2026-10-25" None]].

(** A page of 2019 after a page of 2026. *)
Definition w_2019 : script :=
  mkScript clock
    [page11; page [play_elem "2" "2019-12-31" "Club" (Some "5")]].

End Sim.

(** ** Vocabulary of the properties *)

(** The row a record leaves under its id, whatever was stored before. *)
Definition settled (cfg : Config) (p : PlayRecord) : option PlayRow :=
  if location_is_target cfg p then Some (row_of p) else None.

(** The last record of the batch that carries play id [i]. *)
Fixpoint last_for (i : Z) (batch : list PlayRecord) : option PlayRecord :=
  match batch with
  | [] => None
  | p :: rest =>
      match last_for i rest with
      | Some q => Some q
      | None => if decide (i = p_id p) then Some p else None
      end
  end.

(** Records that share a play id are the same record. *)
Definition consistent (batch : list PlayRecord) : Prop :=
  forall p q, p ∈ batch -> q ∈ batch -> p_id p = p_id q -> p = q.

(** How often the log has the event [e]. *)
Definition occurrences (e : Event) (l : list Event) : nat :=
  count_occ Event_eq_dec l e.

(** The metadata look-ups and Game inserts for game id [g] recorded so far:
    none while [g] has no Game row and no inserted play refers to it, and
    one of each once an inserted play has referred to it. *)
Definition resolved_once (g : Z) (d : DB) (l : list Event) : Prop :=
  (games d !! g = None /\ occurrences (EvResolve g) l = O /\
   occurrences (EvInsertGame g) l = O /\ forall id, EvInsertPlay id g ∉ l) \/
  (is_Some (games d !! g) /\ occurrences (EvResolve g) l = 1%nat /\
   occurrences (EvInsertGame g) l = 1%nat /\ exists id, EvInsertPlay id g ∈ l).

(** The plays a page scan hands on, however it ended. *)
Definition page_plays (r : PageResult) : list PlayRecord :=
  match r with
  | PageReturn l => l
  | PageDone l => l
  end.

(** The record [r] was built from the play element [p], whose location
    attribute is [loc], in a scan for [user_id] with cutoff [cutoff]. *)
Definition built_from `{!Py.Text} (user_id : Z) (cutoff : string) (p : Element)
  (loc : string) (r : PlayRecord) : Prop :=
  Py.int (ET.get p "id") = Ok (p_id r) /\
  ET.get p "date" = Some (p_play_date r) /\
  Py.str_ge (p_play_date r) cutoff = true /\
  ET.get p "location" = Some loc /\
  p_location r = Py.upper loc /\
  p_user_id r = user_id.


(** [later s s'] : the store of [s'] is reached from the one of [s] by
    scheduled sweeps and admin full scans that returned, each started in a
    world of its own. *)
Inductive later {W : Type} `{!Remote W} `{!Py.Text} (cfg : Config)
  : State W -> State W -> Prop :=
| later_now s : later cfg s s
| later_cron s s1 s2 fuel w :
    later cfg s s1 ->
    cron_update cfg fuel (mkState (db s1) w (log s1)) = Ok s2 ->
    later cfg s s2
| later_admin s s1 s2 fuel w username :
    later cfg s s1 ->
    admin_full_scan cfg fuel username (mkState (db s1) w (log s1)) = Ok s2 ->
    later cfg s s2.

(** [fetch_visits cfg username w0 page w]: a fetch for [username] started in
    the world [w0] asks for page [page] in the world [w], if it goes on that
    far. It starts with page 1, asks for the same page again after a reply
    202 and a sleep, and for the next page after a reply 200. *)
Inductive fetch_visits {W : Type} `{!Remote W} (cfg : Config) (username : string) (w0 : W)
  : Z -> W -> Prop :=
| visits_first : fetch_visits cfg username w0 1 w0
| visits_again page w resp w1 :
    fetch_visits cfg username w0 page w ->
    requests_get (mkRequest (PlaysUrl username page) (headers cfg)) w = (resp, w1) ->
    status_code resp = 202 ->
    fetch_visits cfg username w0 page (time_sleep 2 w1)
| visits_next page w resp w1 :
    fetch_visits cfg username w0 page w ->
    requests_get (mkRequest (PlaysUrl username page) (headers cfg)) w = (resp, w1) ->
    status_code resp = 200 ->
    fetch_visits cfg username w0 (page + 1) w1.

(** [p] is a play element that the service serves to a fetch started in
    [w]: an element of the reply with status 200 to one of the requests of
    the fetch. *)
Definition served {W : Type} `{!Remote W} (cfg : Config) (username : string) (w : W)
  (p : Element) : Prop :=
  exists page w1 resp w2 root,
    fetch_visits cfg username w page w1 /\
    requests_get (mkRequest (PlaysUrl username page) (headers cfg)) w1 = (resp, w2) /\
    status_code resp = 200 /\
    xml resp = Some root /\
    p ∈ ET.findall root "play".

(** An integer that SQLite can bind to a statement: a signed 64-bit value.
    [db.execute] raises [OverflowError] on any other. *)
Definition sqlite_int (z : Z) : bool := (- 2 ^ 63 <=? z) && (z <? 2 ^ 63).

(** ** The admin endpoints *)

(** What a view function hands back to Flask. *)
Inductive Reply : Type :=
| Abort (code : Z)                       (* abort(code) *)
| RedirectTo (endpoint : string)         (* redirect(url_for(endpoint)) *)
| Render (template : string) (error : option string)
| ReplyEmpty                             (* return [] *)
| ReplyStatus (status : string)          (* jsonify({"status": status}) *)
| ReplyFullScan (user : string)          (* {"status": "full scan complete", "user": user} *)
| ReplyFixed (fixed : Z)                 (* {"status": "ok", "fixed": fixed} *)
| ReplyCron (details : string).          (* {"status": "cron executed", "details": {"status": details}} *)

(** The Flask session: a dict, of which the application uses one key. *)
Abbreviation Session := (gmap string bool).

(** [session.get("is_admin")], as a condition *)
Definition is_admin (session : Session) : bool :=
  default false (session !! "is_admin").

(** [admin_login] (lines 80-89); [password] is [request.form.get("password")].
    The session can be written: [app.secret_key] is set. *)
Definition admin_login (ADMIN_PASSWORD : option string) (method : string)
  (password : option string) (session : Session) : Reply * Session :=
  if String.eqb method "POST" then
    if bool_decide (password = ADMIN_PASSWORD) then
      (RedirectTo "admin_dashboard", <["is_admin" := true]> session)
    else (Render "admin_login.html" (Some "Invalid password"), session)
  else (Render "admin_login.html" None, session).

(** [admin_logout] (lines 92-95) *)
Definition admin_logout (session : Session) : Reply * Session :=
  (RedirectTo "admin_login", ∅).

(** [not x] is false for a string that is present and not empty. *)
Definition truthy (x : option string) : bool :=
  match x with
  | Some (String _ _) => true
  | _ => false
  end.

(** [UPDATE bgg_users SET is_active=? WHERE username=?] *)
Definition set_active_by_name (active : bool) (username : string) (users : list UserRow)
  : list UserRow :=
  (fun u => if String.eqb (u_username u) username
            then mkUser (u_id u) (u_username u) active (u_last_full_scan u)
            else u) <$> users.

(** [UPDATE bgg_users SET is_active=? WHERE id=?] *)
Definition set_active_by_id (active : bool) (user_id : Z) (users : list UserRow)
  : list UserRow :=
  (fun u => if u_id u =? user_id
            then mkUser (u_id u) (u_username u) active (u_last_full_scan u)
            else u) <$> users.

(** [add_user] (lines 110-139). [username] is [data.get("username")] of the
    JSON body; [new_id] is the id the database gives to an inserted row. *)
Definition add_user (new_id : Z) (username : option string) (d : DB) : Reply * DB :=
  match username with
  | Some (String c rest as name) =>
      match List.find (fun u => String.eqb (u_username u) name) (bgg_users d) with
      | Some _ =>
          (ReplyStatus "reactivated",
           set_users d (set_active_by_name true name (bgg_users d)))
      | None =>
          (ReplyStatus "created",
           set_users d (bgg_users d ++ [mkUser new_id name true None]))
      end
  | _ => (Abort 400, d)
  end.

(** [delete_user] (lines 144-151), for a [user_id] that SQLite can bind: the
    UPDATE and the reply. The binding itself is in [api_delete_user]. *)
Definition delete_user (user_id : Z) (d : DB) : Reply * DB :=
  (ReplyStatus "deactivated",
   set_users d (set_active_by_id false user_id (bgg_users d))).

Section Endpoints.

Context {W : Type} `{!Remote W} {unicode : Py.Text} (cfg : Config).

Definition Endpoint : Type := State W -> outcome (Reply * State W).

(** [require_admin] (lines 50-56): the wrapper around a view function. *)
Definition require_admin (session : Session) (func : Endpoint) : Endpoint :=
  fun s => if is_admin session then func s else mret (Abort 401, s).

(** A view function that works on the database alone. *)
Definition on_db (f : DB -> Reply * DB) : Endpoint :=
  fun s => let '(r, d) := f (db s) in mret (r, mkState d (world s) (log s)).

(** [POST /api/admin/users] and [DELETE /api/admin/users/<user_id>] *)
Definition api_add_user (session : Session) (new_id : Z) (username : option string)
  : Endpoint :=
  require_admin session (on_db (add_user new_id username)).

Definition api_delete_user (session : Session) (user_id : Z) : Endpoint :=
  require_admin session (fun s =>
    if sqlite_int user_id then on_db (delete_user user_id) s
    else Raise OverflowError).

(** [POST /api/admin/fullscan/<username>]: [admin_full_scan] with its
    wrapper and its return value (lines 154-190). *)
Definition full_scan_reply (username : string) (d : DB) : Reply :=
  match List.find (fun u => String.eqb (u_username u) username && u_is_active u)
                  (bgg_users d) with
  | None => ReplyEmpty
  | Some _ => ReplyFullScan username
  end.

Definition api_full_scan (session : Session) (fuel : nat) (username : string)
  : Endpoint :=
  require_admin session (fun s =>
    s' ← admin_full_scan cfg fuel username s;
    mret (full_scan_reply username (db s), s')).

(** The dict [cron_update] returns (lines 432-433 and 451). *)
Definition cron_status (d : DB) : string :=
  match active_users d with
  | [] => "No active users"
  | _ :: _ => "ok"
  end.

(** [api_run_cron] (lines 220-226) *)
Definition api_run_cron (session : Session) (fuel : nat) : Endpoint :=
  require_admin session (fun s =>
    s' ← cron_update cfg fuel s;
    mret (ReplyCron (cron_status (db s)), s')).

(** *** [api_fix_missing_images] (lines 193-217) *)

(** [image_url IS NULL OR image_url = ''] *)
Definition missing_image (g : GameRow) : bool :=
  match g_image_url g with
  | None => true
  | Some u => String.eqb u ""
  end.

(** [SELECT id FROM games WHERE image_url IS NULL OR image_url = ''], in
    the order of the primary key. *)
Definition games_missing_image (d : DB) : list Z :=
  merge_sort Z.le
    (elements (dom (filter (fun kv : Z * GameRow => missing_image kv.2 = true) (games d)))).

(** [UPDATE games SET image_url=? WHERE id=?] *)
Definition sql_update_image (game_id : Z) (image_url : option string)
  (t : gmap Z GameRow) : gmap Z GameRow :=
  alter (fun g => mkGame (g_name g) image_url) game_id t.

(** The [for row in rows] loop; each call of [fetch_game_info] is logged,
    the image update is not. *)
Fixpoint fix_images_loop (fuel : nat) (ids : list Z) (fixed : Z) (s : State W)
  : outcome (Z * State W) :=
  match ids with
  | [] => mret (fixed, s)
  | game_id :: rest =>
      let s1 := log_resolve game_id s in
      '(info, w') ← fetch_game_info cfg fuel game_id (world s1);
      if truthy (g_image_url info) then
        fix_images_loop fuel rest (fixed + 1)
          (mkState (set_games (db s1)
                      (sql_update_image game_id (g_image_url info) (games (db s1))))
                   w' (log s1))
      else
        fix_images_loop fuel rest fixed (mkState (db s1) w' (log s1))
  end.

Definition fix_missing_images (fuel : nat) (s : State W) : outcome (Z * State W) :=
  fix_images_loop fuel (games_missing_image (db s)) 0 s.

Definition api_fix_missing_images (session : Session) (fuel : nat) : Endpoint :=
  require_admin session (fun s =>
    '(fixed, s') ← fix_missing_images fuel s;
    mret (ReplyFixed fixed, s')).

End Endpoints.

(** The ids of the games without an image, as a set. *)
Definition missing_ids (t : gmap Z GameRow) : gset Z :=
  dom (filter (fun kv : Z * GameRow => missing_image kv.2 = true) t).

(** What a sweep or a full scan leaves of a user row: all but the
    watermark. *)
Definition identity_of (u : UserRow) : Z * string * bool :=
  (u_id u, u_username u, u_is_active u).

(** ** The statistics query: [stats] (lines 462-510) *)

(** A row of the JSON list that [stats] returns. *)
Record StatsRow : Type := mkStatsRow {
  st_index : nat;
  st_game_id : Z;
  st_game_name : option string;
  st_image_url : option string;
  st_plays : nat
}.

(** SQLite's [substr(X, 1, n)] *)
Definition substr_1 (n : nat) (s : string) : string := String.substring 0 n s.

(** [s.zfill(2)]: zeros go after a leading sign. *)
Definition zfill2 (s : string) : string :=
  match s with
  | EmptyString => "00"
  | String c EmptyString =>
      if Ascii.eqb c "+" || Ascii.eqb c "-" then String c "0" else String "0" s
  | _ => s
  end.

(** The WHERE clause built from the request arguments; [period] is
    [request.args.get("period", "overall")], the others may be absent. *)
Definition where_clause (period : string) (year month date : option string)
  : PlayRow -> bool :=
  if String.eqb period "year" && truthy year then
    fun r => String.eqb (substr_1 4 (r_play_date r)) (default "" year)
  else if String.eqb period "month" && truthy year && truthy month then
    fun r => String.eqb (substr_1 7 (r_play_date r))
               (default "" year +:+ "-" +:+ zfill2 (default "" month))
  else if String.eqb period "date" && truthy date then
    fun r => String.eqb (r_play_date r) (default "" date)
  else
    fun _ => true.

(** [COUNT( * )] of the group of game [g]: the plays of [g] that pass the
    WHERE clause. *)
Definition play_count (cond : PlayRow -> bool) (t : gmap Z PlayRow) (g : Z) : nat :=
  length (List.filter (fun kv : Z * PlayRow => (r_game_id kv.2 =? g) && cond kv.2)
            (map_to_list t)).

(** The groups of [plays JOIN games ON plays.game_id = games.id]: one for
    each game that has a Game row and at least one play. *)
Definition stats_groups (cond : PlayRow -> bool) (d : DB) : list (Z * GameRow * nat) :=
  List.filter (fun x : Z * GameRow * nat => negb (Nat.eqb x.2 0))
    ((fun kv : Z * GameRow => (kv.1, kv.2, play_count cond (plays d) kv.1))
       <$> map_to_list (games d)).

(** [ORDER BY plays DESC]; the order among equal counts, which SQLite
    leaves open, is the one of a stable sort of the groups. *)
Definition more_plays (a b : Z * GameRow * nat) : Prop := (b.2 <= a.2)%nat.

#[global] Instance more_plays_dec (a b : Z * GameRow * nat) : Decision (more_plays a b).
Proof. unfold more_plays. apply _. Defined.

(** [enumerate(rows, start=1)] and the dict built from each row *)
Definition numbered (rows : list (Z * GameRow * nat)) : list StatsRow :=
  imap (fun i x => mkStatsRow (S i) x.1.1 (g_name x.1.2) (g_image_url x.1.2) x.2) rows.

Definition stats (period : string) (year month date : option string) (d : DB)
  : list StatsRow :=
  numbered (merge_sort more_plays (stats_groups (where_clause period year month date) d)).

(** The plays that the statistics count: those that pass the WHERE clause
    and whose game has a Game row. *)
Definition counted_plays (cond : PlayRow -> bool) (d : DB) : list (Z * PlayRow) :=
  List.filter (fun kv : Z * PlayRow =>
                 cond kv.2 && bool_decide (is_Some (games d !! r_game_id kv.2)))
    (map_to_list (plays d)).

(** ** A club with three users, for the concrete runs *)

Module Cases.

(** A scanned active user, and a deactivated one. *)
Definition bob : UserRow := mkUser 2 "bob" true (Some "2026-10-01T00:00:00").
Definition cy : UserRow := mkUser 3 "cy" false (Some "2026-09-01T08:00:00").

(** A game without image, and one whose image is the empty string. *)
Definition azul : GameRow := mkGame (Some "Azul") None.
Definition unnamed : GameRow := mkGame None (Some "").

(** Play 23 refers to game 9, which has no Game row. *)
Definition club : DB :=
  mkDB [Sim.ann; bob; cy]
       {[5 := Sim.catan; 6 := azul; 8 := unnamed]}
       {[3 := mkPlay 5 "2026-10-04" 1; 21 := mkPlay 5 "2026-10-30" 2;
         22 := mkPlay 6 "2026-10-30" 2; 23 := mkPlay 9 "2026-10-30" 2]}.

Definition s_club (replies : list Response) : State Sim.script :=
  mkState club (Sim.mkScript Sim.clock replies) [].

(** A play of user 1 recorded at another place than the club. *)
Definition home12 : PlayRecord := mkRecord 12 5 "2026-10-30" 1 "HOME".

(** The row of user 1 after a scan that ended at the clock reading. *)
Definition ann_stamped : UserRow := mkUser 1 "ann" true (Some "2026-11-03T12:00:00").

Definition admin : Session := {["is_admin" := true]}.

End Cases.

(** * Properties *)

(** ** The [outcome] monad *)

Lemma bind_Ok {A B : Type} (m : outcome A) (k : A -> outcome B) (b : B) :
  (m ≫= k) = Ok b <-> exists a, m = Ok a /\ k a = Ok b.
Proof.
  destruct m as [a| |]; simpl; split.
  - intros Hk. exists a. auto.
  - intros (a' & Ha & Hk). congruence.
  - discriminate.
  - intros (a' & Ha & _). discriminate.
  - discriminate.
  - intros (a' & Ha & _). discriminate.
Qed.

Ltac inv_bind H :=
  let a := fresh "a" in
  let Ha := fresh "Ha" in
  apply bind_Ok in H; destruct H as (a & Ha & H).

(** ** Strings: the lexicographic order *)

Module StrOrder.

Lemma ascii_compare_refl (c : ascii) : Ascii.compare c c = Eq.
Proof. unfold Ascii.compare. apply N.compare_refl. Qed.

Lemma ascii_compare_eq (a b : ascii) : Ascii.compare a b = Eq -> a = b.
Proof. apply Ascii.compare_eq_iff. Qed.

Lemma compare_refl (s : string) : String.compare s s = Eq.
Proof.
  induction s as [|c s IH]; simpl; [reflexivity|].
  by rewrite ascii_compare_refl.
Qed.

Lemma compare_lt_trans (a b c : string) :
  String.compare a b = Lt -> String.compare b c = Lt -> String.compare a c = Lt.
Proof.
  revert b c. induction a as [|x a IH]; intros [|y b] [|z c]; simpl; try done.
  unfold Ascii.compare.
  destruct (N.compare_spec (N_of_ascii x) (N_of_ascii y)) as [Hxy|Hxy|Hxy]; try done;
  destruct (N.compare_spec (N_of_ascii y) (N_of_ascii z)) as [Hyz|Hyz|Hyz]; try done;
  intros H1 H2.
  - rewrite Hxy, Hyz, N.compare_refl. eauto.
  - rewrite Hxy. by apply N.compare_lt_iff in Hyz as ->.
  - rewrite <- Hyz. by apply N.compare_lt_iff in Hxy as ->.
  - assert (N_of_ascii x < N_of_ascii z)%N as Hxz by lia.
    by apply N.compare_lt_iff in Hxz as ->.
Qed.

Lemma compare_eq (a b : string) : String.compare a b = Eq -> a = b.
Proof. apply String.compare_eq_iff. Qed.

Lemma ltb_lt (a b : string) : String.ltb a b = true <-> String.compare a b = Lt.
Proof. unfold String.ltb. destruct (String.compare a b); split; congruence. Qed.

(** [a >= b] and [b >= c] give [a >= c]. *)
Lemma str_ge_trans (a b c : string) :
  Py.str_ge a b = true -> Py.str_ge b c = true -> Py.str_ge a c = true.
Proof.
  unfold Py.str_ge. rewrite !negb_true_iff. intros Hab Hbc.
  destruct (String.ltb a c) eqn:Hac; [|reflexivity].
  apply ltb_lt in Hac.
  destruct (String.compare c b) eqn:Hcb.
  - apply compare_eq in Hcb as ->. apply ltb_lt in Hac. congruence.
  - pose proof (compare_lt_trans _ _ _ Hac Hcb) as Hlt.
    apply ltb_lt in Hlt. congruence.
  - rewrite String.compare_antisym in Hcb.
    destruct (String.compare b c) eqn:Hbc'; simpl in Hcb; try discriminate.
    apply ltb_lt in Hbc'. congruence.
Qed.

Lemma str_ge_refl (a : string) : Py.str_ge a a = true.
Proof. unfold Py.str_ge, String.ltb. by rewrite compare_refl. Qed.

Lemma str_lt_not_ge (a b : string) : Py.str_lt a b = true -> Py.str_ge a b = false.
Proof. unfold Py.str_lt, Py.str_ge. by intros ->. Qed.

(** A string smaller than [b] is smaller than every extension of [b]. *)
Lemma compare_lt_app (a b t : string) :
  String.compare a b = Lt -> String.compare a (b +:+ t) = Lt.
Proof.
  revert b. induction a as [|x a IH]; intros [|y b]; simpl; try done.
  destruct (Ascii.compare x y); try done. apply IH.
Qed.

End StrOrder.

(** ** Dates: ISO strings sort like the dates they print *)

Module DateOrder.

Import Datetime.

Lemma digit_code (n : Z) : N_of_ascii (Py.digit n) = (48 + Z.to_N (n mod 10))%N.
Proof.
  unfold Py.digit. apply N_ascii_embedding.
  assert (0 <= n mod 10 < 10) by (apply Z.mod_pos_bound; lia). lia.
Qed.

Lemma digit_lt (a b : Z) :
  a mod 10 < b mod 10 -> Ascii.compare (Py.digit a) (Py.digit b) = Lt.
Proof.
  intros H. unfold Ascii.compare. rewrite !digit_code. apply N.compare_lt_iff.
  assert (0 <= a mod 10 < 10) by (apply Z.mod_pos_bound; lia).
  assert (0 <= b mod 10 < 10) by (apply Z.mod_pos_bound; lia). lia.
Qed.

Lemma zfill_same (w : nat) (n : Z) (r1 r2 : string) :
  String.compare (Py.zfill w n r1) (Py.zfill w n r2) = String.compare r1 r2.
Proof.
  revert n r1 r2. induction w as [|w IH]; intros n r1 r2; simpl; [done|].
  rewrite IH. simpl. by rewrite StrOrder.ascii_compare_refl.
Qed.

Lemma zfill_lt (w : nat) (a b : Z) (r1 r2 : string) :
  0 <= a -> a < b -> b < 10 ^ Z.of_nat w ->
  String.compare (Py.zfill w a r1) (Py.zfill w b r2) = Lt.
Proof.
  revert a b r1 r2. induction w as [|w IH]; intros a b r1 r2 Ha Hab Hb.
  - simpl in Hb. lia.
  - rewrite Nat2Z.inj_succ, Z.pow_succ_r in Hb by lia. simpl.
    destruct (Z.eq_dec (a / 10) (b / 10)) as [Heq|Hne].
    + rewrite Heq, zfill_same. simpl. rewrite digit_lt; [done|].
      Z.div_mod_to_equations. lia.
    + apply IH; Z.div_mod_to_equations; lia.
Qed.

Lemma zfill_length (w : nat) (n : Z) (r : string) :
  String.length (Py.zfill w n r) = (w + String.length r)%nat.
Proof.
  revert n r. induction w as [|w IH]; intros n r; simpl; [done|].
  rewrite IH. simpl. lia.
Qed.

Lemma compare_cons (c : ascii) (r1 r2 : string) :
  String.compare (String c r1) (String c r2) = String.compare r1 r2.
Proof. simpl. by rewrite StrOrder.ascii_compare_refl. Qed.

Lemma valid_valid_date (d : datetime) : valid d -> valid_date d.
Proof. unfold valid, valid_date. tauto. Qed.

Lemma days_in_month_bounds (y m : Z) : 28 <= days_in_month y m <= 31.
Proof. unfold days_in_month. repeat case_match; lia. Qed.

Lemma date_lt_trans (a b c : datetime) : date_lt a b -> date_lt b c -> date_lt a c.
Proof. unfold date_lt. lia. Qed.

Lemma date_string_lt (d1 d2 : datetime) :
  valid_date d1 -> valid_date d2 -> date_lt d1 d2 ->
  String.compare (date_string d1) (date_string d2) = Lt.
Proof.
  intros (Hy1 & Hm1 & Hd1) (Hy2 & Hm2 & Hd2) Hlt. unfold date_string.
  pose proof (days_in_month_bounds (year d1) (month d1)).
  pose proof (days_in_month_bounds (year d2) (month d2)).
  destruct Hlt as [Hy|[Hy [Hm|[Hm Hd]]]].
  - apply zfill_lt; simpl; lia.
  - rewrite Hy, zfill_same, compare_cons. apply zfill_lt; simpl; lia.
  - rewrite Hy, zfill_same, compare_cons, Hm, zfill_same, compare_cons.
    apply zfill_lt; simpl; lia.
Qed.

Lemma date_string_length (d : datetime) : String.length (date_string d) = 10%nat.
Proof.
  unfold date_string. repeat (rewrite zfill_length; cbn [String.length]). lia.
Qed.

Lemma prev_day_spec (d d' : datetime) :
  valid_date d -> prev_day d = Some d' -> valid_date d' /\ date_lt d' d.
Proof.
  unfold prev_day, valid_date, date_lt, with_date.
  intros (Hy & Hm & Hd) H.
  destruct (1 <? day d) eqn:E1; [|destruct (1 <? month d) eqn:E2;
    [|destruct (1 <? year d) eqn:E3; [|done]]];
    injection H as <-; simpl;
    rewrite ?Z.ltb_lt, ?Z.ltb_ge in *.
  - lia.
  - pose proof (days_in_month_bounds (year d) (month d - 1)). lia.
  - unfold days_in_month. simpl. lia.
Qed.

Lemma minus_days_spec (n : nat) (d d' : datetime) :
  valid_date d -> minus_days n d = Some d' ->
  valid_date d' /\ (n <> O -> date_lt d' d).
Proof.
  revert d. induction n as [|n IH]; intros d Hv H; simpl in H.
  - injection H as <-. done.
  - destruct (prev_day d) as [d1|] eqn:Hp; [|done].
    destruct (prev_day_spec _ _ Hv Hp) as [Hv1 Hlt1].
    destruct (IH _ Hv1 H) as [Hv' Hlt']. split; [done|]. intros _.
    destruct n as [|n]; [simpl in H; by injection H as <-|].
    eapply date_lt_trans; [apply Hlt'|]; done.
Qed.

Lemma minus_days_add (a b : nat) (d : datetime) :
  minus_days (a + b) d = minus_days a d ≫= minus_days b.
Proof.
  revert d. induction a as [|a IH]; intros d; simpl; [done|].
  destruct (prev_day d); [apply IH|done].
Qed.

(** A date [n] days back is strictly before a date [m < n] days back. *)
Lemma minus_days_mono (m n : nat) (now dm dn : datetime) :
  valid_date now -> (m < n)%nat ->
  minus_days m now = Some dm -> minus_days n now = Some dn ->
  valid_date dm /\ valid_date dn /\ date_lt dn dm.
Proof.
  intros Hv Hmn Hm Hn.
  replace n with (m + (n - m))%nat in Hn by lia.
  rewrite minus_days_add, Hm in Hn. simpl in Hn.
  destruct (minus_days_spec _ _ _ Hv Hm) as [Hvm _].
  destruct (minus_days_spec _ _ _ Hvm Hn) as [Hvn Hlt].
  split; [done|]. split; [done|]. apply Hlt. lia.
Qed.

Lemma isoformat_app (d : datetime) : exists t, isoformat d = date_string d +:+ t.
Proof. unfold isoformat. eauto. Qed.

(** The date of [n > 14] days ago is older than the re-scan cutoff. *)
Lemma older_than_cutoff (n : nat) (now d14 dn : datetime) :
  valid_date now -> (14 < n)%nat ->
  minus_days 14 now = Some d14 -> minus_days n now = Some dn ->
  Py.str_lt (date_string dn) (isoformat d14) = true.
Proof.
  intros Hv Hn H14 Hdn.
  destruct (minus_days_mono 14 n now d14 dn Hv Hn H14 Hdn) as (Hv14 & Hvn & Hlt).
  destruct (isoformat_app d14) as [t ->].
  apply StrOrder.ltb_lt, StrOrder.compare_lt_app. by apply date_string_lt.
Qed.

Lemma compare_lt_app_l (a b t : string) :
  String.length a = String.length b ->
  String.compare a b = Lt -> String.compare (a +:+ t) b = Lt.
Proof.
  revert b. induction a as [|x a IH]; intros [|y b]; simpl; try done.
  intros [= Hlen]. destruct (Ascii.compare x y); try done. by apply IH.
Qed.

(** The date of [n < 14] days ago is inside the re-scan window. *)
Lemma inside_cutoff (n : nat) (now d14 dn : datetime) :
  valid_date now -> (n < 14)%nat ->
  minus_days 14 now = Some d14 -> minus_days n now = Some dn ->
  Py.str_ge (date_string dn) (isoformat d14) = true.
Proof.
  intros Hv Hn H14 Hdn.
  destruct (minus_days_mono n 14 now dn d14 Hv Hn Hdn H14) as (Hvn & Hv14 & Hlt).
  destruct (isoformat_app d14) as [t ->].
  unfold Py.str_ge, String.ltb. rewrite String.compare_antisym.
  rewrite (compare_lt_app_l (date_string d14) (date_string dn) t).
  - done.
  - by rewrite !date_string_length.
  - by apply date_string_lt.
Qed.

End DateOrder.

(** ** The reconciler: what one record and one pass do to the store *)

Section Reconciler.

Context {W : Type} `{!Remote W} {unicode : Py.Text} (cfg : Config).

Implicit Types (s : State W) (p : PlayRecord) (batch : list PlayRecord).

Lemma row_differs_false (row : PlayRow) p :
  row_differs row p = false <-> row = row_of p.
Proof.
  unfold row_differs, row_of. destruct row as [g d u]; simpl.
  rewrite !orb_false_iff, !negb_false_iff, !Z.eqb_eq, String.eqb_eq.
  split.
  - intros [[-> ->] ->]. reflexivity.
  - intros [= -> -> ->]. auto.
Qed.

Lemma sql_update_play_lookup p s (i : Z) :
  plays (db (sql_update_play p s)) !! i =
  if decide (i = p_id p) then (fun _ => row_of p) <$> plays (db s) !! i else plays (db s) !! i.
Proof.
  unfold sql_update_play.
  destruct (plays (db s) !! p_id p) as [row|] eqn:Hrow.
  - destruct (row_differs row p) eqn:Hd; simpl.
    + rewrite lookup_insert. case_decide; subst.
      * rewrite decide_True by done. by rewrite Hrow.
      * by rewrite decide_False by done.
    + apply row_differs_false in Hd. subst row.
      case_decide; subst; [by rewrite Hrow|done].
  - case_decide; subst; [by rewrite Hrow|done].
Qed.

(** The three branches of the loop body. *)
Lemma step_cases fuel p s s' :
  update_plays_step cfg fuel p s = Ok s' ->
  (is_Some (plays (db s) !! p_id p) /\ location_is_target cfg p = false /\
   s' = sql_delete_play (p_id p) s) \/
  (plays (db s) !! p_id p = None /\ location_is_target cfg p = true /\
   is_Some (games (db s) !! p_game_id p) /\ s' = sql_insert_play p s) \/
  (plays (db s) !! p_id p = None /\ location_is_target cfg p = true /\
   games (db s) !! p_game_id p = None /\
   exists info w', fetch_game_info cfg fuel (p_game_id p) (world s) = Ok (info, w') /\
                   s' = sql_insert_game (p_game_id p) info w'
                          (log_resolve (p_game_id p) (sql_insert_play p s))) \/
  ((is_Some (plays (db s) !! p_id p) <-> location_is_target cfg p = true) /\
   s' = sql_update_play p s).
Proof.
  unfold update_plays_step. intros H.
  destruct (plays (db s) !! p_id p) as [row|] eqn:Hrow;
    destruct (location_is_target cfg p) eqn:Hloc; simpl in H.
  - injection H as <-. do 3 right. split; [|done]. split; eauto.
  - injection H as <-. left. eauto.
  - destruct (games (db s) !! p_game_id p) as [g|] eqn:Hg; simpl in H.
    + injection H as <-. right; left. eauto.
    + inv_bind H. destruct a as [info w']. injection H as <-.
      right; right; left. repeat split; try done. exists info, w'. split; done.
  - injection H as <-. do 3 right. split; [|done].
    split; [intros [? ?]|]; done.
Qed.

Lemma step_plays_lookup fuel p s s' (i : Z) :
  update_plays_step cfg fuel p s = Ok s' ->
  plays (db s') !! i =
  if decide (i = p_id p) then settled cfg p else plays (db s) !! i.
Proof.
  unfold settled. intros H.
  apply step_cases in H
    as [(Hex & Hloc & ->)|[(Hno & Hloc & _ & ->)|
        [(Hno & Hloc & _ & info & w' & _ & ->)|([Hex1 Hex2] & ->)]]];
    try rewrite Hloc; simpl.
  - rewrite lookup_delete. case_decide; subst.
    + by rewrite decide_True.
    + by rewrite decide_False.
  - rewrite lookup_insert. case_decide; subst.
    + by rewrite decide_True.
    + by rewrite decide_False.
  - rewrite lookup_insert. case_decide; subst.
    + by rewrite decide_True.
    + by rewrite decide_False.
  - rewrite sql_update_play_lookup. case_decide; [subst|done].
    destruct (location_is_target cfg p) eqn:Hloc.
    + destruct Hex2 as [row ->]; done.
    + destruct (plays (db s) !! p_id p) eqn:Hrow; [|done].
      assert (false = true) by eauto. discriminate.
Qed.

Lemma sql_update_play_users p s :
  bgg_users (db (sql_update_play p s)) = bgg_users (db s).
Proof. unfold sql_update_play. repeat case_match; done. Qed.

Lemma sql_update_play_games p s :
  games (db (sql_update_play p s)) = games (db s).
Proof. unfold sql_update_play. repeat case_match; done. Qed.

Lemma sql_update_play_world p s : world (sql_update_play p s) = world s.
Proof. unfold sql_update_play. repeat case_match; done. Qed.

Lemma step_users fuel p s s' :
  update_plays_step cfg fuel p s = Ok s' -> bgg_users (db s') = bgg_users (db s).
Proof.
  intros H.
  apply step_cases in H
    as [(_ & _ & ->)|[(_ & _ & _ & ->)|[(_ & _ & _ & info & w' & _ & ->)|(_ & ->)]]];
    try done.
  apply sql_update_play_users.
Qed.

Lemma elem_of_bgg_ids_cons (i : Z) p batch :
  i ∈ bgg_ids (p :: batch) <-> i = p_id p \/ i ∈ bgg_ids batch.
Proof.
  unfold bgg_ids. rewrite fmap_cons, list_to_set_cons, elem_of_union, elem_of_singleton.
  done.
Qed.

Lemma last_for_None (i : Z) batch : last_for i batch = None <-> i ∉ bgg_ids batch.
Proof.
  induction batch as [|p rest IH]; simpl.
  - split; [intros _|done]. unfold bgg_ids. simpl. apply not_elem_of_empty.
  - rewrite elem_of_bgg_ids_cons. destruct (last_for i rest) as [q|].
    + split; [done|]. intros Hi. apply IH. tauto.
    + destruct IH as [IH _]. specialize (IH eq_refl).
      case_decide; split; try done; tauto.
Qed.

Lemma last_for_id (i : Z) batch q : last_for i batch = Some q -> p_id q = i /\ q ∈ batch.
Proof.
  induction batch as [|p rest IH]; simpl; [done|].
  destruct (last_for i rest) as [q'|].
  - intros [= ->]. destruct IH as [? ?]; [done|]. split; [done|].
    apply elem_of_cons. by right.
  - case_decide; [|done]. intros [= ->]. split; [done|].
    apply elem_of_cons. by left.
Qed.

(** After the per-record loop, an id of the batch holds what its last
    record settles, and every other id is as before. *)
Lemma loop_plays_lookup fuel batch s s' (i : Z) :
  update_plays_loop cfg fuel batch s = Ok s' ->
  plays (db s') !! i =
  match last_for i batch with
  | Some q => settled cfg q
  | None => plays (db s) !! i
  end.
Proof.
  revert s. induction batch as [|p rest IH]; simpl; intros s H.
  - by injection H as <-.
  - inv_bind H. rewrite (IH _ H).
    destruct (last_for i rest); [done|].
    rewrite (step_plays_lookup _ _ _ _ i Ha). by case_decide.
Qed.

Lemma loop_frame fuel batch s s' (i : Z) :
  update_plays_loop cfg fuel batch s = Ok s' ->
  i ∉ bgg_ids batch -> plays (db s') !! i = plays (db s) !! i.
Proof.
  intros H Hi. rewrite (loop_plays_lookup _ _ _ _ i H).
  apply last_for_None in Hi. by rewrite Hi.
Qed.

Lemma loop_users fuel batch s s' :
  update_plays_loop cfg fuel batch s = Ok s' -> bgg_users (db s') = bgg_users (db s).
Proof.
  revert s. induction batch as [|p rest IH]; simpl; intros s H.
  - by injection H as <-.
  - inv_bind H. rewrite (IH _ H). eapply step_users; eauto.
Qed.


(** *** The deletion detection after the loop *)

Lemma elem_of_db_ids (user_id : Z) (cutoff : string) (t : gmap Z PlayRow) (i : Z) :
  i ∈ db_ids user_id cutoff t <->
  exists row, t !! i = Some row /\ r_user_id row = user_id /\
              Py.str_ge (r_play_date row) cutoff = true.
Proof.
  unfold db_ids, in_window. rewrite elem_of_dom. unfold is_Some.
  setoid_rewrite map_lookup_filter_Some. simpl.
  setoid_rewrite andb_true_iff. setoid_rewrite Z.eqb_eq. naive_solver.
Qed.

Lemma delete_all_plays ids s (i : Z) :
  plays (db (delete_all ids s)) !! i =
  if decide (i ∈ ids) then None else plays (db s) !! i.
Proof.
  unfold delete_all. revert s. induction ids as [|j ids IH]; intros s; cbn [foldl].
  - by rewrite decide_False by apply not_elem_of_nil.
  - rewrite IH.
    assert (plays (db (sql_delete_play j s)) !! i =
            if decide (i = j) then None else plays (db s) !! i) as ->.
    { simpl. rewrite lookup_delete.
      destruct (decide (j = i)), (decide (i = j)); congruence. }
    destruct (decide (i ∈ ids)) as [Hin|Hin], (decide (i ∈ j :: ids)) as [Hin'|Hin'],
      (decide (i = j)) as [Heq|Heq]; try done.
    + exfalso. apply Hin'. apply elem_of_cons. by right.
    + exfalso. apply Hin'. apply elem_of_cons. by right.
    + apply elem_of_cons in Hin' as [?|?]; done.
    + exfalso. apply Hin'. apply elem_of_cons. by left.
Qed.

Lemma delete_all_rest ids s :
  games (db (delete_all ids s)) = games (db s) /\
  bgg_users (db (delete_all ids s)) = bgg_users (db s) /\
  world (delete_all ids s) = world s /\
  log (delete_all ids s) = log s ++ (EvDeletePlay <$> ids).
Proof.
  unfold delete_all. revert s. induction ids as [|j ids IH]; intros s; simpl.
  - by rewrite app_nil_r.
  - destruct (IH (sql_delete_play j s)) as (-> & -> & -> & ->). simpl.
    by rewrite <- app_assoc.
Qed.

Lemma detect_deleted_cons p0 rest full_scan s s' :
  detect_deleted cfg (p0 :: rest) full_scan s = Ok s' <->
  exists cutoff, cutoff_date cfg full_scan (world s) = Ok cutoff /\
    s' = delete_all
           (elements (deleted_ids (p_user_id p0) cutoff (p0 :: rest) (plays (db s)))) s.
Proof.
  unfold detect_deleted. rewrite bind_Ok.
  split; intros (c & Hc & Hs); exists c; split; try done.
  - by injection Hs as <-.
  - by subst.
Qed.

Lemma detect_deleted_plays p0 rest full_scan s s' cutoff (i : Z) :
  detect_deleted cfg (p0 :: rest) full_scan s = Ok s' ->
  cutoff_date cfg full_scan (world s) = Ok cutoff ->
  plays (db s') !! i =
  if decide (i ∈ deleted_ids (p_user_id p0) cutoff (p0 :: rest) (plays (db s)))
  then None else plays (db s) !! i.
Proof.
  intros (c & Hc & ->)%detect_deleted_cons Hcut.
  assert (c = cutoff) as -> by congruence.
  rewrite delete_all_plays.
  destruct (decide (i ∈ elements _)) as [Hin|Hin]; rewrite elem_of_elements in Hin.
  - by rewrite decide_True.
  - by rewrite decide_False.
Qed.

Lemma detect_deleted_rest batch full_scan s s' :
  detect_deleted cfg batch full_scan s = Ok s' ->
  games (db s') = games (db s) /\ bgg_users (db s') = bgg_users (db s) /\
  world s' = world s.
Proof.
  destruct batch as [|p0 rest].
  - simpl. by intros [= <-].
  - intros (c & Hc & ->)%detect_deleted_cons.
    destruct (delete_all_rest
      (elements (deleted_ids (p_user_id p0) c (p0 :: rest) (plays (db s)))) s)
      as (? & ? & ? & _).
    done.
Qed.


Lemma update_plays_Ok fuel batch full_scan s s' :
  update_plays cfg fuel batch full_scan s = Ok s' <->
  exists s1, update_plays_loop cfg fuel batch s = Ok s1 /\
             detect_deleted cfg batch full_scan s1 = Ok s'.
Proof. unfold update_plays. apply bind_Ok. Qed.

Lemma cutoff_date_cases full_scan (w : W) cutoff :
  cutoff_date cfg full_scan w = Ok cutoff <->
  if full_scan then cutoff = START_DATE cfg
  else exists d, Datetime.minus_days RESCAN_DAYS (datetime_today w) = Some d /\
                 cutoff = Datetime.isoformat d.
Proof.
  unfold cutoff_date, rescan_cutoff, Datetime.sub_days. destruct full_scan.
  - split; [by intros [= <-]|by intros ->].
  - destruct (Datetime.minus_days RESCAN_DAYS (datetime_today w)) as [d|]; simpl.
    + split; [intros [= <-]; eauto|]. by intros (d' & [= <-] & ->).
    + split; [done|]. by intros (d' & ? & _).
Qed.

(** C1 (as amended). A pass over a non-empty batch whose per-record loop has
    finished and whose cutoff is computed returns, and in the store it
    leaves, every play id that was stored after the per-record rules for the
    user of the first record, with a play date not older than the cutoff of
    the scan mode, and that is not among the play ids of the batch, is gone.
    The cutoff is the full-scan start date in Full mode and the ISO string of
    now minus the re-scan window in Incremental mode, so that in Incremental
    mode a play dated less than 14 days before the clock reading is among
    those deleted. Such a play id held the same row before the pass. *)
Theorem update_plays_deletes_unobserved fuel p0 rest full_scan s s1 cutoff :
  update_plays_loop cfg fuel (p0 :: rest) s = Ok s1 ->
  cutoff_date cfg full_scan (world s1) = Ok cutoff ->
  (if full_scan then cutoff = START_DATE cfg
   else exists d, Datetime.minus_days RESCAN_DAYS (datetime_today (world s1)) = Some d /\
                  cutoff = Datetime.isoformat d) /\
  exists s', update_plays cfg fuel (p0 :: rest) full_scan s = Ok s' /\
    (forall (i : Z) (row : PlayRow),
       plays (db s1) !! i = Some row ->
       r_user_id row = p_user_id p0 ->
       Py.str_ge (r_play_date row) cutoff = true ->
       i ∉ bgg_ids (p0 :: rest) ->
       plays (db s) !! i = Some row /\ plays (db s') !! i = None) /\
    (full_scan = false ->
     Datetime.valid (datetime_today (world s1)) ->
     forall (i : Z) (row : PlayRow) (n : nat),
       plays (db s1) !! i = Some row ->
       r_user_id row = p_user_id p0 ->
       (n < RESCAN_DAYS)%nat ->
       Datetime.days_ago n (datetime_today (world s1)) (r_play_date row) ->
       i ∉ bgg_ids (p0 :: rest) ->
       plays (db s') !! i = None).
Proof.
  intros Hloop Hcut. split; [by apply cutoff_date_cases|].
  set (ids := elements (deleted_ids (p_user_id p0) cutoff (p0 :: rest) (plays (db s1)))).
  assert (detect_deleted cfg (p0 :: rest) full_scan s1 = Ok (delete_all ids s1)) as Hdet.
  { apply detect_deleted_cons. exists cutoff. done. }
  assert (forall (i : Z) (row : PlayRow),
            plays (db s1) !! i = Some row ->
            r_user_id row = p_user_id p0 ->
            Py.str_ge (r_play_date row) cutoff = true ->
            i ∉ bgg_ids (p0 :: rest) ->
            plays (db (delete_all ids s1)) !! i = None) as Hgone.
  { intros i row Hrow Huser Hdate Hi.
    rewrite (detect_deleted_plays _ _ _ _ _ _ i Hdet Hcut).
    rewrite decide_True; [done|].
    unfold deleted_ids. apply elem_of_difference. split; [|done].
    apply elem_of_db_ids. eauto. }
  exists (delete_all ids s1). split; [apply update_plays_Ok; eauto|]. split.
  - intros i row Hrow Huser Hdate Hi. split; [|by eapply Hgone].
    by rewrite <- (loop_frame _ _ _ _ i Hloop Hi).
  - intros -> Hvalid i row n Hrow Huser Hn (dn & Hdn & Hdate) Hi.
    apply cutoff_date_cases in Hcut as (d14 & H14 & ->).
    eapply Hgone; eauto. rewrite Hdate.
    eapply (DateOrder.inside_cutoff n); eauto.
    by apply DateOrder.valid_valid_date.
Qed.

(** A stored play that is absent from the batch and whose play date is older
    than the cutoff of the pass is stored unchanged after the pass, in either
    mode. *)
Lemma update_plays_keeps_older fuel batch full_scan s s1 s' (i : Z) row :
  update_plays_loop cfg fuel batch s = Ok s1 ->
  detect_deleted cfg batch full_scan s1 = Ok s' ->
  plays (db s) !! i = Some row ->
  i ∉ bgg_ids batch ->
  (forall c, cutoff_date cfg full_scan (world s1) = Ok c ->
             Py.str_lt (r_play_date row) c = true) ->
  plays (db s') !! i = Some row.
Proof.
  intros Hloop Hdet Hrow Hi Hold.
  rewrite <- (loop_frame _ _ _ _ i Hloop Hi) in Hrow.
  destruct batch as [|p0 rest].
  - simpl in Hdet. by injection Hdet as <-.
  - pose proof Hdet as (c & Hc & _)%detect_deleted_cons.
    rewrite (detect_deleted_plays _ _ _ _ _ _ i Hdet Hc).
    rewrite decide_False; [done|].
    unfold deleted_ids. rewrite elem_of_difference, elem_of_db_ids.
    intros [(row' & Hrow' & _ & Hge) _].
    assert (row' = row) as -> by congruence.
    apply Hold, StrOrder.str_lt_not_ge in Hc. congruence.
Qed.

(** C10. For a record whose play id is stored and whose location is the
    target, the loop body returns the store with that one row replaced by the
    record's game id, play date and user id, and with the games table, the
    users and the world as they were: no metadata is resolved and no Game row
    is inserted. When the record's game id has no Game row, the stored play
    then refers to a game id that is absent from the games table. *)
Theorem update_branch_leaves_games fuel p s row :
  plays (db s) !! p_id p = Some row ->
  location_is_target cfg p = true ->
  exists s', update_plays_step cfg fuel p s = Ok s' /\
    plays (db s') = <[p_id p := mkPlay (p_game_id p) (p_play_date p) (p_user_id p)]>
                      (plays (db s)) /\
    games (db s') = games (db s) /\
    bgg_users (db s') = bgg_users (db s) /\
    world s' = world s /\
    (log s' = log s \/ log s' = log s ++ [EvUpdatePlay (p_id p)]) /\
    (games (db s) !! p_game_id p = None ->
     exists row', plays (db s') !! p_id p = Some row' /\
                  r_game_id row' = p_game_id p /\
                  games (db s') !! r_game_id row' = None).
Proof.
  intros Hrow Hloc. exists (sql_update_play p s).
  assert (plays (db (sql_update_play p s)) = <[p_id p := row_of p]> (plays (db s))) as Hpl.
  { apply map_eq. intros i. rewrite sql_update_play_lookup, lookup_insert.
    destruct (decide (i = p_id p)), (decide (p_id p = i)); try congruence.
    subst. by rewrite Hrow. }
  split; [|split; [exact Hpl|]].
  - unfold update_plays_step. rewrite Hrow, Hloc. reflexivity.
  - rewrite sql_update_play_games, sql_update_play_users, sql_update_play_world.
    repeat split; try done.
    + unfold sql_update_play. rewrite Hrow. destruct (row_differs row p); auto.
    + intros Hg. exists (row_of p). rewrite Hpl, lookup_insert_eq. done.
Qed.


(** C6. The deletion detection spares what lies before the window: a stored
    play that is absent from the batch is stored unchanged after the pass
    when its play date is older than the cutoff of the pass; in particular,
    in Incremental mode (a window of 14 days), when it is dated 30 days
    before the clock reading of the pass. *)
Theorem detect_deleted_spares_older fuel batch full_scan s s1 s' (i : Z) row :
  update_plays_loop cfg fuel batch s = Ok s1 ->
  detect_deleted cfg batch full_scan s1 = Ok s' ->
  plays (db s) !! i = Some row ->
  i ∉ bgg_ids batch ->
  ((forall c, cutoff_date cfg full_scan (world s1) = Ok c ->
              Py.str_lt (r_play_date row) c = true) ->
   plays (db s') !! i = Some row) /\
  (full_scan = false ->
   Datetime.valid (datetime_today (world s1)) ->
   Datetime.days_ago 30 (datetime_today (world s1)) (r_play_date row) ->
   plays (db s') !! i = Some row).
Proof.
  intros Hloop Hdet Hrow Hi. split.
  - intros Hold. eapply update_plays_keeps_older; eauto.
  - intros -> Hvalid (d30 & H30 & Hdate).
    eapply update_plays_keeps_older; eauto.
    intros c (d14 & H14 & ->)%cutoff_date_cases. rewrite Hdate.
    eapply (DateOrder.older_than_cutoff 30); eauto.
    + by apply DateOrder.valid_valid_date.
    + lia.
Qed.

(** *** Running a pass again *)

Lemma step_noop fuel p s :
  plays (db s) !! p_id p = settled cfg p -> update_plays_step cfg fuel p s = Ok s.
Proof.
  unfold settled, update_plays_step, sql_update_play. intros H. rewrite H.
  destruct (location_is_target cfg p); simpl; [|done].
  by rewrite (proj2 (row_differs_false (row_of p) p)).
Qed.

Lemma loop_noop fuel batch s :
  (forall p, p ∈ batch -> plays (db s) !! p_id p = settled cfg p) ->
  update_plays_loop cfg fuel batch s = Ok s.
Proof.
  induction batch as [|p rest IH]; simpl; intros H; [done|].
  rewrite step_noop by (apply H, elem_of_cons; by left). simpl.
  apply IH. intros q Hq. apply H, elem_of_cons. by right.
Qed.

Lemma last_for_consistent batch p :
  consistent batch -> p ∈ batch -> last_for (p_id p) batch = Some p.
Proof.
  intros Hc Hp. destruct (last_for (p_id p) batch) as [q|] eqn:Hl.
  - apply last_for_id in Hl as [Hid Hq]. f_equal. by apply Hc.
  - apply last_for_None in Hl. exfalso. apply Hl. unfold bgg_ids.
    apply elem_of_list_to_set. by apply list_elem_of_fmap_2.
Qed.

Lemma elem_of_bgg_ids batch p : p ∈ batch -> p_id p ∈ bgg_ids batch.
Proof.
  intros Hp. unfold bgg_ids. apply elem_of_list_to_set. by apply list_elem_of_fmap_2.
Qed.

(** After a pass, every record of a consistent batch finds its own row. *)
Lemma update_plays_settles fuel batch full_scan s s' p :
  update_plays cfg fuel batch full_scan s = Ok s' ->
  consistent batch -> p ∈ batch ->
  plays (db s') !! p_id p = settled cfg p.
Proof.
  intros (s1 & Hloop & Hdet)%update_plays_Ok Hc Hp.
  assert (plays (db s1) !! p_id p = settled cfg p) as H1.
  { rewrite (loop_plays_lookup _ _ _ _ (p_id p) Hloop).
    by rewrite last_for_consistent. }
  destruct batch as [|p0 rest]; [by apply elem_of_nil in Hp|].
  pose proof Hdet as (c & Hcut & _)%detect_deleted_cons.
  rewrite (detect_deleted_plays _ _ _ _ _ _ (p_id p) Hdet Hcut).
  rewrite decide_False; [done|].
  unfold deleted_ids. rewrite elem_of_difference. intros [_ Hn].
  by apply Hn, elem_of_bgg_ids.
Qed.

(** After a pass, nothing is left for a not earlier cutoff to delete. *)
Lemma update_plays_leaves_nothing fuel p0 rest full_scan s s' c1 c2 :
  update_plays cfg fuel (p0 :: rest) full_scan s = Ok s' ->
  cutoff_date cfg full_scan (world s') = Ok c1 ->
  Py.str_ge c2 c1 = true ->
  deleted_ids (p_user_id p0) c2 (p0 :: rest) (plays (db s')) = ∅.
Proof.
  intros (s1 & Hloop & Hdet)%update_plays_Ok Hc1 Hge.
  destruct (detect_deleted_rest _ _ _ _ Hdet) as (_ & _ & Hw).
  rewrite Hw in Hc1.
  apply set_eq. intros i. split; [|by intros ?%not_elem_of_empty].
  unfold deleted_ids. rewrite elem_of_difference, elem_of_db_ids.
  intros [(row & Hrow & Hu & Hd) Hi]. exfalso.
  rewrite (detect_deleted_plays _ _ _ _ _ _ i Hdet Hc1) in Hrow.
  case_decide as Hdel; [done|]. apply Hdel.
  unfold deleted_ids. rewrite elem_of_difference, elem_of_db_ids.
  split; [|done]. exists row. repeat split; try done.
  eapply StrOrder.str_ge_trans; eauto.
Qed.

Lemma update_plays_again fuel fuel2 batch full_scan s s1 (w2 : W) :
  update_plays cfg fuel batch full_scan s = Ok s1 ->
  consistent batch ->
  (forall c1, cutoff_date cfg full_scan (world s1) = Ok c1 ->
     exists c2, cutoff_date cfg full_scan w2 = Ok c2 /\ Py.str_ge c2 c1 = true) ->
  update_plays cfg fuel2 batch full_scan (mkState (db s1) w2 [])
  = Ok (mkState (db s1) w2 []).
Proof.
  intros Hrun Hc Hclock. apply update_plays_Ok.
  exists (mkState (db s1) w2 []). split.
  - apply loop_noop. intros p Hp. simpl. eapply update_plays_settles; eauto.
  - destruct batch as [|p0 rest]; [done|].
    pose proof Hrun as (sa & Hloop & Hdet)%update_plays_Ok.
    pose proof Hdet as (c1 & Hc1 & _)%detect_deleted_cons.
    destruct (detect_deleted_rest _ _ _ _ Hdet) as (_ & _ & Hw).
    rewrite <- Hw in Hc1.
    destruct (Hclock _ Hc1) as (c2 & Hc2 & Hge).
    apply detect_deleted_cons. exists c2. split; [done|]. simpl.
    rewrite (update_plays_leaves_nothing _ _ _ _ _ _ _ _ Hrun Hc1 Hge).
    by rewrite elements_empty.
Qed.

(** C3 (as amended). For a batch in which records that share a play id are
    identical, running the pass again on the state the first run left, with
    the log reset, returns that state as it is: the same plays, games and
    users tables, no request to the remote service, and an empty log, hence
    no insert, no delete, no effective update and no metadata look-up. The
    same holds in any world whose cutoff is not earlier than the one of the
    first run. *)
Theorem update_plays_idempotent fuel fuel2 batch full_scan s s1 :
  update_plays cfg fuel batch full_scan s = Ok s1 ->
  consistent batch ->
  update_plays cfg fuel2 batch full_scan (mkState (db s1) (world s1) [])
  = Ok (mkState (db s1) (world s1) []) /\
  forall w2 : W,
    (forall c1, cutoff_date cfg full_scan (world s1) = Ok c1 ->
       exists c2, cutoff_date cfg full_scan w2 = Ok c2 /\ Py.str_ge c2 c1 = true) ->
    update_plays cfg fuel2 batch full_scan (mkState (db s1) w2 [])
    = Ok (mkState (db s1) w2 []).
Proof.
  intros Hrun Hc. split.
  - eapply update_plays_again; eauto.
    intros c1 Hc1. exists c1. split; [done|apply StrOrder.str_ge_refl].
  - intros w2 Hclock. eapply update_plays_again; eauto.
Qed.


(** *** Metadata look-ups *)

Lemma occurrences_snoc e e' (l : list Event) :
  occurrences e (l ++ [e']) = (occurrences e l + if decide (e' = e) then 1 else 0)%nat.
Proof.
  unfold occurrences. rewrite count_occ_app. simpl.
  destruct (Event_eq_dec e' e), (decide (e' = e)); done.
Qed.

Lemma resolved_once_other g (d : DB) (l : list Event) e :
  e <> EvResolve g -> e <> EvInsertGame g -> (forall id, e <> EvInsertPlay id g) ->
  resolved_once g d l -> resolved_once g d (l ++ [e]).
Proof.
  intros H1 H2 H3 [(Hg & Hr & Hi & Hn)|(Hg & Hr & Hi & id & Hin)]; [left|right].
  - rewrite !occurrences_snoc, !decide_False by done.
    repeat split; try done; try lia.
    intros id [Hin|Hin%list_elem_of_singleton]%elem_of_app; [by eapply Hn|].
    by eapply H3.
  - rewrite !occurrences_snoc, !decide_False by done.
    repeat split; try done; try lia.
    exists id. apply elem_of_app. by left.
Qed.

Lemma resolved_once_plays g (d : DB) t (l : list Event) :
  resolved_once g (set_plays d t) l <-> resolved_once g d l.
Proof. done. Qed.

Lemma sql_update_play_resolved g p s :
  resolved_once g (db s) (log s) ->
  resolved_once g (db (sql_update_play p s)) (log (sql_update_play p s)).
Proof.
  unfold sql_update_play. intros H. repeat case_match; try done. simpl.
  apply resolved_once_plays, resolved_once_other; done.
Qed.

Lemma step_resolved_once g fuel p s s' :
  update_plays_step cfg fuel p s = Ok s' ->
  resolved_once g (db s) (log s) -> resolved_once g (db s') (log s').
Proof.
  intros H Hinv.
  apply step_cases in H
    as [(_ & _ & ->)|[(_ & _ & Hgame & ->)|
        [(_ & _ & Hgame & info & w' & _ & ->)|(_ & ->)]]].
  - simpl. apply resolved_once_plays, resolved_once_other; done.
  - simpl. apply resolved_once_plays.
    destruct Hinv as [(Hg & Hr & Hi & Hn)|(Hg & Hr & Hi & id & Hin)]; [left|right];
      rewrite !occurrences_snoc, !decide_False by done;
      repeat split; try done; try lia.
    + intros id [Hin|Hin%list_elem_of_singleton]%elem_of_app; [by eapply Hn|].
      injection Hin as _ ->. rewrite Hg in Hgame. by destruct Hgame.
    + exists id. apply elem_of_app. by left.
  - simpl. destruct (decide (p_game_id p = g)) as [<-|Hne].
    + destruct Hinv as [(Hg & Hr & Hi & Hn)|(Hg & _)];
        [|rewrite Hgame in Hg; by destruct Hg].
      right. simpl. rewrite lookup_insert_eq. rewrite !occurrences_snoc, Hr, Hi.
      repeat case_decide; try congruence.
      repeat split; try (eauto; lia).
      exists (p_id p). rewrite !elem_of_app, !list_elem_of_singleton. auto.
    + destruct Hinv as [(Hg & Hr & Hi & Hn)|(Hg & Hr & Hi & id & Hin)]; [left|right];
        simpl; rewrite lookup_insert_ne by done;
        rewrite !occurrences_snoc, Hr, Hi;
        repeat case_decide; try congruence;
        repeat split; try done; try lia.
      * intros id. rewrite !elem_of_app, !list_elem_of_singleton.
        intros [[[Hin|Hin]|Hin]|Hin]; try done; [by eapply Hn|congruence].
      * exists id. rewrite !elem_of_app. auto.
  - by apply sql_update_play_resolved.
Qed.

Lemma loop_resolved_once g fuel batch s s' :
  update_plays_loop cfg fuel batch s = Ok s' ->
  resolved_once g (db s) (log s) -> resolved_once g (db s') (log s').
Proof.
  revert s. induction batch as [|p rest IH]; simpl; intros s H Hinv.
  - by injection H as <-.
  - inv_bind H. eapply IH; eauto. eapply step_resolved_once; eauto.
Qed.

Lemma delete_all_resolved_once g ids s :
  resolved_once g (db s) (log s) ->
  resolved_once g (db (delete_all ids s)) (log (delete_all ids s)).
Proof.
  unfold delete_all. revert s. induction ids as [|j ids IH]; intros s H; simpl; [done|].
  apply IH. simpl. apply resolved_once_plays, resolved_once_other; done.
Qed.

Lemma update_plays_resolved_once g fuel batch full_scan s s' :
  update_plays cfg fuel batch full_scan s = Ok s' ->
  resolved_once g (db s) (log s) -> resolved_once g (db s') (log s').
Proof.
  intros (s1 & Hloop & Hdet)%update_plays_Ok Hinv.
  pose proof (loop_resolved_once _ _ _ _ _ Hloop Hinv) as H1.
  destruct batch as [|p0 rest].
  - simpl in Hdet. by injection Hdet as <-.
  - apply detect_deleted_cons in Hdet as (c & _ & ->).
    by apply delete_all_resolved_once.
Qed.

(** C7. In one pass started with an empty log, a game id that has no Game
    row and to which at least one inserted play refers gets exactly one
    metadata look-up and exactly one Game insert, however many inserted plays
    of the batch refer to it, and it has a Game row afterwards. *)
Theorem one_resolution_per_new_game fuel batch full_scan s s' (g : Z) :
  log s = [] ->
  games (db s) !! g = None ->
  update_plays cfg fuel batch full_scan s = Ok s' ->
  (exists id, EvInsertPlay id g ∈ log s') ->
  occurrences (EvResolve g) (log s') = 1%nat /\
  occurrences (EvInsertGame g) (log s') = 1%nat /\
  is_Some (games (db s') !! g).
Proof.
  intros Hlog Hg Hrun [id Hid].
  assert (resolved_once g (db s) (log s)) as Hinv.
  { left. rewrite Hlog. repeat split; try done. intros ?. apply not_elem_of_nil. }
  destruct (update_plays_resolved_once _ _ _ _ _ _ Hrun Hinv)
    as [(_ & _ & _ & Hn)|(Hs & Hr & Hi & _)].
  - by apply Hn in Hid.
  - done.
Qed.

End Reconciler.

(** ** The fetcher *)

Section Fetcher.

Context {W : Type} `{!Remote W} {unicode : Py.Text} (cfg : Config).

Implicit Types (w : W) (p : Element) (acc batch : list PlayRecord).

(** Scanning a page in two parts. *)
Lemma scan_page_app user_id cutoff (pre rest : list Element) acc :
  scan_page user_id cutoff (pre ++ rest) acc =
  scan_page user_id cutoff pre acc ≫= fun res =>
    match res with
    | PageDone acc' => scan_page user_id cutoff rest acc'
    | PageReturn acc' => Ok (PageReturn acc')
    end.
Proof.
  revert acc. induction pre as [|p pre IH]; intros acc; simpl; [done|].
  destruct (Py.int (ET.get p "id")) as [play_id| |]; simpl; try done.
  destruct (ET.get p "date") as [play_date|]; [|done].
  destruct (Py.str_lt play_date cutoff); [done|].
  destruct (Py.opt_upper (ET.get p "location")) as [location| |]; simpl; try done.
  destruct (ET.find p "item") as [item|]; [|apply IH].
  destruct (Py.int (ET.get item "objectid")) as [game_id| |]; simpl; try done.
Qed.

(** A play element that is reached without a location attribute. *)
Lemma scan_page_no_location user_id cutoff p (rest : list Element) acc play_id play_date :
  Py.int (ET.get p "id") = Ok play_id ->
  ET.get p "date" = Some play_date ->
  Py.str_lt play_date cutoff = false ->
  ET.get p "location" = None ->
  scan_page user_id cutoff (p :: rest) acc = Raise AttributeError.
Proof. intros Hid Hdate Hlt Hloc. simpl. by rewrite Hid, Hdate, Hlt, Hloc. Qed.

(** Where the records of a page scan come from. *)
Lemma scan_page_records user_id cutoff (elems : list Element) acc res r :
  scan_page user_id cutoff elems acc = Ok res ->
  r ∈ page_plays res ->
  r ∈ acc \/ exists p loc, p ∈ elems /\ built_from user_id cutoff p loc r.
Proof.
  revert acc. induction elems as [|p elems IH]; intros acc H Hr; simpl in H.
  - injection H as <-. by left.
  - destruct (Py.int (ET.get p "id")) as [play_id| |] eqn:Hid; simpl in H; try done.
    destruct (ET.get p "date") as [play_date|] eqn:Hdate; [|done].
    destruct (Py.str_lt play_date cutoff) eqn:Hlt.
    { injection H as <-. by left. }
    destruct (ET.get p "location") as [loc|] eqn:Hloc; simpl in H; [|done].
    assert (forall acc', scan_page user_id cutoff elems acc' = Ok res ->
              (forall q, q ∈ acc' -> q ∈ acc \/
                 exists loc', built_from user_id cutoff p loc' q) ->
              r ∈ acc \/ exists p' loc', p' ∈ p :: elems /\
                                         built_from user_id cutoff p' loc' r) as Hstep.
    { intros acc' H' Hacc'. destruct (IH _ H' Hr) as [Hin|(p' & loc' & Hp' & Hb)].
      - destruct (Hacc' _ Hin) as [?|(loc' & Hb)]; [by left|].
        right. exists p, loc'. split; [apply elem_of_cons; by left|done].
      - right. exists p', loc'. split; [apply elem_of_cons; by right|done]. }
    destruct (ET.find p "item") as [item|].
    + destruct (Py.int (ET.get item "objectid")) as [game_id| |]; simpl in H; try done.
      apply (Hstep _ H). intros q [Hq|Hq%list_elem_of_singleton]%elem_of_app; [by left|].
      right. exists loc. subst q. unfold built_from, Py.str_ge. simpl.
      unfold Py.str_lt in Hlt. by rewrite Hlt.
    + apply (Hstep _ H). by left.
Qed.

Lemma fetch_loop_S fuel username user_id cutoff page acc w :
  fetch_loop cfg (S fuel) username user_id cutoff page acc w =
  let '(r, w1) := requests_get (mkRequest (PlaysUrl username page) (headers cfg)) w in
  if status_code r =? 202 then
    fetch_loop cfg fuel username user_id cutoff page acc (time_sleep 2 w1)
  else if negb (status_code r =? 200) then Ok (acc, w1)
  else
    match xml r with
    | None => Raise ParseError
    | Some root =>
        match ET.findall root "play" with
        | [] => Ok (acc, w1)
        | p0 :: _ =>
            Py.opt_lt (ET.get p0 "date") (START_DATE cfg) ≫= fun old : bool =>
            if old then Ok (acc, w1)
            else
              scan_page user_id cutoff (ET.findall root "play") acc ≫= fun res =>
              match res with
              | PageReturn acc' => Ok (acc', w1)
              | PageDone acc' =>
                  fetch_loop cfg fuel username user_id cutoff (page + 1) acc' w1
              end
        end
    end.
Proof.
  cbn [fetch_loop]. destruct (requests_get _ w) as [r w1].
  destruct (status_code r =? 202); [done|].
  destruct (negb (status_code r =? 200)); [done|].
  destruct (xml r) as [root|]; [|done].
  by destruct (ET.findall root "play").
Qed.

Lemma fetch_loop_records fuel username user_id cutoff page acc w batch w' r :
  fetch_loop cfg fuel username user_id cutoff page acc w = Ok (batch, w') ->
  r ∈ batch ->
  r ∈ acc \/ exists p loc, built_from user_id cutoff p loc r.
Proof.
  revert page acc w. induction fuel as [|fuel IH]; intros page acc w H Hr.
  - done.
  - rewrite fetch_loop_S in H.
    destruct (requests_get _ w) as [resp w1].
    destruct (status_code resp =? 202); [by eapply IH|].
    destruct (negb (status_code resp =? 200)).
    { injection H as <- <-. by left. }
    destruct (xml resp) as [root|]; [|done].
    destruct (ET.findall root "play") as [|p0 elems] eqn:Hfind.
    { injection H as <- <-. by left. }
    inv_bind H. destruct a.
    { injection H as <- <-. by left. }
    inv_bind H. destruct a as [l|l].
    + injection H as <- <-.
      destruct (scan_page_records _ _ _ _ _ r Ha0 Hr) as [?|(p & loc & _ & Hb)]; eauto.
    + destruct (IH _ _ _ H Hr) as [Hin|?]; [|by right].
      destruct (scan_page_records _ _ _ _ _ r Ha0 Hin) as [?|(p & loc & _ & Hb)]; eauto.
Qed.

(** Every fetched play is dated inside the cutoff of its scan and carries
    the upper-cased location attribute of its play element. *)
Lemma fetch_plays_records fuel username user_id full_scan w batch w' r :
  fetch_plays_for_user cfg fuel username user_id full_scan w = Ok (batch, w') ->
  r ∈ batch ->
  exists cutoff p loc, cutoff_date cfg full_scan w = Ok cutoff /\
                       built_from user_id cutoff p loc r.
Proof.
  unfold fetch_plays_for_user. intros H Hr. inv_bind H.
  destruct (fetch_loop_records _ _ _ _ _ _ _ _ _ r H Hr) as [Hin|(p & loc & Hb)].
  - by apply elem_of_nil in Hin.
  - eauto.
Qed.

(** Every fetched play is built from a play element of a page that the
    service served to the fetch. *)
Lemma fetch_loop_served fuel username user_id cutoff page acc w0 w batch w' r :
  fetch_visits cfg username w0 page w ->
  fetch_loop cfg fuel username user_id cutoff page acc w = Ok (batch, w') ->
  r ∈ batch ->
  r ∈ acc \/
  exists p loc, served cfg username w0 p /\ built_from user_id cutoff p loc r.
Proof.
  revert page acc w. induction fuel as [|fuel IH]; intros page acc w Hvisit H Hr.
  - done.
  - rewrite fetch_loop_S in H.
    destruct (requests_get _ w) as [resp w1] eqn:Hget.
    destruct (status_code resp =? 202) eqn:H202.
    { apply Z.eqb_eq in H202. eapply IH; [|done..]. by eapply visits_again. }
    destruct (negb (status_code resp =? 200)) eqn:H200.
    { injection H as <- <-. by left. }
    apply negb_false_iff, Z.eqb_eq in H200.
    destruct (xml resp) as [root|] eqn:Hxml; [|done].
    destruct (ET.findall root "play") as [|p0 elems] eqn:Hfind.
    { injection H as <- <-. by left. }
    inv_bind H. destruct a.
    { injection H as <- <-. by left. }
    inv_bind H.
    assert (forall q, q ∈ page_plays a ->
              q ∈ acc \/
              exists p loc, served cfg username w0 p /\ built_from user_id cutoff p loc q)
      as Hpage.
    { intros q Hq.
      destruct (scan_page_records _ _ _ _ _ q Ha0 Hq) as [?|(p & loc & Hp & Hb)];
        [by left|right].
      exists p, loc. split; [|done].
      exists page, w, resp, w1, root. rewrite Hfind. done. }
    destruct a as [l|l].
    + injection H as <- <-. by apply Hpage.
    + assert (fetch_visits cfg username w0 (page + 1) w1) as Hnext
        by (by eapply visits_next).
      destruct (IH _ _ _ Hnext H Hr) as [Hin|?]; [|by right]. by apply Hpage.
Qed.

Lemma fetch_plays_served fuel username user_id full_scan w batch w' r :
  fetch_plays_for_user cfg fuel username user_id full_scan w = Ok (batch, w') ->
  r ∈ batch ->
  exists cutoff p loc, cutoff_date cfg full_scan w = Ok cutoff /\
                       served cfg username w p /\
                       built_from user_id cutoff p loc r.
Proof.
  unfold fetch_plays_for_user. intros H Hr. inv_bind H.
  destruct (fetch_loop_served _ _ _ _ _ _ w _ _ _ r (visits_first cfg username w) H Hr)
    as [Hin|(p & loc & Hs & Hb)].
  - by apply elem_of_nil in Hin.
  - eauto 6.
Qed.

(** A text that [str.upper] gives is none with a letter of [a-z]. *)
Lemma upper_is_not (target loc : string) :
  Py.has_lower target = true -> Py.upper loc <> target.
Proof. intros Hlow <-. by rewrite Py.upper_no_lower in Hlow. Qed.


(** C5. When the page just fetched is not empty and its first (newest) play
    is dated before the full-scan start date, the fetch returns at once the
    plays accumulated from the earlier pages: nothing of this page is added
    and no further request is made. With start year 2020 this is so for a
    page whose newest play is dated 2019-12-31. *)
Theorem fetch_stops_before_start_date
  fuel username user_id cutoff page acc w resp w1 root p0 (rest : list Element) newest :
  requests_get (mkRequest (PlaysUrl username page) (headers cfg)) w = (resp, w1) ->
  status_code resp = 200 ->
  xml resp = Some root ->
  ET.findall root "play" = p0 :: rest ->
  ET.get p0 "date" = Some newest ->
  (Py.str_lt newest (START_DATE cfg) = true ->
   fetch_loop cfg (S fuel) username user_id cutoff page acc w = Ok (acc, w1)) /\
  (START_YEAR cfg = Some "2020" -> newest = "2019-12-31" ->
   fetch_loop cfg (S fuel) username user_id cutoff page acc w = Ok (acc, w1)).
Proof.
  intros Hget Hst Hxml Hfind Hdate.
  assert (Py.str_lt newest (START_DATE cfg) = true ->
          fetch_loop cfg (S fuel) username user_id cutoff page acc w = Ok (acc, w1)) as Hstop.
  { intros Hold. rewrite fetch_loop_S, Hget, Hst, Hxml, Hfind, Hdate. simpl.
    by rewrite Hold. }
  split; [done|]. intros Hyear ->. apply Hstop.
  unfold START_DATE. by rewrite Hyear.
Qed.

(** C8 (as amended). When the scan of a fetched page reaches a play element
    that has no location attribute, that is, the newest play of the page is
    not dated before the full-scan start date, the elements before it are
    scanned to their end, its id is an integer and its date is not older than
    the cutoff, the fetch raises AttributeError, whether or not the element
    has an item: the record is not skipped and no plays are returned. *)
Theorem fetch_raises_without_location
  fuel username user_id cutoff page acc acc' w resp w1 root
  (pre rest : list Element) p p0 newest play_id play_date :
  requests_get (mkRequest (PlaysUrl username page) (headers cfg)) w = (resp, w1) ->
  status_code resp = 200 ->
  xml resp = Some root ->
  ET.findall root "play" = pre ++ p :: rest ->
  head (pre ++ p :: rest) = Some p0 ->
  ET.get p0 "date" = Some newest ->
  Py.str_lt newest (START_DATE cfg) = false ->
  scan_page user_id cutoff pre acc = Ok (PageDone acc') ->
  Py.int (ET.get p "id") = Ok play_id ->
  ET.get p "date" = Some play_date ->
  Py.str_lt play_date cutoff = false ->
  ET.get p "location" = None ->
  fetch_loop cfg (S fuel) username user_id cutoff page acc w = Raise AttributeError.
Proof.
  intros Hget Hst Hxml Hfind Hhead Hnewest Hnew Hpre Hid Hdate Hlt Hloc.
  rewrite fetch_loop_S, Hget, Hst, Hxml, Hfind. cbn [Z.eqb Pos.eqb negb].
  destruct (pre ++ p :: rest) as [|q elems] eqn:Helems; [done|].
  injection Hhead as ->. rewrite Hnewest. cbn [Py.opt_lt mbind outcome_bind].
  rewrite Hnew, <- Helems, scan_page_app, Hpre. cbn [mbind outcome_bind].
  by rewrite (scan_page_no_location _ _ _ _ _ _ _ Hid Hdate Hlt Hloc).
Qed.

End Fetcher.

(** ** The scheduler and the admin full scan *)

Section Scheduler.

Context {W : Type} `{!Remote W} {unicode : Py.Text} (cfg : Config).

Implicit Types (s : State W) (row : UserRow).

(** C4 (as amended). A fetched record is built from a play element that
    the service served to the fetch: it has the element's id and carries the
    upper-cased location attribute of the element. The record is in scope
    exactly when that upper-cased location equals the target location as
    configured, which is not upper-cased: a target location with a letter of
    [a-z] matches no fetched record. The loop body then leaves the record's
    row stored when it is in scope and leaves no row under its id when it is
    not. *)
Theorem location_compared_with_configured_target
  fuel username user_id full_scan (w : W) batch w' r :
  fetch_plays_for_user cfg fuel username user_id full_scan w = Ok (batch, w') ->
  r ∈ batch ->
  (exists p loc,
     served cfg username w p /\
     Py.int (ET.get p "id") = Ok (p_id r) /\
     ET.get p "location" = Some loc /\
     p_location r = Py.upper loc /\
     (location_is_target cfg r = true <-> GAME_LOCATION cfg = Some (Py.upper loc))) /\
  (forall target,
     GAME_LOCATION cfg = Some target -> Py.has_lower target = true ->
     location_is_target cfg r = false) /\
  forall fuel' s s',
    update_plays_step cfg fuel' r s = Ok s' ->
    plays (db s') !! p_id r =
    if location_is_target cfg r
    then Some (mkPlay (p_game_id r) (p_play_date r) (p_user_id r))
    else None.
Proof.
  intros Hfetch Hr.
  destruct (fetch_plays_served _ _ _ _ _ _ _ _ r Hfetch Hr)
    as (c & p & loc & _ & Hserved & (Hid & _ & _ & Hloc & Hup & _)).
  split; [|split].
  - exists p, loc. unfold location_is_target. rewrite Hup.
    repeat split; try done.
    + intros ?%bool_decide_eq_true. done.
    + intros ->. by apply bool_decide_eq_true.
  - intros target Htarget Hlow. unfold location_is_target.
    rewrite Hup, Htarget. apply bool_decide_eq_false.
    intros [= Heq]. by apply (upper_is_not target loc).
  - intros fuel' s s' Hstep.
    rewrite (step_plays_lookup _ _ _ _ _ (p_id r) Hstep).
    by rewrite decide_True.
Qed.

Lemma update_plays_users fuel batch full_scan s s' :
  update_plays cfg fuel batch full_scan s = Ok s' ->
  bgg_users (db s') = bgg_users (db s).
Proof.
  intros (s1 & Hloop & Hdet)%update_plays_Ok.
  destruct (detect_deleted_rest _ _ _ _ _ Hdet) as (_ & -> & _).
  eapply loop_users; eauto.
Qed.




Lemma cron_user_Ok fuel row s s' :
  cron_user cfg fuel row s = Ok s' <->
  exists batch w1 s2,
    fetch_plays_for_user cfg fuel (u_username row) (u_id row) (next_mode row) (world s)
    = Ok (batch, w1) /\
    update_plays cfg fuel batch (next_mode row) (mkState (db s) w1 (log s)) = Ok s2 /\
    s' = if next_mode row then stamp (u_id row) s2 else s2.
Proof.
  unfold cron_user, next_mode. rewrite bind_Ok. split.
  - intros ([batch w1] & Hf & H). inv_bind H.
    exists batch, w1, a. repeat split; try done.
    destruct (u_last_full_scan row); by injection H as <-.
  - intros (batch & w1 & s2 & Hf & Hu & ->). exists (batch, w1). split; [done|].
    apply bind_Ok. exists s2. split; [done|].
    by destruct (u_last_full_scan row).
Qed.



Lemma admin_full_scan_Ok fuel username s s' user :
  List.find (fun u => String.eqb (u_username u) username && u_is_active u)
            (bgg_users (db s)) = Some user ->
  admin_full_scan cfg fuel username s = Ok s' <->
  exists batch w1 s2,
    fetch_plays_for_user cfg fuel username (u_id user) true (world s) = Ok (batch, w1) /\
    update_plays cfg fuel batch true
      (sql_clear_plays (u_id user) (mkState (db s) w1 (log s))) = Ok s2 /\
    s' = stamp (u_id user) s2.
Proof.
  intros Hfind. unfold admin_full_scan. rewrite Hfind, bind_Ok. split.
  - intros ([batch w1] & Hf & H). inv_bind H. injection H as <-.
    exists batch, w1, a. done.
  - intros (batch & w1 & s2 & Hf & Hu & ->). exists (batch, w1). split; [done|].
    apply bind_Ok. exists s2. done.
Qed.




Lemma sql_clear_plays_lookup user_id s (i : Z) (row : PlayRow) :
  plays (db (sql_clear_plays user_id s)) !! i = Some row <->
  plays (db s) !! i = Some row /\ r_user_id row <> user_id.
Proof. unfold sql_clear_plays. simpl. by rewrite map_lookup_filter_Some. Qed.

(** After a pass, a stored play whose id is not in the batch was stored
    before the pass. *)
Lemma update_plays_no_new fuel batch full_scan s s' (i : Z) (row : PlayRow) :
  update_plays cfg fuel batch full_scan s = Ok s' ->
  plays (db s') !! i = Some row -> i ∉ bgg_ids batch ->
  plays (db s) !! i = Some row.
Proof.
  intros (s1 & Hloop & Hdet)%update_plays_Ok Hrow Hi.
  rewrite <- (loop_frame _ _ _ _ _ i Hloop Hi).
  destruct batch as [|p0 rest].
  - simpl in Hdet. by injection Hdet as <-.
  - pose proof Hdet as (c & Hc & _)%detect_deleted_cons.
    rewrite (detect_deleted_plays _ _ _ _ _ _ _ i Hdet Hc) in Hrow.
    by case_decide.
Qed.

(** C2 (as amended). An admin-triggered full scan of an active user that
    returns has fetched a batch, then deleted every stored play of that
    user, keeping the plays of the other users, then reconciled the batch
    against the store so cleared and stamped the watermark; every play of
    the user that is stored afterwards has its id in the fetched batch. A
    scheduler-selected scan reconciles its batch against the store as it
    is. *)
Theorem admin_full_scan_replaces_history fuel username s s' user :
  List.find (fun u => String.eqb (u_username u) username && u_is_active u)
            (bgg_users (db s)) = Some user ->
  admin_full_scan cfg fuel username s = Ok s' ->
  (exists batch w1 s2,
     fetch_plays_for_user cfg fuel username (u_id user) true (world s) = Ok (batch, w1) /\
     let cleared := sql_clear_plays (u_id user) (mkState (db s) w1 (log s)) in
     (forall (i : Z) (row : PlayRow),
        plays (db cleared) !! i = Some row <->
        plays (db s) !! i = Some row /\ r_user_id row <> u_id user) /\
     update_plays cfg fuel batch true cleared = Ok s2 /\
     s' = stamp (u_id user) s2 /\
     (forall (i : Z) (row : PlayRow),
        plays (db s') !! i = Some row -> r_user_id row = u_id user ->
        i ∈ bgg_ids batch)) /\
  (forall row s0 s0',
     cron_user cfg fuel row s0 = Ok s0' ->
     exists batch w1 s2,
       fetch_plays_for_user cfg fuel (u_username row) (u_id row) (next_mode row) (world s0)
       = Ok (batch, w1) /\
       update_plays cfg fuel batch (next_mode row) (mkState (db s0) w1 (log s0)) = Ok s2 /\
       s0' = if next_mode row then stamp (u_id row) s2 else s2).
Proof.
  intros Hfind Hrun. split; [|intros row s0 s0' H; by apply cron_user_Ok].
  apply (admin_full_scan_Ok _ _ _ _ _ Hfind) in Hrun as (batch & w1 & s2 & Hf & Hu & ->).
  exists batch, w1, s2. split; [done|]. simpl.
  split; [intros i prow; apply sql_clear_plays_lookup|].
  split; [done|]. split; [done|].
  intros i prow Hrow Huser. simpl in Hrow.
  destruct (decide (i ∈ bgg_ids batch)) as [|Hi]; [done|]. exfalso.
  pose proof (update_plays_no_new _ _ _ _ _ _ _ Hu Hrow Hi) as Hc.
  apply sql_clear_plays_lookup in Hc as [_ Hne]. done.
Qed.


End Scheduler.

(** ** The pass returns *)

Section Totality.

Context {W : Type} `{!Remote W} {unicode : Py.Text} (cfg : Config).

Implicit Types (s : State W) (w : W).

Lemma fetch_game_info_returns fuel game_id w :
  answers_within cfg fuel game_id w = true ->
  exists info w', fetch_game_info cfg fuel game_id w = Ok (info, w').
Proof.
  revert w. induction fuel as [|fuel IH]; intros w H; simpl in *; [done|].
  destruct (requests_get _ w) as [r w1].
  destruct (status_code r =? 202); [by apply IH|].
  destruct (negb (status_code r =? 200)); [by eauto|]. simpl in H.
  apply bool_decide_eq_true in H as [root ->].
  destruct (ET.find root "item"); eauto.
Qed.

Lemma update_plays_step_returns fuel p s :
  (forall game_id w, answers_within cfg fuel game_id w = true) ->
  exists s', update_plays_step cfg fuel p s = Ok s'.
Proof.
  intros Hrem. unfold update_plays_step.
  destruct (_ && negb _); [by eauto|].
  destruct (negb _ && _); [|by eauto].
  destruct (games _ !! _); [by eauto|].
  destruct (fetch_game_info_returns fuel (p_game_id p)
              (world (log_resolve (p_game_id p) (sql_insert_play p s))) (Hrem _ _))
    as (info & w' & ->).
  simpl. eauto.
Qed.

Lemma update_plays_loop_returns fuel batch s :
  (forall game_id w, answers_within cfg fuel game_id w = true) ->
  exists s', update_plays_loop cfg fuel batch s = Ok s'.
Proof.
  intros Hrem. revert s. induction batch as [|p rest IH]; intros s; simpl; [by eauto|].
  destruct (update_plays_step_returns fuel p s Hrem) as [s1 ->]. simpl. apply IH.
Qed.

Lemma prev_day_returns (d : datetime) :
  Datetime.valid_date d -> 2 <= year d ->
  exists d', Datetime.prev_day d = Some d' /\ year d - 1 <= year d'.
Proof.
  intros (Hy & Hm & Hd) H2. unfold Datetime.prev_day, Datetime.with_date.
  destruct (1 <? day d); [eexists; split; [done|simpl; lia]|].
  destruct (1 <? month d); [eexists; split; [done|simpl; lia]|].
  destruct (1 <? year d) eqn:E; [eexists; split; [done|simpl; lia]|].
  apply Z.ltb_ge in E. lia.
Qed.

Lemma minus_days_returns (n : nat) (d : datetime) :
  Datetime.valid_date d -> 1 + Z.of_nat n <= year d ->
  exists d', Datetime.minus_days n d = Some d'.
Proof.
  revert d. induction n as [|n IH]; intros d Hv Hy; simpl; [by eauto|].
  destruct (prev_day_returns d Hv) as (d1 & Hp & Hy1); [lia|].
  rewrite Hp. apply IH; [|lia].
  by destruct (DateOrder.prev_day_spec _ _ Hv Hp).
Qed.

(** When the service settles every game look-up within [fuel] requests and
    the clock shows a valid date after the year 14, a pass returns. *)
Lemma update_plays_returns fuel batch full_scan s :
  (forall game_id w, answers_within cfg fuel game_id w = true) ->
  (forall w, Datetime.valid (datetime_today w) /\ 15 <= year (datetime_today w)) ->
  exists s', update_plays cfg fuel batch full_scan s = Ok s'.
Proof.
  intros Hrem Hclock.
  destruct (update_plays_loop_returns fuel batch s Hrem) as [s1 H1].
  unfold update_plays. rewrite H1. simpl.
  destruct batch as [|p0 rest]; [by eauto|]. simpl.
  destruct full_scan; simpl; [by eauto|].
  unfold rescan_cutoff, Datetime.sub_days.
  destruct (Hclock (world s1)) as [Hv Hy].
  destruct (minus_days_returns RESCAN_DAYS (datetime_today (world s1))) as [d ->].
  - by apply DateOrder.valid_valid_date.
  - unfold RESCAN_DAYS. lia.
  - simpl. eauto.
Qed.

End Totality.

(** * Concrete runs *)

Ltac run := vm_compute; reflexivity.
Ltac decided := apply (bool_decide_unpack _); vm_compute; exact I.

(** ** Python values *)

Example isoformat_microseconds :
  Datetime.isoformat (mkDatetime 2026 11 3 9 5 0 1234) = "2026-11-03T09:05:00.001234" /\
  Datetime.isoformat (mkDatetime 2026 11 3 9 5 0 0) = "2026-11-03T09:05:00".
Proof. split; reflexivity. Qed.

Example minus_days_leap_year :
  Datetime.date_string <$> Datetime.minus_days 14 (mkDatetime 2024 3 10 0 0 0 0)
  = Some "2024-02-25" /\
  Datetime.date_string <$> Datetime.minus_days 14 (mkDatetime 2026 1 5 0 0 0 0)
  = Some "2025-12-22" /\
  Datetime.minus_days 14 (mkDatetime 1 1 10 0 0 0 0) = None.
Proof. repeat split; reflexivity. Qed.

Example int_literals `{!Py.Text} :
  Py.int (Some "-42") = Ok (-42) /\ Py.int (Some "007") = Ok 7 /\
  Py.int None = Raise TypeError.
Proof.
  unfold Py.int. rewrite !Py.int_of_decimal by reflexivity.
  repeat split; reflexivity.
Qed.

Example upper_ascii_letters `{!Py.Text} : Py.upper "Game Club 7" = "GAME CLUB 7".
Proof. by rewrite Py.upper_of_ascii. Qed.

(** A date compares below the ISO string of the same day with a time. *)
Example date_below_datetime :
  Py.str_lt "2026-10-20" "2026-10-20T12:00:00" = true /\
  Py.str_ge "2026-10-21" "2026-10-20T12:00:00" = true.
Proof. split; reflexivity. Qed.

(** ** Deletion detection *)

(** A pass over an empty batch deletes nothing, in either mode: play 7 of
    user 1, dated inside both windows and absent from the batch, stays. *)
Lemma empty_batch_deletes_nothing :
  update_plays Sim.cfg 1 [] false Sim.s_two = Ok Sim.s_two /\
  update_plays Sim.cfg 1 [] true Sim.s_two = Ok Sim.s_two /\
  plays (db Sim.s_two) !! 7 = Some (mkPlay 5 "2026-10-28" 1) /\
  cutoff_date Sim.cfg false (world Sim.s_two) = Ok "2026-10-20T12:00:00" /\
  Py.str_ge "2026-10-28" "2026-10-20T12:00:00" = true /\
  cutoff_date Sim.cfg true (world Sim.s_two) = Ok "2020-01-01" /\
  Py.str_ge "2026-10-28" "2020-01-01" = true /\
  7 ∉ bgg_ids [].
Proof. repeat split; try run. decided. Qed.

Lemma update_plays_deletes_unobserved_witness :
  update_plays_loop Sim.cfg 1 [Sim.rec11] Sim.s_two
  = Ok (mkState (mkDB [] {[5 := Sim.catan]} (<[11 := row_of Sim.rec11]> Sim.two_plays))
                Sim.silent [EvInsertPlay 11 5]) /\
  cutoff_date Sim.cfg false Sim.silent = Ok "2026-10-20T12:00:00" /\
  exists s', update_plays Sim.cfg 1 [Sim.rec11] false Sim.s_two = Ok s' /\
             plays (db s') !! 7 = None.
Proof.
  assert (update_plays_loop Sim.cfg 1 [Sim.rec11] Sim.s_two
    = Ok (mkState (mkDB [] {[5 := Sim.catan]} (<[11 := row_of Sim.rec11]> Sim.two_plays))
                  Sim.silent [EvInsertPlay 11 5])) as H1 by run.
  assert (cutoff_date Sim.cfg false Sim.silent = Ok "2026-10-20T12:00:00") as H2 by run.
  split; [exact H1|]. split; [exact H2|].
  destruct (update_plays_deletes_unobserved Sim.cfg 1 Sim.rec11 [] false Sim.s_two _ _ H1 H2)
    as (_ & s' & Hrun & Hdel & _).
  exists s'. split; [exact Hrun|].
  apply (Hdel 7 (mkPlay 5 "2026-10-28" 1)); try run. decided.
Defined.

Lemma detect_deleted_spares_older_witness :
  update_plays_loop Sim.cfg 1 [Sim.rec11] Sim.s_two
  = Ok (mkState (mkDB [] {[5 := Sim.catan]} (<[11 := row_of Sim.rec11]> Sim.two_plays))
                Sim.silent [EvInsertPlay 11 5]) /\
  detect_deleted Sim.cfg [Sim.rec11] false
    (mkState (mkDB [] {[5 := Sim.catan]} (<[11 := row_of Sim.rec11]> Sim.two_plays))
             Sim.silent [EvInsertPlay 11 5])
  = Ok (mkState (mkDB [] {[5 := Sim.catan]}
                      {[11 := row_of Sim.rec11; 3 := mkPlay 5 "2026-10-04" 1]})
                Sim.silent [EvInsertPlay 11 5; EvDeletePlay 7]) /\
  plays (db Sim.s_two) !! 3 = Some (mkPlay 5 "2026-10-04" 1) /\
  (3 ∉ bgg_ids [Sim.rec11]) /\
  Datetime.valid Sim.clock /\
  Datetime.days_ago 30 Sim.clock "2026-10-04" /\
  plays (db (mkState (mkDB [] {[5 := Sim.catan]}
                        {[11 := row_of Sim.rec11; 3 := mkPlay 5 "2026-10-04" 1]})
                  Sim.silent [EvInsertPlay 11 5; EvDeletePlay 7])) !! 3
  = Some (mkPlay 5 "2026-10-04" 1).
Proof.
  assert (update_plays_loop Sim.cfg 1 [Sim.rec11] Sim.s_two
    = Ok (mkState (mkDB [] {[5 := Sim.catan]} (<[11 := row_of Sim.rec11]> Sim.two_plays))
                  Sim.silent [EvInsertPlay 11 5])) as H1 by run.
  assert (detect_deleted Sim.cfg [Sim.rec11] false
      (mkState (mkDB [] {[5 := Sim.catan]} (<[11 := row_of Sim.rec11]> Sim.two_plays))
               Sim.silent [EvInsertPlay 11 5])
    = Ok (mkState (mkDB [] {[5 := Sim.catan]}
                        {[11 := row_of Sim.rec11; 3 := mkPlay 5 "2026-10-04" 1]})
                  Sim.silent [EvInsertPlay 11 5; EvDeletePlay 7])) as H2 by run.
  assert (plays (db Sim.s_two) !! 3 = Some (mkPlay 5 "2026-10-04" 1)) as H3 by run.
  assert (3 ∉ bgg_ids [Sim.rec11]) as H4 by decided.
  assert (Datetime.valid Sim.clock) as H5 by (vm_compute; repeat split; discriminate).
  assert (Datetime.days_ago 30 Sim.clock "2026-10-04") as H6.
  { exists (mkDatetime 2026 10 4 12 0 0 0). split; reflexivity. }
  repeat (split; [assumption|]).
  exact (proj2 (detect_deleted_spares_older Sim.cfg 1 [Sim.rec11] false Sim.s_two _ _ 3
                  (mkPlay 5 "2026-10-04" 1) H1 H2 H3 H4) eq_refl H5 H6).
Defined.

(** ** Running a pass twice *)

(** The second run of a pass over two records of play 1, the first at the
    target location and the second elsewhere, inserts play 1, looks up game
    5, inserts its Game row and deletes play 1 again: the games table after
    two runs is not the one after one run. *)
Lemma second_run_inserts_game :
  update_plays Sim.cfg 1 Sim.moved_batch false Sim.s_moved
  = Ok (mkState Sim.empty_db Sim.silent [EvDeletePlay 1]) /\
  update_plays Sim.cfg 1 Sim.moved_batch false (mkState Sim.empty_db Sim.silent [])
  = Ok (mkState (mkDB [] {[5 := no_info]} ∅) Sim.silent
          [EvInsertPlay 1 5; EvResolve 5; EvInsertGame 5; EvDeletePlay 1]) /\
  games (mkDB [] {[5 := no_info]} ∅) <> games Sim.empty_db.
Proof.
  split; [run|]. split; [run|].
  intros H. apply (f_equal (fun m : gmap Z GameRow => m !! 5)) in H.
  vm_compute in H. discriminate.
Qed.

Lemma update_plays_idempotent_witness :
  update_plays Sim.cfg 1 [Sim.rec11; Sim.rec12] false Sim.s_two
  = Ok (mkState (mkDB [] {[5 := Sim.catan]}
                   {[11 := row_of Sim.rec11; 12 := row_of Sim.rec12;
                     3 := mkPlay 5 "2026-10-04" 1]})
                Sim.silent [EvInsertPlay 11 5; EvInsertPlay 12 5; EvDeletePlay 7]) /\
  consistent [Sim.rec11; Sim.rec12] /\
  update_plays Sim.cfg 1 [Sim.rec11; Sim.rec12] false
    (mkState (mkDB [] {[5 := Sim.catan]}
                {[11 := row_of Sim.rec11; 12 := row_of Sim.rec12;
                  3 := mkPlay 5 "2026-10-04" 1]}) Sim.silent [])
  = Ok (mkState (mkDB [] {[5 := Sim.catan]}
                {[11 := row_of Sim.rec11; 12 := row_of Sim.rec12;
                  3 := mkPlay 5 "2026-10-04" 1]}) Sim.silent []).
Proof.
  assert (update_plays Sim.cfg 1 [Sim.rec11; Sim.rec12] false Sim.s_two
    = Ok (mkState (mkDB [] {[5 := Sim.catan]}
                     {[11 := row_of Sim.rec11; 12 := row_of Sim.rec12;
                       3 := mkPlay 5 "2026-10-04" 1]})
                  Sim.silent [EvInsertPlay 11 5; EvInsertPlay 12 5; EvDeletePlay 7]))
    as H1 by run.
  assert (consistent [Sim.rec11; Sim.rec12]) as H2.
  { intros p q Hp Hq.
    apply elem_of_cons in Hp as [->|Hp]; [|apply list_elem_of_singleton in Hp as ->];
    (apply elem_of_cons in Hq as [->|Hq]; [|apply list_elem_of_singleton in Hq as ->]);
    simpl; intros Hid; first [reflexivity|discriminate Hid]. }
  split; [exact H1|]. split; [exact H2|].
  exact (proj1 (update_plays_idempotent Sim.cfg 1 1 _ false _ _ H1 H2)).
Defined.

(** ** Metadata look-ups *)

Lemma one_resolution_per_new_game_witness :
  log (mkState Sim.empty_db (Sim.mkScript Sim.clock [Sim.thing "Catan" "catan.png"]) []) = [] /\
  games Sim.empty_db !! 5 = None /\
  update_plays Sim.cfg 1 [Sim.rec11; Sim.rec12] false
    (mkState Sim.empty_db (Sim.mkScript Sim.clock [Sim.thing "Catan" "catan.png"]) [])
  = Ok (mkState (mkDB [] {[5 := Sim.catan]}
                   {[11 := row_of Sim.rec11; 12 := row_of Sim.rec12]})
                Sim.silent
                [EvInsertPlay 11 5; EvResolve 5; EvInsertGame 5; EvInsertPlay 12 5]) /\
  (exists id, EvInsertPlay id 5 ∈
     [EvInsertPlay 11 5; EvResolve 5; EvInsertGame 5; EvInsertPlay 12 5]) /\
  occurrences (EvResolve 5)
    [EvInsertPlay 11 5; EvResolve 5; EvInsertGame 5; EvInsertPlay 12 5] = 1%nat /\
  occurrences (EvInsertGame 5)
    [EvInsertPlay 11 5; EvResolve 5; EvInsertGame 5; EvInsertPlay 12 5] = 1%nat.
Proof.
  assert (update_plays Sim.cfg 1 [Sim.rec11; Sim.rec12] false
      (mkState Sim.empty_db (Sim.mkScript Sim.clock [Sim.thing "Catan" "catan.png"]) [])
    = Ok (mkState (mkDB [] {[5 := Sim.catan]}
                     {[11 := row_of Sim.rec11; 12 := row_of Sim.rec12]})
                  Sim.silent
                  [EvInsertPlay 11 5; EvResolve 5; EvInsertGame 5; EvInsertPlay 12 5]))
    as H3 by run.
  assert (exists id, EvInsertPlay id 5 ∈
     [EvInsertPlay 11 5; EvResolve 5; EvInsertGame 5; EvInsertPlay 12 5]) as H4.
  { exists 11. apply elem_of_cons. by left. }
  split; [reflexivity|]. split; [reflexivity|]. split; [exact H3|]. split; [exact H4|].
  destruct (one_resolution_per_new_game Sim.cfg 1 [Sim.rec11; Sim.rec12] false
              (mkState Sim.empty_db
                 (Sim.mkScript Sim.clock [Sim.thing "Catan" "catan.png"]) [])
              _ 5 eq_refl eq_refl H3 H4)
    as (Hr & Hi & _).
  split; [exact Hr|exact Hi].
Defined.

Lemma update_branch_leaves_games_witness :
  plays (db Sim.s_two) !! p_id (mkRecord 7 9 "2026-10-29" 1 "CLUB")
  = Some (mkPlay 5 "2026-10-28" 1) /\
  location_is_target Sim.cfg (mkRecord 7 9 "2026-10-29" 1 "CLUB") = true /\
  exists s', update_plays_step Sim.cfg 1 (mkRecord 7 9 "2026-10-29" 1 "CLUB") Sim.s_two
             = Ok s' /\
             plays (db s') !! 7 = Some (mkPlay 9 "2026-10-29" 1) /\
             games (db s') = games (db Sim.s_two) /\
             games (db s') !! 9 = None.
Proof.
  assert (plays (db Sim.s_two) !! p_id (mkRecord 7 9 "2026-10-29" 1 "CLUB")
          = Some (mkPlay 5 "2026-10-28" 1)) as H1 by run.
  assert (location_is_target Sim.cfg (mkRecord 7 9 "2026-10-29" 1 "CLUB") = true)
    as H2 by run.
  split; [exact H1|]. split; [exact H2|].
  destruct (update_branch_leaves_games Sim.cfg 1 _ _ _ H1 H2)
    as (s' & Hstep & Hplays & Hgames & _ & _ & _ & Hdangling).
  exists s'. split; [exact Hstep|].
  destruct (Hdangling eq_refl) as (row' & Hrow' & Hg & Hnone).
  rewrite Hplays. split; [run|]. split; [exact Hgames|].
  rewrite Hgames. run.
Defined.

(** ** The fetcher *)

(** With the target location configured as [club], the play logged at
    [Club] is fetched with location [CLUB]; the upper-cased record location
    equals the upper-cased target, yet the record is not in scope and the
    pass does not insert it. *)
Lemma lower_case_target_never_matches :
  fetch_plays_for_user Sim.cfg_lower 2 "ann" 1 true
    (Sim.mkScript Sim.clock [Sim.page11; Sim.page []])
  = Ok ([Sim.rec11], Sim.silent) /\
  Py.upper (p_location Sim.rec11) = Py.upper "club" /\
  location_is_target Sim.cfg_lower Sim.rec11 = false /\
  update_plays Sim.cfg_lower 1 [Sim.rec11] true (mkState Sim.empty_db Sim.silent [])
  = Ok (mkState Sim.empty_db Sim.silent []).
Proof. repeat split; run. Qed.

Lemma location_compared_with_configured_target_witness :
  fetch_plays_for_user Sim.cfg 2 "ann" 1 true
    (Sim.mkScript Sim.clock [Sim.page11; Sim.page []])
  = Ok ([Sim.rec11], Sim.silent) /\
  Sim.rec11 ∈ [Sim.rec11] /\
  exists p loc,
    served Sim.cfg "ann" (Sim.mkScript Sim.clock [Sim.page11; Sim.page []]) p /\
    Py.int (ET.get p "id") = Ok 11 /\
    ET.get p "location" = Some loc /\
    p_location Sim.rec11 = Py.upper loc /\
    (location_is_target Sim.cfg Sim.rec11 = true <->
     GAME_LOCATION Sim.cfg = Some (Py.upper loc)).
Proof.
  assert (fetch_plays_for_user Sim.cfg 2 "ann" 1 true
      (Sim.mkScript Sim.clock [Sim.page11; Sim.page []])
    = Ok ([Sim.rec11], Sim.silent)) as H1 by run.
  assert (Sim.rec11 ∈ [Sim.rec11]) as H2 by (apply elem_of_cons; by left).
  split; [exact H1|]. split; [exact H2|].
  exact (proj1 (location_compared_with_configured_target
                  Sim.cfg 2 "ann" 1 true _ _ _ _ H1 H2)).
Defined.

Lemma fetch_stops_before_start_date_witness :
  requests_get (mkRequest (PlaysUrl "ann" 2) (headers Sim.cfg))
    (Sim.mkScript Sim.clock [Sim.page [Sim.play_elem "2" "2019-12-31" "Club" (Some "5")]])
  = (Sim.page [Sim.play_elem "2" "2019-12-31" "Club" (Some "5")], Sim.silent) /\
  status_code (Sim.page [Sim.play_elem "2" "2019-12-31" "Club" (Some "5")]) = 200 /\
  xml (Sim.page [Sim.play_elem "2" "2019-12-31" "Club" (Some "5")])
  = Some (Elem "plays" [] None [Sim.play_elem "2" "2019-12-31" "Club" (Some "5")]) /\
  ET.findall (Elem "plays" [] None [Sim.play_elem "2" "2019-12-31" "Club" (Some "5")]) "play"
  = [Sim.play_elem "2" "2019-12-31" "Club" (Some "5")] /\
  ET.get (Sim.play_elem "2" "2019-12-31" "Club" (Some "5")) "date" = Some "2019-12-31" /\
  START_YEAR Sim.cfg = Some "2020" /\
  fetch_loop Sim.cfg 1 "ann" 1 "2020-01-01" 2 [Sim.rec11]
    (Sim.mkScript Sim.clock [Sim.page [Sim.play_elem "2" "2019-12-31" "Club" (Some "5")]])
  = Ok ([Sim.rec11], Sim.silent).
Proof.
  repeat (split; [reflexivity|]).
  exact (proj2 (fetch_stops_before_start_date Sim.cfg 0 "ann" 1 "2020-01-01" 2 [Sim.rec11]
                  (Sim.mkScript Sim.clock
                     [Sim.page [Sim.play_elem "2" "2019-12-31" "Club" (Some "5")]])
                  _ _ _ _ [] "2019-12-31" eq_refl eq_refl eq_refl eq_refl eq_refl)
               eq_refl eq_refl).
Defined.

(** A full scan over a page of 2026 and a page of 2019 returns the play of
    the first page only. *)
Example fetch_two_pages :
  fetch_plays_for_user Sim.cfg 2 "ann" 1 true Sim.w_2019 = Ok ([Sim.rec11], Sim.silent).
Proof. run. Qed.

(** A page holds a play without location that is older than the re-scan
    window: the incremental fetch returns the plays gathered before it and
    raises nothing. *)
Lemma old_play_without_location_returns :
  ET.get (Sim.play_elem_noloc "9" "2026-10-01" (Some "5")) "location" = None /\
  fetch_plays_for_user Sim.cfg 1 "ann" 1 false Sim.w_old_noloc
  = Ok ([Sim.rec11], Sim.silent).
Proof. split; run. Qed.

Lemma fetch_raises_without_location_witness :
  requests_get (mkRequest (PlaysUrl "ann" 1) (headers Sim.cfg)) Sim.w_noloc
  = (Sim.page [Sim.play_elem "11" "2026-11-01" "Club" (Some "5");
               Sim.play_elem_noloc "9" "2026-10-25" None], Sim.silent) /\
  ET.get (Sim.play_elem_noloc "9" "2026-10-25" None) "location" = None /\
  ET.find (Sim.play_elem_noloc "9" "2026-10-25" None) "item" = None /\
  fetch_loop Sim.cfg 1 "ann" 1 "2026-10-20T12:00:00" 1 [] Sim.w_noloc
  = Raise AttributeError.
Proof.
  repeat (split; [reflexivity|]).
  exact (fetch_raises_without_location Sim.cfg 0 "ann" 1 "2026-10-20T12:00:00" 1 [] [Sim.rec11]
           Sim.w_noloc _ _ _
           [Sim.play_elem "11" "2026-11-01" "Club" (Some "5")] []
           (Sim.play_elem_noloc "9" "2026-10-25" None)
           (Sim.play_elem "11" "2026-11-01" "Club" (Some "5"))
           "2026-11-01" 9 "2026-10-25"
           eq_refl eq_refl eq_refl eq_refl eq_refl eq_refl eq_refl eq_refl eq_refl
           eq_refl eq_refl eq_refl).
Defined.

(** ** The scheduler and the admin full scan *)

(** The sweep picks Full mode for the never scanned user 1; the service
    answers 500, the batch is empty, and play 3 of user 1 is still stored
    after the sweep, which has stamped the watermark. *)
Lemma cron_full_scan_keeps_history :
  next_mode Sim.ann = true /\
  plays (db Sim.s_unscanned) !! 3 = Some (mkPlay 5 "2026-10-04" 1) /\
  cron_update Sim.cfg 1 Sim.s_unscanned
  = Ok (mkState (mkDB [mkUser 1 "ann" true (Some "2026-11-03T12:00:00")] ∅
                      {[3 := mkPlay 5 "2026-10-04" 1]}) Sim.silent []).
Proof. repeat split; run. Qed.

(** The same sweep with a service that serves play 11: the stored play 3 is
    dated inside the full-scan window and absent from the batch, so the
    diff logic deletes it, while a play of 2019 would stay. *)
Example cron_full_scan_served :
  cron_update Sim.cfg 2 Sim.s_served
  = Ok (mkState (mkDB [mkUser 1 "ann" true (Some "2026-11-03T12:00:00")]
                      {[5 := Sim.catan]} {[11 := row_of Sim.rec11]})
                Sim.silent
                [EvInsertPlay 11 5; EvResolve 5; EvInsertGame 5; EvDeletePlay 3]).
Proof. run. Qed.

Lemma admin_full_scan_replaces_history_witness :
  List.find (fun u => String.eqb (u_username u) "ann" && u_is_active u)
            (bgg_users (db Sim.s_served)) = Some Sim.ann /\
  admin_full_scan Sim.cfg 2 "ann" Sim.s_served
  = Ok (mkState (mkDB [mkUser 1 "ann" true (Some "2026-11-03T12:00:00")]
                      {[5 := Sim.catan]} {[11 := row_of Sim.rec11]})
                Sim.silent
                [EvClearPlays 1; EvInsertPlay 11 5; EvResolve 5; EvInsertGame 5]) /\
  exists batch w1 s2,
    fetch_plays_for_user Sim.cfg 2 "ann" 1 true (world Sim.s_served) = Ok (batch, w1) /\
    update_plays Sim.cfg 2 batch true
      (sql_clear_plays 1 (mkState (db Sim.s_served) w1 (log Sim.s_served))) = Ok s2 /\
    forall (i : Z) (row : PlayRow),
      plays (db (sql_clear_plays 1 (mkState (db Sim.s_served) w1 (log Sim.s_served)))) !! i
      = Some row -> r_user_id row <> 1.
Proof.
  assert (List.find (fun u => String.eqb (u_username u) "ann" && u_is_active u)
            (bgg_users (db Sim.s_served)) = Some Sim.ann) as H1 by reflexivity.
  assert (admin_full_scan Sim.cfg 2 "ann" Sim.s_served
    = Ok (mkState (mkDB [mkUser 1 "ann" true (Some "2026-11-03T12:00:00")]
                        {[5 := Sim.catan]} {[11 := row_of Sim.rec11]})
                  Sim.silent
                  [EvClearPlays 1; EvInsertPlay 11 5; EvResolve 5; EvInsertGame 5]))
    as H2 by run.
  split; [exact H1|]. split; [exact H2|].
  destruct (admin_full_scan_replaces_history Sim.cfg 2 "ann" _ _ _ H1 H2)
    as [(batch & w1 & s2 & Hf & Hclear & Hu & _ & _) _].
  exists batch, w1, s2. split; [exact Hf|]. split; [exact Hu|].
  intros i row Hrow. apply Hclear in Hrow as [_ Hne]. exact Hne.
Defined.



(** * Further properties *)

(** ** The reconciler, continued *)

Section ReconcilerMore.

Context {W : Type} `{!Remote W} {unicode : Py.Text} (cfg : Config).

Implicit Types (s : State W) (p : PlayRecord) (batch : list PlayRecord).

(** X2. After a pass over a batch in which records that share a play id are
    identical, a play id of the batch is stored exactly when its record is at
    the target location, and the stored row then holds the record's game id,
    play date and user id. *)
Theorem update_plays_stores_target_records fuel batch full_scan s s' p (row : PlayRow) :
  update_plays cfg fuel batch full_scan s = Ok s' ->
  consistent batch ->
  p ∈ batch ->
  plays (db s') !! p_id p = Some row <->
  location_is_target cfg p = true /\
  row = mkPlay (p_game_id p) (p_play_date p) (p_user_id p).
Proof.
  intros Hrun Hc Hp.
  rewrite (update_plays_settles cfg _ _ _ _ _ _ Hrun Hc Hp). unfold settled.
  destruct (location_is_target cfg p); split.
  - by intros [= <-].
  - by intros [_ ->].
  - done.
  - by intros [? _].
Qed.

Lemma update_plays_lookup_cases fuel batch full_scan s s' (i : Z) (row : PlayRow) :
  update_plays cfg fuel batch full_scan s = Ok s' ->
  plays (db s') !! i = Some row ->
  ((i ∉ bgg_ids batch) /\ plays (db s) !! i = Some row) \/
  exists p, p ∈ batch /\ p_id p = i /\ location_is_target cfg p = true /\
            row = row_of p.
Proof.
  intros (s1 & Hloop & Hdet)%(update_plays_Ok cfg) Hrow.
  assert (plays (db s1) !! i = Some row) as H1.
  { destruct batch as [|p0 rest].
    - simpl in Hdet. by injection Hdet as <-.
    - pose proof Hdet as (c & Hc & _)%detect_deleted_cons.
      rewrite (detect_deleted_plays cfg _ _ _ _ _ _ i Hdet Hc) in Hrow.
      by case_decide. }
  rewrite (loop_plays_lookup cfg _ _ _ _ i Hloop) in H1.
  destruct (last_for i batch) as [q|] eqn:Hl.
  - right. apply last_for_id in Hl as [Hid Hq]. exists q.
    unfold settled in H1. destruct (location_is_target cfg q); [|done].
    injection H1 as <-. done.
  - left. split; [|done]. by apply last_for_None.
Qed.

(** X3. Whatever the batch, a row of the plays table after a pass was
    either stored before the pass under the same id, which is then not an id
    of the batch, or it is the row of a record of the batch that is at the
    target location: a pass stores no play observed elsewhere and changes no
    row outside the batch. *)
Theorem update_plays_stores_nothing_else fuel batch full_scan s s' (i : Z) (row : PlayRow) :
  update_plays cfg fuel batch full_scan s = Ok s' ->
  plays (db s') !! i = Some row ->
  ((i ∉ bgg_ids batch) /\ plays (db s) !! i = Some row) \/
  exists p, p ∈ batch /\ p_id p = i /\ location_is_target cfg p = true /\
            row = mkPlay (p_game_id p) (p_play_date p) (p_user_id p).
Proof. apply update_plays_lookup_cases. Qed.

(** X4. A pass deletes outside its batch only plays of the user of the
    batch's first record: a stored play of another user whose id is not in
    the batch is stored unchanged after the pass, whatever its date. *)
Theorem update_plays_keeps_other_users fuel p0 rest full_scan s s' (i : Z) (row : PlayRow) :
  update_plays cfg fuel (p0 :: rest) full_scan s = Ok s' ->
  plays (db s) !! i = Some row ->
  i ∉ bgg_ids (p0 :: rest) ->
  r_user_id row <> p_user_id p0 ->
  plays (db s') !! i = Some row.
Proof.
  intros (s1 & Hloop & Hdet)%(update_plays_Ok cfg) Hrow Hi Huser.
  rewrite <- (loop_frame cfg _ _ _ _ i Hloop Hi) in Hrow.
  pose proof Hdet as (c & Hc & _)%detect_deleted_cons.
  rewrite (detect_deleted_plays cfg _ _ _ _ _ _ i Hdet Hc).
  rewrite decide_False; [done|].
  unfold deleted_ids. rewrite elem_of_difference, elem_of_db_ids.
  intros [(row' & Hrow' & Hu & _) _]. congruence.
Qed.

(** The games table only grows in a pass. *)
Lemma step_keeps_games fuel p s s' (g : Z) (info : GameRow) :
  update_plays_step cfg fuel p s = Ok s' ->
  games (db s) !! g = Some info -> games (db s') !! g = Some info.
Proof.
  intros H Hg.
  apply step_cases in H
    as [(_ & _ & ->)|[(_ & _ & _ & ->)|[(_ & _ & Hnone & i & w' & _ & ->)|(_ & ->)]]];
    try done.
  - simpl. rewrite lookup_insert_ne; [done|]. congruence.
  - by rewrite sql_update_play_games.
Qed.

Lemma loop_keeps_games fuel batch s s' (g : Z) (info : GameRow) :
  update_plays_loop cfg fuel batch s = Ok s' ->
  games (db s) !! g = Some info -> games (db s') !! g = Some info.
Proof.
  revert s. induction batch as [|p rest IH]; simpl; intros s H Hg.
  - by injection H as <-.
  - inv_bind H. eapply IH; eauto. eapply step_keeps_games; eauto.
Qed.

Lemma update_plays_keeps_games fuel batch full_scan s s' (g : Z) (info : GameRow) :
  update_plays cfg fuel batch full_scan s = Ok s' ->
  games (db s) !! g = Some info -> games (db s') !! g = Some info.
Proof.
  intros (s1 & Hloop & Hdet)%(update_plays_Ok cfg) Hg.
  destruct (detect_deleted_rest cfg _ _ _ _ Hdet) as (-> & _ & _).
  eapply loop_keeps_games; eauto.
Qed.

End ReconcilerMore.


(** ** The scheduler and the admin full scan, continued *)

Section SchedulerMore.

Context {W : Type} `{!Remote W} {unicode : Py.Text} (cfg : Config).

Implicit Types (s : State W) (u : UserRow).

(** X5. Every record that a fetch for a user returns carries that user's
    id and a play date not older than the cutoff of the scan, the full-scan
    start date in Full mode included, whatever the pages of the service
    hold. *)
Theorem fetched_records_belong_to_user fuel username user_id full_scan (w : W) batch w' r :
  fetch_plays_for_user cfg fuel username user_id full_scan w = Ok (batch, w') ->
  r ∈ batch ->
  p_user_id r = user_id /\
  exists cutoff, cutoff_date cfg full_scan w = Ok cutoff /\
                 Py.str_ge (p_play_date r) cutoff = true /\
                 (full_scan = true -> cutoff = START_DATE cfg).
Proof.
  intros Hf Hr.
  destruct (fetch_plays_records cfg _ _ _ _ _ _ _ r Hf Hr)
    as (c & p & loc & Hc & (_ & _ & Hge & _ & _ & Hu)).
  split; [done|]. exists c. repeat split; try done.
  intros ->. by injection Hc as <-.
Qed.

Lemma scan_page_extends user_id cutoff (elems : list Element) acc res :
  scan_page user_id cutoff elems acc = Ok res ->
  exists more, page_plays res = acc ++ more.
Proof.
  revert acc. induction elems as [|p elems IH]; intros acc H; simpl in H.
  - injection H as <-. exists []. by rewrite app_nil_r.
  - destruct (Py.int (ET.get p "id")) as [play_id| |]; simpl in H; try done.
    destruct (ET.get p "date") as [play_date|]; [|done].
    destruct (Py.str_lt play_date cutoff).
    { injection H as <-. exists []. by rewrite app_nil_r. }
    destruct (Py.opt_upper (ET.get p "location")) as [location| |]; simpl in H; try done.
    destruct (ET.find p "item") as [item|]; [|by apply IH].
    destruct (Py.int (ET.get item "objectid")) as [game_id| |]; simpl in H; try done.
    destruct (IH _ H) as [more ->]. rewrite <- app_assoc. eauto.
Qed.

(** X6. The fetch only appends: whatever the service answers, the plays
    gathered so far are a prefix, in their order, of what the fetch returns,
    also when a later page ends the fetch early. *)
Theorem fetch_loop_extends fuel username user_id cutoff page acc (w : W) batch w' :
  fetch_loop cfg fuel username user_id cutoff page acc w = Ok (batch, w') ->
  exists more, batch = acc ++ more.
Proof.
  revert page acc w. induction fuel as [|fuel IH]; intros page acc w H; [done|].
  rewrite fetch_loop_S in H.
  destruct (requests_get _ w) as [resp w1].
  destruct (status_code resp =? 202); [by eapply IH|].
  assert (exists more, acc = acc ++ more) as Hsame by (exists []; by rewrite app_nil_r).
  destruct (negb (status_code resp =? 200)); [by injection H as <- <-|].
  destruct (xml resp) as [root|]; [|done].
  destruct (ET.findall root "play") as [|p0 elems]; [by injection H as <- <-|].
  inv_bind H. destruct a; [by injection H as <- <-|].
  inv_bind H. destruct (scan_page_extends _ _ _ _ _ Ha0) as [more Hmore].
  destruct a as [l|l]; simpl in Hmore; subst l.
  - injection H as <- <-. eauto.
  - destruct (IH _ _ _ H) as [more' ->]. rewrite <- app_assoc. eauto.
Qed.

(** *** What sweeps and full scans leave alone *)

Lemma stamp_identity user_id s :
  identity_of <$> bgg_users (db (stamp user_id s)) = identity_of <$> bgg_users (db s).
Proof.
  unfold stamp, set_last_full_scan. simpl. rewrite <- list_fmap_compose.
  apply list_fmap_ext. intros i u _. simpl. by destruct (u_id u =? user_id).
Qed.

Lemma cron_user_games fuel row s s' (g : Z) (info : GameRow) :
  cron_user cfg fuel row s = Ok s' ->
  games (db s) !! g = Some info -> games (db s') !! g = Some info.
Proof.
  intros (batch & w1 & s2 & _ & Hu & ->)%cron_user_Ok Hg.
  assert (games (db s2) !! g = Some info)
    by (eapply update_plays_keeps_games; [exact Hu|done]).
  by destruct (next_mode row).
Qed.

Lemma cron_user_identity fuel row s s' :
  cron_user cfg fuel row s = Ok s' ->
  identity_of <$> bgg_users (db s') = identity_of <$> bgg_users (db s).
Proof.
  intros (batch & w1 & s2 & _ & Hu & ->)%cron_user_Ok.
  apply update_plays_users in Hu. simpl in Hu.
  destruct (next_mode row); [rewrite stamp_identity|]; by rewrite Hu.
Qed.

Lemma cron_loop_games fuel users s s' (g : Z) (info : GameRow) :
  cron_loop cfg fuel users s = Ok s' ->
  games (db s) !! g = Some info -> games (db s') !! g = Some info.
Proof.
  revert s. induction users as [|row rest IH]; simpl; intros s H Hg.
  - by injection H as <-.
  - inv_bind H. eapply IH; eauto. eapply cron_user_games; eauto.
Qed.

Lemma cron_loop_identity fuel users s s' :
  cron_loop cfg fuel users s = Ok s' ->
  identity_of <$> bgg_users (db s') = identity_of <$> bgg_users (db s).
Proof.
  revert s. induction users as [|row rest IH]; simpl; intros s H.
  - by injection H as <-.
  - inv_bind H. rewrite (IH _ H). eapply cron_user_identity; eauto.
Qed.

Lemma admin_full_scan_games fuel username s s' (g : Z) (info : GameRow) :
  admin_full_scan cfg fuel username s = Ok s' ->
  games (db s) !! g = Some info -> games (db s') !! g = Some info.
Proof.
  intros H Hg.
  destruct (List.find (fun u => String.eqb (u_username u) username && u_is_active u)
              (bgg_users (db s))) as [user|] eqn:Hfind.
  - destruct (proj1 (admin_full_scan_Ok cfg _ _ _ _ _ Hfind) H)
      as (batch & w1 & s2 & _ & Hu & ->).
    simpl. eapply update_plays_keeps_games; [exact Hu|done].
  - unfold admin_full_scan in H. rewrite Hfind in H. by injection H as <-.
Qed.

Lemma admin_full_scan_identity fuel username s s' :
  admin_full_scan cfg fuel username s = Ok s' ->
  identity_of <$> bgg_users (db s') = identity_of <$> bgg_users (db s).
Proof.
  intros H.
  destruct (List.find (fun u => String.eqb (u_username u) username && u_is_active u)
              (bgg_users (db s))) as [user|] eqn:Hfind.
  - destruct (proj1 (admin_full_scan_Ok cfg _ _ _ _ _ Hfind) H)
      as (batch & w1 & s2 & _ & Hu & ->).
    apply update_plays_users in Hu. simpl in Hu. by rewrite stamp_identity, Hu.
  - unfold admin_full_scan in H. rewrite Hfind in H. by injection H as <-.
Qed.

(** X7. A Game row is never changed or removed by the engine: a row of the
    games table is found unchanged in every store reached later by scheduled
    sweeps and admin full scans. *)
Theorem games_rows_are_kept s s' (g : Z) (info : GameRow) :
  later cfg s s' ->
  games (db s) !! g = Some info ->
  games (db s') !! g = Some info.
Proof.
  induction 1 as [|s s1 s2 fuel w _ IH Hrun|s s1 s2 fuel w username _ IH Hrun];
    intros Hg; [done| |].
  - eapply cron_loop_games; [exact Hrun|]. by apply IH.
  - eapply admin_full_scan_games; [exact Hrun|]. by apply IH.
Qed.

(** X8. Scheduled sweeps and admin full scans change nothing of the users
    table but watermarks: the rows keep their order, ids, usernames and
    active flags in every store reached later. *)
Theorem users_keep_identity s s' :
  later cfg s s' ->
  identity_of <$> bgg_users (db s') = identity_of <$> bgg_users (db s).
Proof.
  induction 1 as [|s s1 s2 fuel w _ IH Hrun|s s1 s2 fuel w username _ IH Hrun];
    [done| |].
  - pose proof (cron_loop_identity _ _ _ _ Hrun) as Hid. simpl in Hid.
    by rewrite Hid.
  - pose proof (admin_full_scan_identity _ _ _ _ Hrun) as Hid. simpl in Hid.
    by rewrite Hid.
Qed.

End SchedulerMore.


(** *** Watermarks *)

Section Watermarks.

Context {W : Type} `{!Remote W} {unicode : Py.Text} (cfg : Config).

Implicit Types (s : State W) (u : UserRow).

Lemma NoDup_fmap_elem {A B : Type} (f : A -> B) (l : list A) (x y : A) :
  NoDup (f <$> l) -> x ∈ l -> y ∈ l -> f x = f y -> x = y.
Proof.
  induction l as [|a l IH]; simpl; intros Hnd Hx Hy Hf.
  - by apply elem_of_nil in Hx.
  - apply NoDup_cons in Hnd as [Ha Hnd].
    apply elem_of_cons in Hx as [->|Hx]; apply elem_of_cons in Hy as [->|Hy].
    + done.
    + exfalso. apply Ha. rewrite Hf. by apply list_elem_of_fmap_2.
    + exfalso. apply Ha. rewrite <- Hf. by apply list_elem_of_fmap_2.
    + by apply IH.
Qed.

Lemma set_last_full_scan_other today user_id (users : list UserRow) u :
  u ∈ users -> u_id u <> user_id -> u ∈ set_last_full_scan today user_id users.
Proof.
  intros Hu Hne. unfold set_last_full_scan. apply list_elem_of_fmap.
  exists u. split; [|done]. apply Z.eqb_neq in Hne. by rewrite Hne.
Qed.

Lemma cron_user_keeps_row fuel row s s' u :
  cron_user cfg fuel row s = Ok s' ->
  u ∈ bgg_users (db s) ->
  (next_mode row = true -> u_id u <> u_id row) ->
  u ∈ bgg_users (db s').
Proof.
  intros (batch & w1 & s2 & _ & Hu & ->)%cron_user_Ok Hin Hne.
  apply update_plays_users in Hu. simpl in Hu. rewrite <- Hu in Hin.
  destruct (next_mode row); [|done].
  simpl. apply set_last_full_scan_other; auto.
Qed.

Lemma cron_loop_keeps_row fuel rows s s' u :
  cron_loop cfg fuel rows s = Ok s' ->
  u ∈ bgg_users (db s) ->
  (forall row, row ∈ rows -> next_mode row = true -> u_id u <> u_id row) ->
  u ∈ bgg_users (db s').
Proof.
  revert s. induction rows as [|row rest IH]; simpl; intros s H Hin Hne.
  - by injection H as <-.
  - inv_bind H. eapply IH; [exact H| |].
    + eapply cron_user_keeps_row; [exact Ha|done|].
      apply Hne, elem_of_cons. by left.
    + intros row' Hrow'. apply Hne, elem_of_cons. by right.
Qed.

Lemma elem_of_active_users (d : DB) u :
  u ∈ active_users d <-> u ∈ bgg_users d /\ u_is_active u = true.
Proof.
  unfold active_users. rewrite !list_elem_of_In, List.filter_In. done.
Qed.

(** X9. When user ids are unique, a sweep that returns changes no row of
    the users table but those of active users without a watermark: a user
    who is inactive, or who has a watermark, keeps the row, and so the
    watermark, as it was. *)
Theorem cron_update_keeps_watermarks fuel s s' u :
  NoDup (u_id <$> bgg_users (db s)) ->
  cron_update cfg fuel s = Ok s' ->
  u ∈ bgg_users (db s) ->
  u_is_active u = false \/ next_mode u = false ->
  u ∈ bgg_users (db s').
Proof.
  intros Hnd Hrun Hu Hcase. unfold cron_update in Hrun.
  eapply cron_loop_keeps_row; [exact Hrun|done|].
  intros row [Hrow Hact]%elem_of_active_users Hmode Hid.
  assert (u = row) as -> by (eapply (NoDup_fmap_elem u_id); eauto).
  destruct Hcase; congruence.
Qed.

(** A pass keeps a stored play outside its batch that is not of the user
    of the first record. *)
Lemma update_plays_keeps_foreign fuel batch full_scan s s' (i : Z) (row : PlayRow) :
  update_plays cfg fuel batch full_scan s = Ok s' ->
  plays (db s) !! i = Some row ->
  i ∉ bgg_ids batch ->
  (forall p0, head batch = Some p0 -> r_user_id row <> p_user_id p0) ->
  plays (db s') !! i = Some row.
Proof.
  intros (s1 & Hloop & Hdet)%(update_plays_Ok cfg) Hrow Hi Huser.
  rewrite <- (loop_frame cfg _ _ _ _ i Hloop Hi) in Hrow.
  destruct batch as [|p0 rest].
  - simpl in Hdet. by injection Hdet as <-.
  - pose proof Hdet as (c & Hc & _)%detect_deleted_cons.
    rewrite (detect_deleted_plays cfg _ _ _ _ _ _ i Hdet Hc).
    rewrite decide_False; [done|].
    unfold deleted_ids. rewrite elem_of_difference, elem_of_db_ids.
    intros [(row' & Hrow' & Hu & _) _].
    apply (Huser p0); [done|congruence].
Qed.

(** X10. An admin full scan of one user keeps the plays of the others: a
    stored play of another user whose id is not among the fetched play ids
    is stored unchanged after the scan. *)
Theorem admin_full_scan_keeps_other_users
  fuel username s s' user batch w1 (i : Z) (row : PlayRow) :
  List.find (fun u => String.eqb (u_username u) username && u_is_active u)
            (bgg_users (db s)) = Some user ->
  admin_full_scan cfg fuel username s = Ok s' ->
  fetch_plays_for_user cfg fuel username (u_id user) true (world s) = Ok (batch, w1) ->
  plays (db s) !! i = Some row ->
  r_user_id row <> u_id user ->
  i ∉ bgg_ids batch ->
  plays (db s') !! i = Some row.
Proof.
  intros Hfind Hrun Hf Hrow Huser Hi.
  destruct (proj1 (admin_full_scan_Ok cfg _ _ _ _ _ Hfind) Hrun)
    as (batch' & w1' & s2 & Hf' & Hu & ->).
  rewrite Hf in Hf'. injection Hf' as <- <-. simpl.
  eapply update_plays_keeps_foreign; [exact Hu| |done|].
  - apply sql_clear_plays_lookup. done.
  - intros p0 Hhead.
    destruct (fetch_plays_records cfg _ _ _ _ _ _ _ p0 Hf)
      as (c & p & loc & _ & (_ & _ & _ & _ & _ & Hid)).
    + destruct batch; [done|]. injection Hhead as ->. apply elem_of_cons. by left.
    + by rewrite Hid.
Qed.

(** X11. An admin full scan of an active user that returns stamps every
    row of that user with the clock reading at the end of the scan, whether
    or not the user had a watermark, so that the scheduler picks Incremental
    mode for the user from then on. *)
Theorem admin_full_scan_stamps fuel username s s' user u :
  List.find (fun u => String.eqb (u_username u) username && u_is_active u)
            (bgg_users (db s)) = Some user ->
  admin_full_scan cfg fuel username s = Ok s' ->
  u ∈ bgg_users (db s') ->
  u_id u = u_id user ->
  u_last_full_scan u = Some (Datetime.isoformat_seconds (datetime_today (world s'))) /\
  next_mode u = false.
Proof.
  intros Hfind Hrun Hu Hid.
  destruct (proj1 (admin_full_scan_Ok cfg _ _ _ _ _ Hfind) Hrun)
    as (batch & w1 & s2 & _ & _ & ->).
  unfold stamp, set_last_full_scan in Hu. simpl in Hu.
  apply list_elem_of_fmap in Hu as (u0 & -> & Hu0).
  destruct (u_id u0 =? u_id user) eqn:E.
  - done.
  - apply Z.eqb_neq in E. done.
Qed.

End Watermarks.


(** ** The admin endpoints *)

Section EndpointsProps.

Context {W : Type} `{!Remote W} {unicode : Py.Text} (cfg : Config).

Implicit Types (s : State W) (u : UserRow) (d : DB) (session : Session).

(** X12. A login request leaves an admin session exactly when the session
    was one already or the request is a POST whose password field equals the
    configured password; an unset password equals a missing field. A logout
    leaves no admin session. *)
Theorem admin_login_grants (ADMIN_PASSWORD : option string) method password session :
  (is_admin (admin_login ADMIN_PASSWORD method password session).2 = true <->
   is_admin session = true \/ (method = "POST" /\ password = ADMIN_PASSWORD)) /\
  is_admin (admin_logout session).2 = false.
Proof.
  split; [|done]. unfold admin_login.
  destruct (String.eqb_spec method "POST") as [->|Hm].
  - case_bool_decide as Hp; simpl.
    + unfold is_admin. rewrite lookup_insert_eq. simpl. split; auto.
    + split; [auto|]. intros [?|[_ ?]]; done.
  - simpl. split; [auto|]. intros [?|[? _]]; done.
Qed.

Lemma require_admin_denies session (func : Endpoint) s :
  is_admin session = false -> require_admin session func s = Ok (Abort 401, s).
Proof. unfold require_admin. by intros ->. Qed.

(** X13. A session that is not an admin session stays none through a login
    request that is no POST or whose password field differs from the
    configured password, and no session survives a logout; with such a
    session every endpoint under [require_admin] answers 401 and leaves the
    store, the world and the log as they are: it makes no request and spends
    no fuel. *)
Theorem guarded_endpoints_deny
  (ADMIN_PASSWORD : option string) method password session any
  fuel new_id username name user_id s :
  is_admin session = false ->
  method <> "POST" \/ password <> ADMIN_PASSWORD ->
  forall session',
    session' = (admin_login ADMIN_PASSWORD method password session).2 \/
    session' = (admin_logout any).2 ->
    api_add_user session' new_id username s = Ok (Abort 401, s) /\
    api_delete_user session' user_id s = Ok (Abort 401, s) /\
    api_full_scan cfg session' fuel name s = Ok (Abort 401, s) /\
    api_fix_missing_images cfg session' fuel s = Ok (Abort 401, s) /\
    api_run_cron cfg session' fuel s = Ok (Abort 401, s).
Proof.
  intros Hno Hbad session' Hs'.
  assert (is_admin session' = false) as Hdenied.
  { destruct Hs' as [-> | ->]; [|done]. unfold admin_login.
    destruct (String.eqb_spec method "POST") as [->|Hm]; [|done].
    case_bool_decide; [|done]. by destruct Hbad. }
  unfold api_add_user, api_delete_user, api_full_scan, api_fix_missing_images,
    api_run_cron.
  by rewrite !require_admin_denies.
Qed.

(** *** Users *)

Lemma find_name_Some (users : list UserRow) name u :
  List.find (fun u => String.eqb (u_username u) name) users = Some u ->
  u ∈ users /\ u_username u = name.
Proof.
  intros [Hin Heq]%List.find_some. split; [by apply list_elem_of_In|].
  by apply String.eqb_eq.
Qed.

Lemma find_name_None (users : list UserRow) name :
  List.find (fun u => String.eqb (u_username u) name) users = None <->
  forall u, u ∈ users -> u_username u <> name.
Proof.
  split.
  - intros Hnone u Hu Heq. apply list_elem_of_In in Hu.
    pose proof (List.find_none _ _ Hnone u Hu) as Hf. simpl in Hf.
    apply String.eqb_neq in Hf. done.
  - intros Hall. destruct (List.find _ users) as [u|] eqn:Hf; [|done].
    apply find_name_Some in Hf as [Hin Heq]. by destruct (Hall u Hin).
Qed.

Lemma elem_of_set_active_by_name active name (users : list UserRow) v :
  v ∈ set_active_by_name active name users <->
  exists u, u ∈ users /\
    v = if String.eqb (u_username u) name
        then mkUser (u_id u) (u_username u) active (u_last_full_scan u) else u.
Proof.
  unfold set_active_by_name. rewrite list_elem_of_fmap.
  split; intros (u & ? & ?); exists u; done.
Qed.

Lemma add_user_post new_id name d reply d' :
  name <> "" ->
  add_user new_id (Some name) d = (reply, d') ->
  (exists u, u ∈ bgg_users d' /\ u_username u = name) /\
  (forall u, u ∈ bgg_users d' -> u_username u = name -> u_is_active u = true) /\
  (forall u, u_username u <> name -> u ∈ bgg_users d' <-> u ∈ bgg_users d) /\
  plays d' = plays d /\ games d' = games d /\
  (reply = ReplyStatus "created" <-> forall u, u ∈ bgg_users d -> u_username u <> name) /\
  (reply = ReplyStatus "reactivated" <-> exists u, u ∈ bgg_users d /\ u_username u = name).
Proof.
  intros Hne. unfold add_user. destruct name as [|c rest]; [done|].
  set (name := String c rest) in *.
  destruct (List.find _ (bgg_users d)) as [u0|] eqn:Hfind; intros [= <- <-]; simpl.
  - apply find_name_Some in Hfind as [Hin0 Hname0].
    split; [|split; [|split; [|split; [done|split; [done|split]]]]].
    + exists (mkUser (u_id u0) (u_username u0) true (u_last_full_scan u0)).
      split; [|done]. apply elem_of_set_active_by_name. exists u0.
      split; [done|]. apply String.eqb_eq in Hname0. by rewrite Hname0.
    + intros v (u & Hu & ->)%elem_of_set_active_by_name Hv.
      by destruct (String.eqb_spec (u_username u) name).
    + intros v Hv. rewrite elem_of_set_active_by_name. split.
      * intros (u & Hu & ->).
        destruct (String.eqb_spec (u_username u) name); [by simpl in Hv|done].
      * intros Hin. exists v. split; [done|].
        apply String.eqb_neq in Hv. by rewrite Hv.
    + split; [done|]. intros Hall. by destruct (Hall u0 Hin0).
    + split; eauto.
  - pose proof (proj1 (find_name_None _ _) Hfind) as Hnone.
    split; [|split; [|split; [|split; [done|split; [done|split]]]]].
    + exists (mkUser new_id name true None). split; [|done].
      apply elem_of_app. right. by apply list_elem_of_singleton.
    + intros v [Hv|Hv%list_elem_of_singleton]%elem_of_app Hname; [|by subst].
      by destruct (Hnone v Hv).
    + intros v Hv. rewrite elem_of_app, list_elem_of_singleton. split; [|auto].
      intros [? | ->]; [done|]. by destruct Hv.
    + done.
    + split; [done|]. intros (u & Hu & Hname). by destruct (Hnone u Hu).
Qed.

(** X14. Adding a user under a non-empty name leaves at least one row of
    that name, every row of that name active, every row of another name as it
    was, and the plays and games tables untouched; the reply is "created"
    exactly when no row had the name, and "reactivated" otherwise. *)
Theorem add_user_activates new_id name d reply d' :
  name <> "" ->
  add_user new_id (Some name) d = (reply, d') ->
  (exists u, u ∈ bgg_users d' /\ u_username u = name) /\
  (forall u, u ∈ bgg_users d' -> u_username u = name -> u_is_active u = true) /\
  (forall u, u_username u <> name -> u ∈ bgg_users d' <-> u ∈ bgg_users d) /\
  plays d' = plays d /\ games d' = games d /\
  (reply = ReplyStatus "created" <-> forall u, u ∈ bgg_users d -> u_username u <> name) /\
  (reply = ReplyStatus "reactivated" <-> exists u, u ∈ bgg_users d /\ u_username u = name).
Proof. apply add_user_post. Qed.


Lemma set_users_same d (users : list UserRow) :
  users = bgg_users d -> set_users d users = d.
Proof. intros ->. by destruct d. Qed.

Lemma fmap_id_on {A : Type} (f : A -> A) (l : list A) :
  (forall x, x ∈ l -> f x = x) -> f <$> l = l.
Proof.
  induction l as [|a l IH]; intros Hf; [done|].
  rewrite fmap_cons, Hf by (apply elem_of_cons; by left).
  rewrite IH; [done|]. intros x Hx. apply Hf, elem_of_cons. by right.
Qed.

(** X15. Adding a user whose name is already in the users table changes
    active flags only: every row keeps its place, id, username and
    watermark, so that a user who was scanned before is scanned in
    Incremental mode after the reactivation. *)
Theorem add_user_reactivation_keeps_watermark new_id name d u0 :
  name <> "" ->
  u0 ∈ bgg_users d ->
  u_username u0 = name ->
  (fun u => (u_id u, u_username u, u_last_full_scan u)) <$>
    bgg_users (add_user new_id (Some name) d).2
  = (fun u => (u_id u, u_username u, u_last_full_scan u)) <$> bgg_users d.
Proof.
  intros Hne Hin Hname. unfold add_user. destruct name as [|c rest]; [done|].
  destruct (List.find _ (bgg_users d)) as [u1|] eqn:Hfind.
  - simpl. unfold set_active_by_name. rewrite <- list_fmap_compose.
    apply list_fmap_ext. intros i u _. simpl.
    by destruct (String.eqb (u_username u) (String c rest)).
  - exfalso. by apply (proj1 (find_name_None _ _) Hfind u0).
Qed.

(** X16. Adding the same user twice is adding it once: the second request
    is answered "reactivated" and leaves the store of the first, whatever
    ids the database would have given. *)
Theorem add_user_twice new_id new_id' name d :
  name <> "" ->
  add_user new_id' (Some name) (add_user new_id (Some name) d).2
  = (ReplyStatus "reactivated", (add_user new_id (Some name) d).2).
Proof.
  intros Hne.
  destruct (add_user new_id (Some name) d) as [reply d1] eqn:Hadd.
  destruct (add_user_post _ _ _ _ _ Hne Hadd) as ((u & Hu & Hname) & Hact & _).
  simpl. unfold add_user. destruct name as [|c rest]; [done|].
  destruct (List.find _ (bgg_users d1)) as [u1|] eqn:Hfind.
  - f_equal. apply set_users_same. apply fmap_id_on. intros v Hv.
    destruct (String.eqb_spec (u_username v) (String c rest)) as [Heq|]; [|done].
    rewrite <- (Hact v Hv Heq). by destruct v.
  - exfalso. by apply (proj1 (find_name_None _ _) Hfind u).
Qed.

Lemma elem_of_set_active_by_id active user_id (users : list UserRow) v :
  v ∈ set_active_by_id active user_id users <->
  exists u, u ∈ users /\
    v = if u_id u =? user_id
        then mkUser (u_id u) (u_username u) active (u_last_full_scan u) else u.
Proof.
  unfold set_active_by_id. rewrite list_elem_of_fmap.
  split; intros (u & ? & ?); exists u; done.
Qed.

(** X17. Deactivating an active user and adding the same username again
    gives back the store as it was, when no other row shares the user's id or
    name: the user comes back with the same id and watermark. *)
Theorem delete_then_add_user new_id d u :
  u ∈ bgg_users d ->
  u_is_active u = true ->
  u_username u <> "" ->
  (forall v, v ∈ bgg_users d -> u_id v = u_id u \/ u_username v = u_username u -> v = u) ->
  add_user new_id (Some (u_username u)) (delete_user (u_id u) d).2
  = (ReplyStatus "reactivated", d).
Proof.
  intros Hin Hact Hne Huniq. unfold delete_user, add_user. simpl.
  destruct (u_username u) as [|c rest] eqn:Hname; [done|].
  set (name := String c rest) in *.
  destruct (List.find _ (set_active_by_id false (u_id u) (bgg_users d))) as [u1|] eqn:Hfind.
  - f_equal. destruct d as [users g p]. unfold set_users. simpl in *. f_equal.
    unfold set_active_by_name, set_active_by_id. rewrite <- list_fmap_compose.
    apply fmap_id_on. intros v Hv. simpl.
    destruct (Z.eqb_spec (u_id v) (u_id u)) as [Hid|Hid]; simpl.
    + assert (v = u) as -> by auto. rewrite Hname, String.eqb_refl.
      destruct u; simpl in *. by subst.
    + destruct (String.eqb_spec (u_username v) name) as [Hn|Hn]; [|done].
      assert (v = u) as -> by auto. done.
  - exfalso. apply (proj1 (find_name_None _ _) Hfind
                      (mkUser (u_id u) (u_username u) false (u_last_full_scan u))).
    + apply elem_of_set_active_by_id. exists u. split; [done|].
      by rewrite Z.eqb_refl.
    + done.
Qed.

Lemma active_after_deactivate user_id (users : list UserRow) :
  List.filter u_is_active (set_active_by_id false user_id users)
  = List.filter (fun u => negb (u_id u =? user_id)) (List.filter u_is_active users).
Proof.
  unfold set_active_by_id. induction users as [|u users IH]; [done|].
  rewrite fmap_cons. cbn [List.filter]. rewrite IH.
  destruct (u_id u =? user_id) eqn:E; cbn [u_is_active].
  - destruct (u_is_active u); cbn [List.filter]; [by rewrite E|done].
  - destruct (u_is_active u); cbn [List.filter]; [by rewrite E|done].
Qed.

Lemma delete_user_soft user_id d :
  plays (delete_user user_id d).2 = plays d /\
  games (delete_user user_id d).2 = games d /\
  length (bgg_users (delete_user user_id d).2) = length (bgg_users d) /\
  active_users (delete_user user_id d).2
  = List.filter (fun u => negb (u_id u =? user_id)) (active_users d).
Proof.
  unfold delete_user, active_users. simpl.
  split; [done|]. split; [done|]. split.
  - unfold set_active_by_id. by rewrite length_fmap.
  - apply active_after_deactivate.
Qed.

(** X18. For an admin, deactivating a user whose id SQLite can bind, a
    signed 64-bit integer, is answered "deactivated" and is soft: the world,
    the log, the plays and games tables and the number of user rows stay as
    they are, and the users that the next sweep visits are the ones it would
    have visited, in the same order, without those of that id. With any other
    id the request raises OverflowError. *)
Theorem delete_user_leaves_sweep session user_id s :
  is_admin session = true ->
  (sqlite_int user_id = false ->
   api_delete_user session user_id s = Raise OverflowError) /\
  (sqlite_int user_id = true ->
   exists d',
     api_delete_user session user_id s
     = Ok (ReplyStatus "deactivated", mkState d' (world s) (log s)) /\
     plays d' = plays (db s) /\
     games d' = games (db s) /\
     length (bgg_users d') = length (bgg_users (db s)) /\
     active_users d'
     = List.filter (fun u => negb (u_id u =? user_id)) (active_users (db s))).
Proof.
  intros Hadmin. unfold api_delete_user, require_admin. rewrite Hadmin.
  split; intros ->; [done|].
  exists (delete_user user_id (db s)).2. split; [done|].
  apply delete_user_soft.
Qed.

Lemma find_active_None (users : list UserRow) username :
  (forall u, u ∈ users -> u_username u = username -> u_is_active u = false) ->
  List.find (fun u => String.eqb (u_username u) username && u_is_active u) users = None.
Proof.
  intros Hall. destruct (List.find _ users) as [u|] eqn:Hf; [|done].
  apply List.find_some in Hf as [Hin [Hn Ha]%andb_true_iff].
  apply list_elem_of_In in Hin. apply String.eqb_eq in Hn.
  rewrite (Hall u Hin Hn) in Ha. done.
Qed.

(** X19. After a user is deactivated, an admin full scan under the user's
    name, when all rows of that name have the id that was deactivated, does
    nothing: it answers with the empty list, makes no request, and leaves
    store, world and log as they are, with any fuel. *)
Theorem full_scan_of_deactivated_user session fuel username user_id d (w : W) l :
  is_admin session = true ->
  (forall u, u ∈ bgg_users d -> u_username u = username -> u_id u = user_id) ->
  api_full_scan cfg session fuel username (mkState (delete_user user_id d).2 w l)
  = Ok (ReplyEmpty, mkState (delete_user user_id d).2 w l).
Proof.
  intros Hadm Hall. unfold api_full_scan, require_admin, full_scan_reply, admin_full_scan.
  rewrite Hadm. simpl.
  rewrite find_active_None; [done|].
  intros v (u & Hu & ->)%elem_of_set_active_by_id Hv.
  destruct (Z.eqb_spec (u_id u) user_id) as [|Hne]; [done|].
  by destruct (Hne (Hall u Hu Hv)).
Qed.

(** X20. A sweep over a users table without an active user does nothing:
    it reports "No active users", makes no request and leaves store, world
    and log as they are, with any fuel; a sweep that returns after visiting
    at least one active user reports "ok". *)
Theorem sweep_without_active_users session fuel s :
  is_admin session = true ->
  ((forall u, u ∈ bgg_users (db s) -> u_is_active u = false) ->
   api_run_cron cfg session fuel s = Ok (ReplyCron "No active users", s)) /\
  (forall u reply s',
     u ∈ bgg_users (db s) -> u_is_active u = true ->
     api_run_cron cfg session fuel s = Ok (reply, s') ->
     reply = ReplyCron "ok").
Proof.
  intros Hadm. unfold api_run_cron, require_admin, cron_status, cron_update.
  rewrite Hadm. split.
  - intros Hall.
    assert (active_users (db s) = []) as ->; [|done].
    unfold active_users. induction (bgg_users (db s)) as [|u users IH]; simpl; [done|].
    rewrite (Hall u) by (apply elem_of_cons; by left).
    apply IH. intros v Hv. apply Hall, elem_of_cons. by right.
  - intros u reply s' Hu Hact Hrun.
    assert (u ∈ active_users (db s)) as Hin by (by apply elem_of_active_users).
    destruct (active_users (db s)) as [|row rows]; [by apply elem_of_nil in Hin|].
    inv_bind Hrun. by injection Hrun as <- _.
Qed.

End EndpointsProps.


(** ** Missing images *)

Section FixImages.

Context {W : Type} `{!Remote W} {unicode : Py.Text} (cfg : Config).

Implicit Types (s : State W) (t : gmap Z GameRow).

Lemma elem_of_missing_ids t (g : Z) :
  g ∈ missing_ids t <-> exists row, t !! g = Some row /\ missing_image row = true.
Proof.
  unfold missing_ids. rewrite elem_of_dom. unfold is_Some.
  setoid_rewrite map_lookup_filter_Some. simpl. naive_solver.
Qed.

Lemma truthy_not_missing (name image : option string) :
  truthy image = true -> missing_image (mkGame name image) = false.
Proof. by destruct image as [[|c r]|]. Qed.

Lemma sql_update_image_lookup (game_id g : Z) image t :
  sql_update_image game_id image t !! g =
  if decide (g = game_id)
  then (fun row => mkGame (g_name row) image) <$> t !! g
  else t !! g.
Proof.
  unfold sql_update_image. rewrite lookup_alter.
  destruct (decide (game_id = g)), (decide (g = game_id)); congruence.
Qed.

Lemma missing_ids_update (game_id : Z) image t :
  truthy image = true ->
  missing_ids (sql_update_image game_id image t) = missing_ids t ∖ {[game_id]}.
Proof.
  intros Himg. apply set_eq. intros g.
  rewrite elem_of_difference, !elem_of_missing_ids, elem_of_singleton.
  setoid_rewrite sql_update_image_lookup.
  destruct (decide (g = game_id)) as [->|Hne].
  - split.
    + intros (row & Hrow & Hm). destruct (t !! game_id) as [row0|]; [|done].
      injection Hrow as <-. by rewrite truthy_not_missing in Hm.
    + intros [_ ?]. done.
  - split; [intros ?; split; done|]. by intros [? _].
Qed.

(** What the loop does to the store: one invariant for all its effects. *)
Lemma fix_images_loop_spec fuel (ids : list Z) fixed s fixed' s' :
  fix_images_loop cfg fuel ids fixed s = Ok (fixed', s') ->
  NoDup ids ->
  (forall g, g ∈ ids -> g ∈ missing_ids (games (db s))) ->
  plays (db s') = plays (db s) /\
  bgg_users (db s') = bgg_users (db s) /\
  log s' = log s ++ (EvResolve <$> ids) /\
  dom (games (db s')) = dom (games (db s)) /\
  (forall (g : Z) row, games (db s) !! g = Some row ->
     exists row', games (db s') !! g = Some row' /\ g_name row' = g_name row /\
       (g ∉ ids -> row' = row) /\
       (row' <> row -> truthy (g_image_url row') = true)) /\
  missing_ids (games (db s')) ⊆ missing_ids (games (db s)) /\
  Z.of_nat (size (missing_ids (games (db s))))
  = (fixed' - fixed) + Z.of_nat (size (missing_ids (games (db s')))).
Proof.
  revert fixed s. induction ids as [|game_id rest IH]; intros fixed s H Hnd Hin.
  - simpl in H. injection H as <- <-. rewrite app_nil_r.
    repeat split; try done; [|lia].
    intros g row Hrow. exists row. done.
  - apply NoDup_cons in Hnd as [Hfresh Hnd].
    cbn [fix_images_loop] in H. inv_bind H. destruct a as [info w'].
    assert (game_id ∈ missing_ids (games (db s))) as Hgid
      by (apply Hin, elem_of_cons; by left).
    destruct (truthy (g_image_url info)) eqn:Himg.
    + apply IH in H as (Hp & Hu & Hl & Hd & Hg & Hsub & Hsize); [|done|].
      * simpl in *. rewrite missing_ids_update in Hsub, Hsize by done.
        rewrite Hp, Hu, Hl, Hd. split; [done|]. split; [done|].
        split; [by rewrite <- app_assoc|]. split.
        { unfold sql_update_image. apply dom_alter_L. }
        split; [|split].
        -- intros g row Hrow.
           destruct (decide (g = game_id)) as [->|Hne].
           ++ destruct (Hg game_id (mkGame (g_name row) (g_image_url info)))
                as (row' & Hrow' & Hname & Hsame & _).
              { rewrite sql_update_image_lookup, decide_True by done.
                by rewrite Hrow. }
              exists row'. split; [done|]. split; [done|]. split.
              ** intros Hnot. exfalso. apply Hnot, elem_of_cons. by left.
              ** intros _. rewrite (Hsame Hfresh). done.
           ++ destruct (Hg g row) as (row' & Hrow' & Hname & Hsame & Hchg).
              { by rewrite sql_update_image_lookup, decide_False. }
              exists row'. split; [done|]. split; [done|]. split; [|done].
              intros Hnot. apply Hsame. intros ?. apply Hnot, elem_of_cons. by right.
        -- intros x Hx. apply Hsub in Hx. by apply elem_of_difference in Hx as [? _].
        -- assert ({[game_id]} ⊆ missing_ids (games (db s))) as Hone
             by (by apply singleton_subseteq_l).
           rewrite (size_difference _ _ Hone), size_singleton in Hsize.
           apply subseteq_size in Hone. rewrite size_singleton in Hone. lia.
      * intros g Hg. simpl. rewrite missing_ids_update by done.
        apply elem_of_difference. split.
        -- apply Hin, elem_of_cons. by right.
        -- rewrite elem_of_singleton. intros ->. done.
    + apply IH in H as (Hp & Hu & Hl & Hd & Hg & Hsub & Hsize); [|done|].
      * simpl in *. rewrite Hp, Hu, Hl, Hd. split; [done|]. split; [done|].
        split; [by rewrite <- app_assoc|]. split; [done|]. split; [|done].
        intros g row Hrow. destruct (Hg g row Hrow) as (row' & ? & ? & Hsame & ?).
        exists row'. split; [done|]. split; [done|]. split; [|done].
        intros Hnot. apply Hsame. intros ?. apply Hnot, elem_of_cons. by right.
      * intros g Hg. simpl. apply Hin, elem_of_cons. by right.
Qed.

Lemma games_missing_image_elem d (g : Z) :
  g ∈ games_missing_image d <-> g ∈ missing_ids (games d).
Proof.
  unfold games_missing_image, missing_ids.
  rewrite merge_sort_Permutation. apply elem_of_elements.
Qed.

Lemma games_missing_image_NoDup d : NoDup (games_missing_image d).
Proof.
  unfold games_missing_image. rewrite merge_sort_Permutation. apply NoDup_elements.
Qed.

(** X21. Fixing missing images touches image references only: the plays
    and users tables and the set of game ids stay as they are, every game
    keeps its name, a game that had an image keeps its row, and a row that
    changed now has an image that is present and not empty. *)
Theorem fix_missing_images_frame fuel s fixed s' :
  fix_missing_images cfg fuel s = Ok (fixed, s') ->
  plays (db s') = plays (db s) /\
  bgg_users (db s') = bgg_users (db s) /\
  dom (games (db s')) = dom (games (db s)) /\
  forall (g : Z) row, games (db s) !! g = Some row ->
    exists row', games (db s') !! g = Some row' /\
      g_name row' = g_name row /\
      (missing_image row = false -> row' = row) /\
      (row' <> row -> missing_image row' = false).
Proof.
  intros H. unfold fix_missing_images in H.
  apply fix_images_loop_spec in H as (Hp & Hu & _ & Hd & Hg & _);
    [|apply games_missing_image_NoDup|by intros g ?%games_missing_image_elem].
  repeat split; try done.
  intros g row Hrow. destruct (Hg g row Hrow) as (row' & Hrow' & Hname & Hsame & Hchg).
  exists row'. repeat split; try done.
  - intros Hm. apply Hsame. rewrite games_missing_image_elem, elem_of_missing_ids.
    intros (row0 & Hrow0 & Hm0). congruence.
  - intros Hne. specialize (Hchg Hne). destruct row' as [n i]. simpl in *.
    by apply truthy_not_missing.
Qed.

(** X22. The count that fixing missing images reports is the number of
    games that lacked an image before and have one after: the games without
    image before are those without image after plus the reported count, and
    no game loses its image. *)
Theorem fix_missing_images_count fuel s fixed s' :
  fix_missing_images cfg fuel s = Ok (fixed, s') ->
  missing_ids (games (db s')) ⊆ missing_ids (games (db s)) /\
  Z.of_nat (size (missing_ids (games (db s))))
  = fixed + Z.of_nat (size (missing_ids (games (db s')))).
Proof.
  intros H. unfold fix_missing_images in H.
  apply fix_images_loop_spec in H as (_ & _ & _ & _ & _ & Hsub & Hsize);
    [|apply games_missing_image_NoDup|by intros g ?%games_missing_image_elem].
  split; [done|]. lia.
Qed.

Lemma occurrences_resolve_fmap (g : Z) (ids : list Z) :
  NoDup ids ->
  occurrences (EvResolve g) (EvResolve <$> ids) = if decide (g ∈ ids) then 1%nat else O.
Proof.
  unfold occurrences. induction ids as [|i ids IH]; intros Hnd.
  - by rewrite decide_False by apply not_elem_of_nil.
  - apply NoDup_cons in Hnd as [Hi Hnd]. rewrite fmap_cons. cbn [count_occ].
    rewrite (IH Hnd).
    destruct (Event_eq_dec (EvResolve i) (EvResolve g)) as [[= ->]|Hne].
    + destruct (decide (g ∈ ids)); [done|]. rewrite decide_True; [done|].
      apply elem_of_cons. by left.
    + destruct (decide (g ∈ ids)) as [Hin|Hout].
      * rewrite decide_True; [done|]. apply elem_of_cons. by right.
      * rewrite decide_False; [done|].
        intros [->|?]%elem_of_cons; [by apply Hne|done].
Qed.

(** X23. Fixing missing images, started with an empty log, looks up
    exactly the games whose image is NULL or empty at the start, once each,
    also when the look-up brings no image, and no other game. *)
Theorem fix_missing_images_lookups fuel s fixed s' (g : Z) :
  log s = [] ->
  fix_missing_images cfg fuel s = Ok (fixed, s') ->
  occurrences (EvResolve g) (log s')
  = if decide (g ∈ missing_ids (games (db s))) then 1%nat else O.
Proof.
  intros Hlog H. unfold fix_missing_images in H.
  apply fix_images_loop_spec in H as (_ & _ & Hl & _);
    [|apply games_missing_image_NoDup|by intros g' ?%games_missing_image_elem].
  rewrite Hl, Hlog. simpl.
  rewrite occurrences_resolve_fmap by apply games_missing_image_NoDup.
  destruct (decide (g ∈ games_missing_image (db s))) as [Hin|Hout];
    rewrite games_missing_image_elem in *.
  - by rewrite decide_True.
  - by rewrite decide_False.
Qed.

End FixImages.


(** ** The statistics query *)

Section Stats.

Implicit Types (d : DB) (cond : PlayRow -> bool) (x : Z * GameRow * nat).

Lemma elem_of_stats_groups cond d x :
  x ∈ stats_groups cond d <->
  games d !! x.1.1 = Some x.1.2 /\ x.2 = play_count cond (plays d) x.1.1 /\ (0 < x.2)%nat.
Proof.
  unfold stats_groups. rewrite list_elem_of_In, List.filter_In, <- list_elem_of_In.
  rewrite list_elem_of_fmap, negb_true_iff, Nat.eqb_neq.
  destruct x as [[g row] n]. simpl. split.
  - intros [([g' row'] & [= -> -> ->] & Hin%elem_of_map_to_list) Hn].
    simpl in *. repeat split; [done|lia].
  - intros (Hg & -> & Hn). split; [|lia].
    exists (g, row). split; [done|]. by apply elem_of_map_to_list.
Qed.

Lemma stats_groups_NoDup cond d : NoDup ((fun x => x.1.1) <$> stats_groups cond d).
Proof.
  unfold stats_groups.
  assert (forall l : list (Z * GameRow),
            NoDup l.*1 ->
            NoDup ((fun x : Z * GameRow * nat => x.1.1) <$>
                     List.filter (fun x : Z * GameRow * nat => negb (Nat.eqb x.2 0))
                       ((fun kv : Z * GameRow =>
                           (kv.1, kv.2, play_count cond (plays d) kv.1)) <$> l))) as Hgen.
  { induction l as [|kv l IH]; intros Hnd; [constructor|].
    rewrite fmap_cons in Hnd. apply NoDup_cons in Hnd as [Hkv Hnd].
    rewrite fmap_cons. cbn [List.filter].
    destruct (negb _); [|by apply IH].
    rewrite fmap_cons. apply NoDup_cons. split; [|by apply IH]. simpl.
    intros (x & Hx & Hin)%list_elem_of_fmap. apply Hkv.
    apply list_elem_of_In, List.filter_In in Hin as [Hin _].
    apply list_elem_of_In, list_elem_of_fmap in Hin as (kv' & -> & Hkv').
    simpl in Hx. rewrite Hx. by apply list_elem_of_fmap_2. }
  apply Hgen, NoDup_fst_map_to_list.
Qed.

Lemma elem_of_numbered (rows : list (Z * GameRow * nat)) (r : StatsRow) :
  r ∈ numbered rows <->
  exists i x, rows !! i = Some x /\
    r = mkStatsRow (S i) x.1.1 (g_name x.1.2) (g_image_url x.1.2) x.2.
Proof.
  unfold numbered. rewrite list_elem_of_lookup. split.
  - intros (i & Hi). rewrite list_lookup_imap in Hi.
    destruct (rows !! i) as [x|] eqn:Hx; [|done]. injection Hi as <-. eauto.
  - intros (i & x & Hx & ->). exists i. rewrite list_lookup_imap, Hx. done.
Qed.

(** X24. A row of the statistics stands for a game that has a Game row,
    shows that row's name and image, and counts the stored plays of the game
    that pass the period filter, of which there is at least one; every such
    game has a row, and no game has two. A play whose game id has no Game row
    is counted in no row. *)
Theorem stats_rows period year month date d :
  (forall r, r ∈ stats period year month date d ->
     games d !! st_game_id r = Some (mkGame (st_game_name r) (st_image_url r)) /\
     st_plays r
     = play_count (where_clause period year month date) (plays d) (st_game_id r) /\
     (1 <= st_plays r)%nat) /\
  (forall (g : Z) row,
     games d !! g = Some row ->
     (1 <= play_count (where_clause period year month date) (plays d) g)%nat ->
     exists r, r ∈ stats period year month date d /\ st_game_id r = g) /\
  NoDup (st_game_id <$> stats period year month date d).
Proof.
  unfold stats. set (cond := where_clause period year month date).
  set (sorted := merge_sort more_plays (stats_groups cond d)).
  assert (forall x, x ∈ sorted <-> x ∈ stats_groups cond d) as Hperm.
  { intros x. unfold sorted. by rewrite merge_sort_Permutation. }
  split; [|split].
  - intros r (i & x & Hx & ->)%elem_of_numbered. simpl.
    apply list_elem_of_lookup_2, Hperm, elem_of_stats_groups in Hx as (Hg & Hn & Hpos).
    rewrite Hg. split; [by destruct x.1.2|]. split; [done|lia].
  - intros g row Hg Hn.
    assert ((g, row, play_count cond (plays d) g) ∈ sorted) as Hin.
    { apply Hperm, elem_of_stats_groups. simpl. split; [done|]. split; [done|lia]. }
    apply list_elem_of_lookup in Hin as [i Hi].
    eexists. split; [apply elem_of_numbered; eauto|done].
  - assert (st_game_id <$> numbered sorted = (fun x => x.1.1) <$> sorted) as ->.
    { unfold numbered. apply list_eq. intros i.
      rewrite !list_lookup_fmap, list_lookup_imap. by destruct (sorted !! i). }
    unfold sorted. rewrite merge_sort_Permutation. apply stats_groups_NoDup.
Qed.

Lemma StronglySorted_lookup {A : Type} (R : A -> A -> Prop) (l : list A)
  (i j : nat) (x y : A) :
  StronglySorted R l -> l !! i = Some x -> l !! j = Some y -> (i < j)%nat -> R x y.
Proof.
  intros Hs. revert i j. induction Hs as [|a l Hs IH Hall]; intros i j Hi Hj Hij.
  - done.
  - destruct i as [|i], j as [|j]; simpl in *; try lia.
    + injection Hi as ->. rewrite Forall_forall in Hall.
      apply Hall. by eapply list_elem_of_lookup_2.
    + apply (IH i j); [done|done|lia].
Qed.

Lemma elem_of_keys {A : Type} (m : gmap Z A) (k : Z) :
  k ∈ (map_to_list m).*1 <-> is_Some (m !! k).
Proof.
  rewrite list_elem_of_fmap. split.
  - intros ([k' a] & -> & Hin%elem_of_map_to_list). eauto.
  - intros [a Ha]. exists (k, a). split; [done|]. by apply elem_of_map_to_list.
Qed.

#[local] Instance more_plays_total : Total more_plays.
Proof. intros a b. unfold more_plays. lia. Qed.

#[local] Instance more_plays_trans : Transitive more_plays.
Proof. intros a b c. unfold more_plays. lia. Qed.

(** X25. The rows of the statistics are numbered 1, 2, 3, ... in the order
    of the list, and that order is by number of plays, larger counts first. *)
Theorem stats_order period year month date d (i j : nat) (ri rj : StatsRow) :
  stats period year month date d !! i = Some ri ->
  stats period year month date d !! j = Some rj ->
  st_index ri = S i /\
  ((i <= j)%nat -> (st_plays rj <= st_plays ri)%nat).
Proof.
  unfold stats, numbered. rewrite !list_lookup_imap.
  set (sorted := merge_sort more_plays _).
  destruct (sorted !! i) as [x|] eqn:Hx; [|done].
  destruct (sorted !! j) as [y|] eqn:Hy; [|done].
  intros [= <-] [= <-]. simpl. split; [done|]. intros Hij.
  destruct (decide (i = j)) as [->|Hne]; [by simplify_eq|].
  assert (StronglySorted more_plays sorted) as Hs
    by apply (StronglySorted_merge_sort _).
  apply (StronglySorted_lookup more_plays sorted i j x y); [done|done|done|lia].
Qed.

(** One play adds one to the count of its game, if the game is listed. *)
Lemma count_here (keys : list Z) (a : Z) :
  NoDup keys ->
  sum_list ((fun g => if a =? g then 1%nat else O) <$> keys)
  = if bool_decide (a ∈ keys) then 1%nat else O.
Proof.
  induction keys as [|k keys IH]; intros Hnd; [done|].
  apply NoDup_cons in Hnd as [Hk Hnd]. rewrite fmap_cons. cbn [sum_list].
  rewrite (IH Hnd). destruct (Z.eqb_spec a k) as [->|Hne].
  - rewrite (bool_decide_eq_false_2 _ Hk).
    rewrite bool_decide_eq_true_2; [done|]. apply elem_of_cons. by left.
  - destruct (bool_decide_reflect (a ∈ keys)) as [Hin|Hout].
    + rewrite bool_decide_eq_true_2; [done|]. apply elem_of_cons. by right.
    + rewrite bool_decide_eq_false_2; [done|].
      intros [?|?]%elem_of_cons; done.
Qed.

Lemma sum_play_counts cond (l : list (Z * PlayRow)) (keys : list Z) :
  NoDup keys ->
  sum_list ((fun g => length (List.filter
                        (fun kv : Z * PlayRow => (r_game_id kv.2 =? g) && cond kv.2) l))
            <$> keys)
  = length (List.filter (fun kv : Z * PlayRow =>
                           cond kv.2 && bool_decide (r_game_id kv.2 ∈ keys)) l).
Proof.
  intros Hnd. induction l as [|kv l IH].
  - simpl. induction keys as [|k keys IHk]; [done|].
    rewrite fmap_cons. cbn [sum_list]. rewrite IHk; [done|].
    by apply NoDup_cons in Hnd as [_ ?].
  - cbn [List.filter]. destruct (cond kv.2) eqn:Hc; simpl.
    + transitivity
        (sum_list ((fun g : Z => if Z.eqb (r_game_id kv.2) g then 1%nat else O) <$> keys)
         + sum_list ((fun g : Z => length (List.filter
                        (fun kv : Z * PlayRow => Z.eqb (r_game_id kv.2) g && cond kv.2) l))
                     <$> keys))%nat.
      * clear IH Hnd. induction keys as [|k keys IHk]; [done|].
        rewrite !fmap_cons. cbn [sum_list]. rewrite IHk.
        rewrite andb_true_r. destruct (r_game_id kv.2 =? k); simpl; lia.
      * rewrite IH, count_here by done.
        by destruct (bool_decide (r_game_id kv.2 ∈ keys)).
    + rewrite <- IH. f_equal. apply list_fmap_ext. intros i g _.
      by rewrite andb_false_r.
Qed.

Lemma sum_filter_positive (l : list (Z * GameRow * nat)) :
  sum_list ((fun x => x.2) <$>
              List.filter (fun x : Z * GameRow * nat => negb (Nat.eqb x.2 0)) l)
  = sum_list ((fun x => x.2) <$> l).
Proof.
  induction l as [|x l IH]; [done|].
  cbn [List.filter]. destruct (Nat.eqb_spec x.2 0) as [Hz|Hnz]; cbn [negb];
    rewrite !fmap_cons; cbn [sum_list]; rewrite IH; unfold id; lia.
Qed.

(** X26. The play counts of the statistics add up to the number of stored
    plays that pass the period filter and whose game has a Game row: every
    such play is counted once, and a play of a game without Game row is
    left out. *)
Theorem stats_total period year month date d :
  sum_list (st_plays <$> stats period year month date d)
  = length (counted_plays (where_clause period year month date) d).
Proof.
  unfold stats, counted_plays. set (cond := where_clause period year month date).
  assert (st_plays <$> numbered (merge_sort more_plays (stats_groups cond d))
          = (fun x => x.2) <$> merge_sort more_plays (stats_groups cond d)) as ->.
  { unfold numbered. apply list_eq. intros i.
    rewrite !list_lookup_fmap, list_lookup_imap. by destruct (_ !! i). }
  rewrite merge_sort_Permutation. unfold stats_groups.
  rewrite sum_filter_positive, <- list_fmap_compose.
  assert ((fun x : Z * GameRow * nat => x.2) ∘
            (fun kv : Z * GameRow => (kv.1, kv.2, play_count cond (plays d) kv.1))
          = (fun g => play_count cond (plays d) g) ∘ fst) as -> by done.
  rewrite list_fmap_compose. unfold play_count.
  rewrite (sum_play_counts cond _ _ (NoDup_fst_map_to_list (games d))).
  f_equal. apply List.filter_ext. intros kv. f_equal.
  apply bool_decide_ext. by rewrite elem_of_keys.
Qed.

(** X27. A period whose arguments are missing or empty falls back to the
    overall statistics: [year] without a year, [month] without a year or a
    month, [date] without a date, and any other period give the rows of the
    unfiltered query. A month of one digit is the month with a leading
    zero. *)
Theorem stats_falls_back_to_overall period year month date d :
  (period = "year" -> truthy year = false) ->
  (period = "month" -> truthy year = false \/ truthy month = false) ->
  (period = "date" -> truthy date = false) ->
  stats period year month date d = stats "overall" None None None d /\
  forall (y : string) (c : ascii),
    Ascii.eqb c "+" = false -> Ascii.eqb c "-" = false ->
    stats "month" (Some y) (Some (String c "")) date d
    = stats "month" (Some y) (Some (String "0" (String c ""))) date d.
Proof.
  intros Hy Hm Hd. split.
  - unfold stats. f_equal. f_equal. f_equal. unfold where_clause.
    destruct (String.eqb_spec period "year") as [->|_].
    { rewrite Hy by done. simpl. done. }
    destruct (String.eqb_spec period "month") as [->|_].
    { destruct Hm as [-> | ->]; [done| |]; simpl; [done|].
      by rewrite andb_false_r. }
    destruct (String.eqb_spec period "date") as [->|_].
    { rewrite Hd by done. done. }
    done.
  - intros y c Hplus Hminus. unfold stats, where_clause, zfill2. simpl.
    by rewrite Hplus, Hminus.
Qed.

End Stats.

(** * Concrete runs of the further properties *)

Ltac split_elem H := repeat (apply elem_of_cons in H as [-> | H]); try (by inversion H).

(** ** The fetcher *)

Lemma fetched_records_belong_to_user_witness :
  fetch_plays_for_user Sim.cfg 3 "ann" 1 true (Sim.mkScript Sim.clock [Sim.page11; Sim.page []])
  = Ok ([Sim.rec11], Sim.silent) /\
  Sim.rec11 ∈ [Sim.rec11] /\
  p_user_id Sim.rec11 = 1 /\
  exists cutoff,
    cutoff_date Sim.cfg true (Sim.mkScript Sim.clock [Sim.page11; Sim.page []]) = Ok cutoff /\
    Py.str_ge (p_play_date Sim.rec11) cutoff = true /\
    (true = true -> cutoff = START_DATE Sim.cfg).
Proof.
  assert (fetch_plays_for_user Sim.cfg 3 "ann" 1 true
            (Sim.mkScript Sim.clock [Sim.page11; Sim.page []])
          = Ok ([Sim.rec11], Sim.silent)) as H1 by run.
  assert (Sim.rec11 ∈ [Sim.rec11]) as H2 by constructor.
  split; [exact H1|]. split; [exact H2|].
  exact (fetched_records_belong_to_user Sim.cfg 3 "ann" 1 true _ _ _ _ H1 H2).
Defined.

Lemma fetch_loop_extends_witness :
  fetch_loop Sim.cfg 3 "ann" 1 "2020-01-01" 1 [Sim.rec12]
    (Sim.mkScript Sim.clock [Sim.page11; Sim.page []])
  = Ok ([Sim.rec12; Sim.rec11], Sim.silent) /\
  exists more, [Sim.rec12; Sim.rec11] = [Sim.rec12] ++ more.
Proof.
  assert (fetch_loop Sim.cfg 3 "ann" 1 "2020-01-01" 1 [Sim.rec12]
            (Sim.mkScript Sim.clock [Sim.page11; Sim.page []])
          = Ok ([Sim.rec12; Sim.rec11], Sim.silent)) as H1 by run.
  split; [exact H1|].
  exact (fetch_loop_extends Sim.cfg 3 "ann" 1 "2020-01-01" 1 _ _ _ _ H1).
Defined.

(** ** The reconciler *)

Lemma update_plays_stores_target_records_witness :
  consistent [Sim.rec11; Cases.home12] /\
  Cases.home12 ∈ [Sim.rec11; Cases.home12] /\
  exists s',
    update_plays Sim.cfg 1 [Sim.rec11; Cases.home12] false (Cases.s_club []) = Ok s' /\
    forall row,
      plays (db s') !! 12 = Some row <->
      location_is_target Sim.cfg Cases.home12 = true /\ row = mkPlay 5 "2026-10-30" 1.
Proof.
  assert (consistent [Sim.rec11; Cases.home12]) as H2.
  { intros p q Hp Hq. split_elem Hp; split_elem Hq;
      simpl; intros Hid; first [reflexivity | discriminate Hid]. }
  assert (Cases.home12 ∈ [Sim.rec11; Cases.home12]) as H3 by (right; left).
  eassert (update_plays Sim.cfg 1 [Sim.rec11; Cases.home12] false (Cases.s_club []) = Ok _)
    as H1 by run.
  split; [exact H2|]. split; [exact H3|].
  eexists. split; [exact H1|]. intros row.
  exact (update_plays_stores_target_records Sim.cfg 1 _ false _ _ Cases.home12 row H1 H2 H3).
Defined.

Lemma update_plays_stores_nothing_else_witness :
  exists s',
    update_plays Sim.cfg 1 [Sim.rec11; Cases.home12] false (Cases.s_club []) = Ok s' /\
    plays (db s') !! 21 = Some (mkPlay 5 "2026-10-30" 2) /\
    (((21 ∉ bgg_ids [Sim.rec11; Cases.home12]) /\
      plays Cases.club !! 21 = Some (mkPlay 5 "2026-10-30" 2)) \/
     exists p, p ∈ [Sim.rec11; Cases.home12] /\ p_id p = 21 /\
               location_is_target Sim.cfg p = true /\
               mkPlay 5 "2026-10-30" 2 = mkPlay (p_game_id p) (p_play_date p) (p_user_id p)).
Proof.
  eassert (update_plays Sim.cfg 1 [Sim.rec11; Cases.home12] false (Cases.s_club []) = Ok _)
    as H1 by run.
  eexists. split; [exact H1|].
  eassert (plays (db _) !! 21 = Some (mkPlay 5 "2026-10-30" 2)) as H2; [|split; [exact H2|]].
  { run. }
  exact (update_plays_stores_nothing_else Sim.cfg 1 _ false _ _ 21 _ H1 H2).
Defined.

Lemma update_plays_keeps_other_users_witness :
  plays Cases.club !! 21 = Some (mkPlay 5 "2026-10-30" 2) /\
  (21 ∉ bgg_ids [Sim.rec11]) /\
  r_user_id (mkPlay 5 "2026-10-30" 2) <> p_user_id Sim.rec11 /\
  exists s',
    update_plays Sim.cfg 1 [Sim.rec11] true (Cases.s_club []) = Ok s' /\
    plays (db s') !! 21 = Some (mkPlay 5 "2026-10-30" 2).
Proof.
  assert (plays (db (Cases.s_club [])) !! 21 = Some (mkPlay 5 "2026-10-30" 2)) as H2 by run.
  assert (21 ∉ bgg_ids [Sim.rec11]) as H3 by decided.
  assert (r_user_id (mkPlay 5 "2026-10-30" 2) <> p_user_id Sim.rec11) as H4 by discriminate.
  eassert (update_plays Sim.cfg 1 [Sim.rec11] true (Cases.s_club []) = Ok _) as H1 by run.
  split; [exact H2|]. split; [exact H3|]. split; [exact H4|].
  eexists. split; [exact H1|].
  exact (update_plays_keeps_other_users Sim.cfg 1 _ _ true _ _ 21 _ H1 H2 H3 H4).
Defined.

(** ** Sweeps and full scans *)

Lemma games_rows_are_kept_witness :
  games Cases.club !! 6 = Some Cases.azul /\
  exists s',
    cron_update Sim.cfg 3 (Cases.s_club [Sim.page11; Sim.page []; Sim.page []]) = Ok s' /\
    later Sim.cfg (Cases.s_club []) s' /\
    games (db s') !! 6 = Some Cases.azul.
Proof.
  assert (games (db (Cases.s_club [])) !! 6 = Some Cases.azul) as H2 by run.
  eassert (cron_update Sim.cfg 3 (Cases.s_club [Sim.page11; Sim.page []; Sim.page []]) = Ok _)
    as H1 by run.
  pose proof (later_cron Sim.cfg (Cases.s_club []) (Cases.s_club []) _ 3
                (Sim.mkScript Sim.clock [Sim.page11; Sim.page []; Sim.page []])
                (later_now Sim.cfg _) H1) as Hlater.
  split; [exact H2|]. eexists. split; [exact H1|]. split; [exact Hlater|].
  exact (games_rows_are_kept Sim.cfg _ _ 6 _ Hlater H2).
Defined.

Lemma users_keep_identity_witness :
  exists s',
    admin_full_scan Sim.cfg 3 "ann" (Cases.s_club [Sim.page11; Sim.page []]) = Ok s' /\
    later Sim.cfg (Cases.s_club []) s' /\
    identity_of <$> bgg_users (db s') = [(1, "ann", true); (2, "bob", true); (3, "cy", false)].
Proof.
  eassert (admin_full_scan Sim.cfg 3 "ann" (Cases.s_club [Sim.page11; Sim.page []]) = Ok _)
    as H1 by run.
  pose proof (later_admin Sim.cfg (Cases.s_club []) (Cases.s_club []) _ 3
                (Sim.mkScript Sim.clock [Sim.page11; Sim.page []]) "ann"
                (later_now Sim.cfg _) H1) as Hlater.
  eexists. split; [exact H1|]. split; [exact Hlater|].
  exact (users_keep_identity Sim.cfg _ _ Hlater).
Defined.

Lemma cron_update_keeps_watermarks_witness :
  NoDup (u_id <$> bgg_users Cases.club) /\
  Cases.bob ∈ bgg_users Cases.club /\
  (u_is_active Cases.bob = false \/ next_mode Cases.bob = false) /\
  exists s',
    cron_update Sim.cfg 3 (Cases.s_club [Sim.page11; Sim.page []; Sim.page []]) = Ok s' /\
    Cases.bob ∈ bgg_users (db s').
Proof.
  assert (NoDup (u_id <$> bgg_users (db (Cases.s_club [Sim.page11; Sim.page []; Sim.page []]))))
    as H1 by decided.
  assert (Cases.bob ∈ bgg_users (db (Cases.s_club [Sim.page11; Sim.page []; Sim.page []])))
    as H3 by (right; left).
  assert (u_is_active Cases.bob = false \/ next_mode Cases.bob = false) as H4
    by (right; reflexivity).
  eassert (cron_update Sim.cfg 3 (Cases.s_club [Sim.page11; Sim.page []; Sim.page []]) = Ok _)
    as H2 by run.
  split; [exact H1|]. split; [exact H3|]. split; [exact H4|].
  eexists. split; [exact H2|].
  exact (cron_update_keeps_watermarks Sim.cfg 3 _ _ Cases.bob H1 H2 H3 H4).
Defined.

Lemma admin_full_scan_keeps_other_users_witness :
  List.find (fun u => String.eqb (u_username u) "ann" && u_is_active u) (bgg_users Cases.club)
  = Some Sim.ann /\
  fetch_plays_for_user Sim.cfg 3 "ann" 1 true (Sim.mkScript Sim.clock [Sim.page11; Sim.page []])
  = Ok ([Sim.rec11], Sim.silent) /\
  plays Cases.club !! 21 = Some (mkPlay 5 "2026-10-30" 2) /\
  r_user_id (mkPlay 5 "2026-10-30" 2) <> u_id Sim.ann /\
  (21 ∉ bgg_ids [Sim.rec11]) /\
  exists s',
    admin_full_scan Sim.cfg 3 "ann" (Cases.s_club [Sim.page11; Sim.page []]) = Ok s' /\
    plays (db s') !! 21 = Some (mkPlay 5 "2026-10-30" 2).
Proof.
  assert (List.find (fun u => String.eqb (u_username u) "ann" && u_is_active u)
            (bgg_users (db (Cases.s_club [Sim.page11; Sim.page []]))) = Some Sim.ann)
    as H1 by reflexivity.
  assert (fetch_plays_for_user Sim.cfg 3 "ann" (u_id Sim.ann) true
            (world (Cases.s_club [Sim.page11; Sim.page []]))
          = Ok ([Sim.rec11], Sim.silent)) as H3 by run.
  assert (plays (db (Cases.s_club [Sim.page11; Sim.page []])) !! 21
          = Some (mkPlay 5 "2026-10-30" 2)) as H4 by run.
  assert (r_user_id (mkPlay 5 "2026-10-30" 2) <> u_id Sim.ann) as H5 by discriminate.
  assert (21 ∉ bgg_ids [Sim.rec11]) as H6 by decided.
  eassert (admin_full_scan Sim.cfg 3 "ann" (Cases.s_club [Sim.page11; Sim.page []]) = Ok _)
    as H2 by run.
  split; [exact H1|]. split; [exact H3|]. split; [exact H4|]. split; [exact H5|].
  split; [exact H6|]. eexists. split; [exact H2|].
  exact (admin_full_scan_keeps_other_users Sim.cfg 3 "ann" _ _ _ _ _ 21 _ H1 H2 H3 H4 H5 H6).
Defined.

Lemma admin_full_scan_stamps_witness :
  List.find (fun u => String.eqb (u_username u) "ann" && u_is_active u) (bgg_users Cases.club)
  = Some Sim.ann /\
  u_id Cases.ann_stamped = u_id Sim.ann /\
  exists s',
    admin_full_scan Sim.cfg 3 "ann" (Cases.s_club [Sim.page11; Sim.page []]) = Ok s' /\
    Cases.ann_stamped ∈ bgg_users (db s') /\
    u_last_full_scan Cases.ann_stamped
    = Some (Datetime.isoformat_seconds (datetime_today (world s'))) /\
    next_mode Cases.ann_stamped = false.
Proof.
  assert (List.find (fun u => String.eqb (u_username u) "ann" && u_is_active u)
            (bgg_users (db (Cases.s_club [Sim.page11; Sim.page []]))) = Some Sim.ann)
    as H1 by reflexivity.
  assert (u_id Cases.ann_stamped = u_id Sim.ann) as H4 by reflexivity.
  eassert (admin_full_scan Sim.cfg 3 "ann" (Cases.s_club [Sim.page11; Sim.page []]) = Ok _)
    as H2 by run.
  eassert (Cases.ann_stamped ∈ bgg_users (db _)) as H3; [|
    split; [exact H1|]; split; [exact H4|]; eexists; split; [exact H2|]; split; [exact H3|] ].
  { vm_compute. left. }
  exact (admin_full_scan_stamps Sim.cfg 3 "ann" _ _ _ _ H1 H2 H3 H4).
Defined.

(** ** The admin endpoints *)

Lemma guarded_endpoints_deny_witness :
  is_admin ∅ = false /\
  ("POST" <> "POST" \/ Some "guess" <> Some "secret") /\
  api_add_user (admin_login (Some "secret") "POST" (Some "guess") ∅).2 4 (Some "dee")
    (Cases.s_club []) = Ok (Abort 401, Cases.s_club []) /\
  api_delete_user (admin_login (Some "secret") "POST" (Some "guess") ∅).2 2
    (Cases.s_club []) = Ok (Abort 401, Cases.s_club []) /\
  api_full_scan Sim.cfg (admin_login (Some "secret") "POST" (Some "guess") ∅).2 3 "ann"
    (Cases.s_club []) = Ok (Abort 401, Cases.s_club []) /\
  api_fix_missing_images Sim.cfg (admin_login (Some "secret") "POST" (Some "guess") ∅).2 3
    (Cases.s_club []) = Ok (Abort 401, Cases.s_club []) /\
  api_run_cron Sim.cfg (admin_login (Some "secret") "POST" (Some "guess") ∅).2 3
    (Cases.s_club []) = Ok (Abort 401, Cases.s_club []).
Proof.
  assert (is_admin (∅ : Session) = false) as H1 by reflexivity.
  assert ("POST" <> "POST" \/ Some "guess" <> Some "secret") as H2 by (right; discriminate).
  split; [exact H1|]. split; [exact H2|].
  exact (guarded_endpoints_deny Sim.cfg (Some "secret") "POST" (Some "guess") ∅ ∅
           3 4 (Some "dee") "ann" 2 (Cases.s_club []) H1 H2 _ (or_introl eq_refl)).
Defined.

Lemma add_user_activates_witness :
  "dee" <> "" /\
  add_user 4 (Some "dee") Cases.club
  = (ReplyStatus "created",
     set_users Cases.club (bgg_users Cases.club ++ [mkUser 4 "dee" true None])) /\
  (exists u, u ∈ bgg_users Cases.club ++ [mkUser 4 "dee" true None] /\ u_username u = "dee") /\
  (forall u, u ∈ bgg_users Cases.club ++ [mkUser 4 "dee" true None] ->
             u_username u = "dee" -> u_is_active u = true) /\
  (ReplyStatus "created" = ReplyStatus "created" <->
   forall u, u ∈ bgg_users Cases.club -> u_username u <> "dee").
Proof.
  assert ("dee" <> "") as H1 by discriminate.
  assert (add_user 4 (Some "dee") Cases.club
    = (ReplyStatus "created",
       set_users Cases.club (bgg_users Cases.club ++ [mkUser 4 "dee" true None]))) as H2
    by reflexivity.
  split; [exact H1|]. split; [exact H2|].
  destruct (add_user_activates 4 "dee" Cases.club _ _ H1 H2)
    as (Hex & Hact & _ & _ & _ & Hcreated & _).
  split; [exact Hex|]. split; [exact Hact|]. exact Hcreated.
Defined.

Lemma add_user_reactivation_keeps_watermark_witness :
  "cy" <> "" /\
  Cases.cy ∈ bgg_users Cases.club /\
  u_username Cases.cy = "cy" /\
  (fun u => (u_id u, u_username u, u_last_full_scan u)) <$>
    bgg_users (add_user 4 (Some "cy") Cases.club).2
  = (fun u => (u_id u, u_username u, u_last_full_scan u)) <$> bgg_users Cases.club.
Proof.
  assert ("cy" <> "") as H1 by discriminate.
  assert (Cases.cy ∈ bgg_users Cases.club) as H2 by (right; right; left).
  assert (u_username Cases.cy = "cy") as H3 by reflexivity.
  split; [exact H1|]. split; [exact H2|]. split; [exact H3|].
  exact (add_user_reactivation_keeps_watermark 4 "cy" Cases.club Cases.cy H1 H2 H3).
Defined.

Lemma add_user_twice_witness :
  "dee" <> "" /\
  add_user 5 (Some "dee") (add_user 4 (Some "dee") Cases.club).2
  = (ReplyStatus "reactivated", (add_user 4 (Some "dee") Cases.club).2).
Proof.
  assert ("dee" <> "") as H1 by discriminate.
  split; [exact H1|].
  exact (add_user_twice 4 5 "dee" Cases.club H1).
Defined.

Lemma delete_then_add_user_witness :
  Cases.bob ∈ bgg_users Cases.club /\
  u_is_active Cases.bob = true /\
  u_username Cases.bob <> "" /\
  (forall v, v ∈ bgg_users Cases.club ->
     u_id v = u_id Cases.bob \/ u_username v = u_username Cases.bob -> v = Cases.bob) /\
  add_user 4 (Some "bob") (delete_user 2 Cases.club).2 = (ReplyStatus "reactivated", Cases.club).
Proof.
  assert (Cases.bob ∈ bgg_users Cases.club) as H1 by (right; left).
  assert (u_is_active Cases.bob = true) as H2 by reflexivity.
  assert (u_username Cases.bob <> "") as H3 by discriminate.
  assert (forall v, v ∈ bgg_users Cases.club ->
     u_id v = u_id Cases.bob \/ u_username v = u_username Cases.bob -> v = Cases.bob) as H4.
  { intros v Hv Hsame. unfold Cases.club, bgg_users in Hv.
    split_elem Hv; first [reflexivity | destruct Hsame as [Hs | Hs]; discriminate Hs]. }
  split; [exact H1|]. split; [exact H2|]. split; [exact H3|]. split; [exact H4|].
  exact (delete_then_add_user 4 Cases.club Cases.bob H1 H2 H3 H4).
Defined.

Lemma delete_user_leaves_sweep_witness :
  is_admin Cases.admin = true /\
  sqlite_int (2 ^ 63) = false /\
  api_delete_user Cases.admin (2 ^ 63) (Cases.s_club []) = Raise OverflowError /\
  sqlite_int 2 = true /\
  exists d',
    api_delete_user Cases.admin 2 (Cases.s_club [])
    = Ok (ReplyStatus "deactivated", mkState d' Sim.silent []) /\
    plays d' = plays Cases.club /\
    games d' = games Cases.club /\
    length (bgg_users d') = length (bgg_users Cases.club) /\
    active_users d'
    = List.filter (fun u => negb (u_id u =? 2)) (active_users Cases.club).
Proof.
  assert (is_admin Cases.admin = true) as H1 by reflexivity.
  assert (sqlite_int (2 ^ 63) = false) as H2 by reflexivity.
  assert (sqlite_int 2 = true) as H3 by reflexivity.
  split; [exact H1|]. split; [exact H2|].
  split; [exact (proj1 (delete_user_leaves_sweep Cases.admin (2 ^ 63) (Cases.s_club []) H1) H2)|].
  split; [exact H3|].
  exact (proj2 (delete_user_leaves_sweep Cases.admin 2 (Cases.s_club []) H1) H3).
Defined.

Lemma full_scan_of_deactivated_user_witness :
  is_admin Cases.admin = true /\
  (forall u, u ∈ bgg_users Cases.club -> u_username u = "bob" -> u_id u = 2) /\
  api_full_scan Sim.cfg Cases.admin 3 "bob"
    (mkState (delete_user 2 Cases.club).2 (Sim.mkScript Sim.clock [Sim.page11]) [])
  = Ok (ReplyEmpty,
        mkState (delete_user 2 Cases.club).2 (Sim.mkScript Sim.clock [Sim.page11]) []).
Proof.
  assert (is_admin Cases.admin = true) as H1 by reflexivity.
  assert (forall u, u ∈ bgg_users Cases.club -> u_username u = "bob" -> u_id u = 2) as H2.
  { intros u Hu Hname. unfold Cases.club, bgg_users in Hu.
    split_elem Hu; first [reflexivity | discriminate Hname]. }
  split; [exact H1|]. split; [exact H2|].
  exact (full_scan_of_deactivated_user Sim.cfg Cases.admin 3 "bob" 2 Cases.club
           (Sim.mkScript Sim.clock [Sim.page11]) [] H1 H2).
Defined.

Lemma sweep_without_active_users_witness :
  is_admin Cases.admin = true /\
  (forall u, u ∈ [Cases.cy] -> u_is_active u = false) /\
  api_run_cron Sim.cfg Cases.admin 3
    (mkState (mkDB [Cases.cy] ∅ ∅) (Sim.mkScript Sim.clock [Sim.page11]) [])
  = Ok (ReplyCron "No active users",
        mkState (mkDB [Cases.cy] ∅ ∅) (Sim.mkScript Sim.clock [Sim.page11]) []).
Proof.
  assert (is_admin Cases.admin = true) as H1 by reflexivity.
  assert (forall u, u ∈ [Cases.cy] -> u_is_active u = false) as H2.
  { intros u Hu. split_elem Hu. reflexivity. }
  split; [exact H1|]. split; [exact H2|].
  exact (proj1 (sweep_without_active_users Sim.cfg Cases.admin 3
                  (mkState (mkDB [Cases.cy] ∅ ∅) (Sim.mkScript Sim.clock [Sim.page11]) [])
                  H1) H2).
Defined.

(** ** Missing images *)

Lemma fix_missing_images_frame_witness :
  exists s',
    fix_missing_images Sim.cfg 3
      (Cases.s_club [Sim.thing "Azul" "azul.png"; mkResponse 500 None]) = Ok (1, s') /\
    plays (db s') = plays Cases.club /\
    bgg_users (db s') = bgg_users Cases.club /\
    dom (games (db s')) = dom (games Cases.club) /\
    forall (g : Z) row, games Cases.club !! g = Some row ->
      exists row', games (db s') !! g = Some row' /\
        g_name row' = g_name row /\
        (missing_image row = false -> row' = row) /\
        (row' <> row -> missing_image row' = false).
Proof.
  eassert (fix_missing_images Sim.cfg 3
             (Cases.s_club [Sim.thing "Azul" "azul.png"; mkResponse 500 None]) = Ok (1, _))
    as H1 by run.
  eexists. split; [exact H1|].
  exact (fix_missing_images_frame Sim.cfg 3 _ _ _ H1).
Defined.

Lemma fix_missing_images_count_witness :
  exists s',
    fix_missing_images Sim.cfg 3
      (Cases.s_club [Sim.thing "Azul" "azul.png"; mkResponse 500 None]) = Ok (1, s') /\
    missing_ids (games (db s')) ⊆ missing_ids (games Cases.club) /\
    Z.of_nat (size (missing_ids (games Cases.club)))
    = 1 + Z.of_nat (size (missing_ids (games (db s')))).
Proof.
  eassert (fix_missing_images Sim.cfg 3
             (Cases.s_club [Sim.thing "Azul" "azul.png"; mkResponse 500 None]) = Ok (1, _))
    as H1 by run.
  eexists. split; [exact H1|].
  exact (fix_missing_images_count Sim.cfg 3 _ _ _ H1).
Defined.

Lemma fix_missing_images_lookups_witness :
  log (Cases.s_club [mkResponse 500 None]) = [] /\
  exists s',
    fix_missing_images Sim.cfg 3 (Cases.s_club [mkResponse 500 None]) = Ok (0, s') /\
    occurrences (EvResolve 8) (log s')
    = if decide (8 ∈ missing_ids (games Cases.club)) then 1%nat else O.
Proof.
  assert (log (Cases.s_club [mkResponse 500 None]) = []) as H1 by reflexivity.
  eassert (fix_missing_images Sim.cfg 3 (Cases.s_club [mkResponse 500 None]) = Ok (0, _))
    as H2 by run.
  split; [exact H1|]. eexists. split; [exact H2|].
  exact (fix_missing_images_lookups Sim.cfg 3 _ _ _ 8 H1 H2).
Defined.

(** ** Statistics *)

Lemma stats_order_witness :
  stats "overall" None None None Cases.club !! 0%nat
  = Some (mkStatsRow 1 5 (Some "Catan") (Some "catan.png") 2) /\
  stats "overall" None None None Cases.club !! 1%nat
  = Some (mkStatsRow 2 6 (Some "Azul") None 1) /\
  st_index (mkStatsRow 1 5 (Some "Catan") (Some "catan.png") 2) = 1%nat /\
  ((0 <= 1)%nat ->
   (st_plays (mkStatsRow 2 6 (Some "Azul") None 1)
    <= st_plays (mkStatsRow 1 5 (Some "Catan") (Some "catan.png") 2))%nat).
Proof.
  assert (stats "overall" None None None Cases.club !! 0%nat
          = Some (mkStatsRow 1 5 (Some "Catan") (Some "catan.png") 2)) as H1 by run.
  assert (stats "overall" None None None Cases.club !! 1%nat
          = Some (mkStatsRow 2 6 (Some "Azul") None 1)) as H2 by run.
  split; [exact H1|]. split; [exact H2|].
  exact (stats_order "overall" None None None Cases.club 0 1 _ _ H1 H2).
Defined.

Lemma stats_falls_back_to_overall_witness :
  ("year" = "year" -> truthy (Some "") = false) /\
  ("year" = "month" -> truthy (Some "") = false \/ truthy (Some "10") = false) /\
  ("year" = "date" -> truthy None = false) /\
  stats "year" (Some "") (Some "10") None Cases.club
  = stats "overall" None None None Cases.club /\
  stats "month" (Some "2026") (Some "9") None Cases.club
  = stats "month" (Some "2026") (Some "09") None Cases.club.
Proof.
  assert ("year" = "year" -> truthy (Some "") = false) as H1 by reflexivity.
  assert ("year" = "month" -> truthy (Some "") = false \/ truthy (Some "10") = false) as H2
    by discriminate.
  assert ("year" = "date" -> truthy None = false) as H3 by reflexivity.
  split; [exact H1|]. split; [exact H2|]. split; [exact H3|].
  destruct (stats_falls_back_to_overall "year" (Some "") (Some "10") None Cases.club H1 H2 H3)
    as [Hoverall Hpad].
  split; [exact Hoverall|].
  exact (Hpad "2026" "9"%char eq_refl eq_refl).
Defined.
